(** * Layout and connection routing of the VPC network visualizer

    A shallow embedding of the layout core of [visualize_network.py]:
    the route-bundling generator [RouteGroup], the sizing functions
    ([get_dimensions]) and the placement functions ([render_xml]) of the
    subnet, availability-zone and VPC containers, the route ordering of a
    route table and the column pre-pass of the driver.

    Python integers are unbounded, so every coordinate is a [Z].  The
    script is Python 2 ([sorted(..., cmp=...)], the builtin [cmp]): [/]
    between two integers is floor division, which is [Z.div] for every
    non-zero divisor.  Exceptions are values of a small error type. *)

From Stdlib Require Import ZArith List String Ascii Bool Lia Permutation Sorted.
Import ListNotations.
Local Open Scope Z_scope.

Set Implicit Arguments.

(** ** Module constants *)

Definition PADDING : Z := 60.
Definition RESOURCE_DISTRIBUTION : Z := PADDING * 3.
Definition SUBNET_MIN_W : Z := 340.
Definition SUBNET_MIN_H : Z := 80.
Definition VPC_MIN_W : Z := 200.
Definition VPC_MIN_H : Z := 120.
Definition VPC_GUTTER_DIM : Z := 700.
Definition DIAGRAM_HEADER_SPACING : Z := 50.
Definition LINE_BUNDLE_SPACING : Z := 10.
Definition X_DIRECTION : Z := 1.
Definition Y_DIRECTION : Z := 0.
Definition NO_AZ : string := "no_az".

(** ** Python exceptions and the error monad *)

Inductive PyExn : Type :=
| ZeroDivisionError
| UnboundLocalError
| ValueError.

Inductive Res (A : Type) : Type :=
| Ok (a : A)
| Raise (e : PyExn).
Arguments Raise {A} e.

Definition bind {A B : Type} (m : Res A) (k : A -> Res B) : Res B :=
  match m with
  | Ok a => k a
  | Raise e => Raise e
  end.

Notation "x <- m ;; k" := (bind m (fun x => k))
  (at level 61, m at next level, right associativity).
Notation "' p <- m ;; k" := (bind m (fun p => k))
  (at level 61, p pattern, m at next level, right associativity).

(** Python's [a / b] on two integers. *)
Definition py_div (a b : Z) : Res Z :=
  if b =? 0 then Raise ZeroDivisionError else Ok (a / b).

(** ** Geometry *)

Record Rect : Type := mkRect { rx : Z; ry : Z; rw : Z; rh : Z }.

(** Two rectangles overlap when their interiors meet. *)
Definition overlap (a b : Rect) : Prop :=
  rx a < rx b + rw b /\ rx b < rx a + rw a /\
  ry a < ry b + rh b /\ ry b < ry a + rh a.

(** [inside pad inner outer]: [inner] lies in [outer] shrunk by [pad] on
    every side. *)
Definition inside (pad : Z) (inner outer : Rect) : Prop :=
  rx outer + pad <= rx inner /\ rx inner + rw inner <= rx outer + rw outer - pad /\
  ry outer + pad <= ry inner /\ ry inner + rh inner <= ry outer + rh outer - pad.

(** No two rectangles of the list overlap. *)
Inductive pairwise_disjoint : list Rect -> Prop :=
| pd_nil : pairwise_disjoint []
| pd_cons r rs :
    Forall (fun r' => ~ overlap r r') rs ->
    pairwise_disjoint rs ->
    pairwise_disjoint (r :: rs).

(** ** RouteGroup *)

Module RouteGroup.

Record t : Type := mk {
  bundle_spacing : Z;
  current_x : Z;
  current_y : Z;
  starting_direction : Z;
  additional_break : Z
}.

(** What [__init__] prints on standard output. *)
Inductive Warning : Type :=
| BadStartingDirection (dir : Z).

(** [__init__]: the fields are stored as given; a direction that is
    neither [X_DIRECTION] nor [Y_DIRECTION] prints a warning and the
    object is built all the same. *)
Definition init (start_x_bundle start_y_bundle starting_direction
                 bundle_spacing additional_break : Z) : t * list Warning :=
  (mk bundle_spacing start_x_bundle start_y_bundle starting_direction
      additional_break,
   if negb (starting_direction =? X_DIRECTION) &&
      negb (starting_direction =? Y_DIRECTION)
   then [BadStartingDirection starting_direction]
   else []).

Definition Route : Type := list (Z * Z).

(** The waypoints of one call, before the state advances. *)
Definition complex_route (g : t) (origin_x origin_y : Z) : Route :=
  if starting_direction g =? X_DIRECTION then
    [(current_x g, origin_y)]
    ++ (if negb (current_y g =? -1) then [(current_x g, current_y g)] else [])
    ++ (if negb (additional_break g =? -1)
        then [(additional_break g, current_y g)] else [])
  else if starting_direction g =? Y_DIRECTION then
    [(origin_x, current_y g)]
    ++ (if negb (current_x g =? -1) then [(current_x g, current_y g)] else [])
    ++ (if negb (additional_break g =? -1)
        then [(current_x g, additional_break g)] else [])
  else [].

(** The state after one call. *)
Definition advance (g : t) : t :=
  mk (bundle_spacing g)
     (if negb (current_x g =? -1) then current_x g + bundle_spacing g
      else current_x g)
     (if negb (current_y g =? -1) then current_y g - bundle_spacing g
      else current_y g)
     (starting_direction g)
     (if negb (additional_break g =? -1)
      then additional_break g - bundle_spacing g
      else additional_break g).

Definition get_next_route (g : t) (origin_x origin_y : Z) : Route * t :=
  (complex_route g origin_x origin_y, advance g).

(** One call per origin, in order, on the same generator. *)
Fixpoint get_routes (g : t) (origins : list (Z * Z)) : list Route * t :=
  match origins with
  | [] => ([], g)
  | (ox, oy) :: rest =>
      let (r, g1) := get_next_route g ox oy in
      let (rs, g2) := get_routes g1 rest in
      (r :: rs, g2)
  end.

(** The x of the first waypoint of a route, when it has one. *)
Definition first_x (r : Route) : option Z :=
  match r with
  | [] => None
  | (x, _) :: _ => Some x
  end.

End RouteGroup.

(** ** Connections

    [render_xml_connection] of [DiagramObject], [DiagramContainer] and
    [DiagramList]: the edge cell gets an [Array] of points only when the
    route passed in is not empty. *)



(** ** Python builtins used by the route ordering *)

(** [s.split(".")]: every dot separates two fields, so the result is
    never empty. *)
Fixpoint split_dot (s : string) : list string :=
  match s with
  | EmptyString => [EmptyString]
  | String c r =>
      if Ascii.eqb c "."%char then EmptyString :: split_dot r
      else match split_dot r with
           | [] => [String c EmptyString]
           | h :: t => String c h :: t
           end
  end.

Definition is_digit (c : ascii) : bool :=
  let n := nat_of_ascii c in (Nat.leb 48 n) && (Nat.leb n 57).

(** Space, tab, line feed, vertical tab, form feed, carriage return. *)
Definition is_space (c : ascii) : bool :=
  let n := nat_of_ascii c in Nat.eqb n 32 || ((Nat.leb 9 n) && (Nat.leb n 13)).

Fixpoint lstrip (s : string) : string :=
  match s with
  | EmptyString => EmptyString
  | String c r => if is_space c then lstrip r else s
  end.

Fixpoint rstrip (s : string) : string :=
  match s with
  | EmptyString => EmptyString
  | String c r =>
      match rstrip r with
      | EmptyString => if is_space c then EmptyString else String c EmptyString
      | r' => String c r'
      end
  end.

Fixpoint digits_value (acc : Z) (s : string) : option Z :=
  match s with
  | EmptyString => Some acc
  | String c r =>
      if is_digit c
      then digits_value (acc * 10 + (Z.of_nat (nat_of_ascii c) - 48)) r
      else None
  end.

Definition unsigned_value (s : string) : option Z :=
  match s with
  | EmptyString => None
  | _ => digits_value 0 s
  end.

(** [int(s)] on a text string: a base-10 literal, that is an optional
    sign and at least one digit, with blanks allowed around it.  [None]
    stands for the [ValueError] that [cmp_cidr] catches. *)
Definition py_int (s : string) : option Z :=
  match lstrip (rstrip s) with
  | String "+"%char r => unsigned_value r
  | String "-"%char r => option_map Z.opp (unsigned_value r)
  | t => unsigned_value t
  end.

Section Sorted.
Variable A : Type.
Variable cmp : A -> A -> Z.

(** [x] goes after every element it is not smaller than, which keeps
    equal elements in their order of arrival. *)
Fixpoint insert_sorted (x : A) (l : list A) : list A :=
  match l with
  | [] => [x]
  | y :: t => if cmp x y <? 0 then x :: y :: t else y :: insert_sorted x t
  end.

(** [sorted(l, cmp=cmp)]: a stable sort, here by insertion from left
    to right.  Where [cmp] orders the elements consistently, every
    stable sort returns this list.  [cmp_cidr] is not a consistent
    order on fields that do not parse; the order the interpreter's own
    sort leaves such routes in is not modelled, and the properties
    below are stated so that they do not rest on it. *)
Definition py_sorted (l : list A) : list A :=
  fold_left (fun acc x => insert_sorted x acc) l [].
End Sorted.

(** [l.pop(r)] for an index in range: the element and the list without it. *)
Definition pop_at (A : Type) (r : nat) (l : list A) : list A :=
  firstn r l ++ skipn (S r) l.

(** ** RouteTableResource *)

Record Route : Type := mkRoute {
  dest_cidr : string;
  state : string;
  gw_id : string;
  origin : string
}.

Record RouteTableResource : Type := mkRT {
  rt_id : string;
  rt_associations : list (string * string);
  routes : list Route;
  rt_name : string;
  az_connections : list string
}.

Fixpoint cmp_cidr (cidr_one_list cidr_two_list : list string) : Z :=
  match cidr_one_list, cidr_two_list with
  | [], _ => 0
  | _, [] => 0
  | one :: rest_one, two :: rest_two =>
      match py_int one with
      | None => -1
      | Some val_one =>
          match py_int two with
          | None => 1
          | Some val_two =>
              if val_one <? val_two then -1
              else if val_one >? val_two then 1
              else cmp_cidr rest_one rest_two
          end
      end
  end.

(** The comparison [sorted] applies to two routes: the key is the
    destination CIDR, compared field by field. *)
Definition cmp_route (one two : Route) : Z :=
  cmp_cidr (split_dot (dest_cidr one)) (split_dot (dest_cidr two)).

(** One turn of the loop that moves local routes to the front: a route
    whose gateway is ['local'] is popped from index [r] and inserted at
    position 0. *)
Definition local_step (l : list Route) (r : nat) : list Route :=
  match nth_error l r with
  | Some route =>
      if String.eqb (gw_id route) "local" then route :: pop_at r l else l
  | None => l
  end.

(** The loop itself, over [range(len(cidr_sorted))]. *)
Definition local_to_front (cidr_sorted : list Route) : list Route :=
  fold_left local_step (seq 0 (List.length cidr_sorted)) cidr_sorted.

Definition sort_routes (rt : RouteTableResource) : list Route :=
  local_to_front (py_sorted cmp_route (routes rt)).

Definition simplify_origin (o : string) : string :=
  if String.eqb o "EnableVgwRoutePropagation" then "Propagated"%string
  else if String.eqb o "CreateRoute" then "Create Route"%string
  else if String.eqb o "CreateRouteTable" then "Create Table"%string
  else o.

Definition add_route (rt : RouteTableResource)
           (cidr st gw org : string) : RouteTableResource :=
  mkRT (rt_id rt) (rt_associations rt)
       (routes rt ++ [mkRoute cidr st gw (simplify_origin org)])
       (rt_name rt) (az_connections rt).

Definition register_rt_association (rt : RouteTableResource)
           (subnet_id rt_assoc_id az : string) : RouteTableResource :=
  mkRT (rt_id rt) (rt_associations rt ++ [(subnet_id, rt_assoc_id)])
       (routes rt) (rt_name rt) (az_connections rt ++ [az]).

(** Majority vote behind [get_suggested_az]:
    [max(set(l), key=l.count)] is the first element, in the iteration
    order of the set, among those that occur most often in [l]. *)
Fixpoint py_max_by (A : Type) (key : A -> nat) (best : A) (l : list A) : A :=
  match l with
  | [] => best
  | a :: t => py_max_by key (if Nat.ltb (key best) (key a) then a else best) t
  end.

(** [l.index(x)]: the first position of [x], or [ValueError]. *)
Fixpoint py_index (x : string) (l : list string) : Res Z :=
  match l with
  | [] => Raise ValueError
  | y :: t => if String.eqb y x then Ok 0 else i <- py_index x t ;; Ok (i + 1)
  end.

(** The builtin [cmp] on integers. *)
Definition py_cmp (a b : Z) : Z :=
  if a <? b then -1 else if a >? b then 1 else 0.

(** The default ordering of text strings, as [cmp] reports it. *)
Definition py_cmp_string (a b : string) : Z :=
  match String.compare a b with
  | Lt => -1
  | Eq => 0
  | Gt => 1
  end.

Section SortedRes.
Variable A : Type.
Variable cmp : A -> A -> Res Z.

Fixpoint insert_sorted_res (x : A) (l : list A) : Res (list A) :=
  match l with
  | [] => Ok [x]
  | y :: t =>
      c <- cmp x y ;;
      if c <? 0 then Ok (x :: y :: t)
      else t' <- insert_sorted_res x t ;; Ok (y :: t')
  end.

Fixpoint sorted_res_from (acc l : list A) : Res (list A) :=
  match l with
  | [] => Ok acc
  | x :: t => acc' <- insert_sorted_res x acc ;; sorted_res_from acc' t
  end.

(** [sorted(l, cmp=cmp)] when the comparison itself may raise: the
    first exception ends the sort. *)
Definition py_sorted_res (l : list A) : Res (list A) :=
  sorted_res_from [] l.
End SortedRes.

(** ** What a [render_xml] is here

    Every [render_xml] appends cells to the XML document.  The
    embedding keeps the geometry of the vertex cells: the rectangle an
    entity draws for itself and the rectangles of the children it
    places, one record per level of the tree ([SubnetBox], [AZBox],
    [VpcBox]).  Text labels, connections and the rows of the side-panel
    lists are emitted next to them; they move no rectangle, and the
    route generators they consume raise nothing, so they are not part of
    the boxes.  [RouteGroup] and [render_xml_connection] are embedded on
    their own above. *)

(** ** Leaves: NAT gateways and network ACLs *)

Record NgResource : Type := mkNg {
  ng_id : string;
  ng_subnet_id : string;
  ng_name : string;
  igw : option string
}.

(** [DiagramObject.render_xml] with its default [width=50, height=50]. *)
Definition DiagramObject_render_xml (loc_x loc_y : Z) : Rect :=
  mkRect loc_x loc_y 50 50.

Definition Ng_render_xml (ng : NgResource) (x y : Z) : Rect :=
  DiagramObject_render_xml x y.

Record NAclResource : Type := mkNacl {
  nacl_id : string;
  col_suggestion : Z;
  nacl_name : string;
  nacl_x : Z
}.

Definition add_col_suggestion (n : NAclResource) (suggestion : Z) : NAclResource :=
  mkNacl (nacl_id n) suggestion (nacl_name n) (nacl_x n).

Definition get_col_suggestion (n : NAclResource) : Z := col_suggestion n.

(** [NAclResource.render_xml]: remembers [x] and draws the icon. *)
Definition NAcl_render_xml (n : NAclResource) (x y : Z) : Rect * NAclResource :=
  (DiagramObject_render_xml x y, mkNacl (nacl_id n) (col_suggestion n) (nacl_name n) x).

(** ** SubnetResource *)

(** One entry of [nacl_association_data]: subnet id, ACL id, association
    id and the ACL object, which the subnet reads when it is rendered. *)
Record NaclAssoc : Type := mkAssoc {
  assoc_subnet_id : string;
  assoc_nacl_id : string;
  assoc_id : string;
  assoc_nacl : NAclResource
}.

Record SubnetResource : Type := mkSubnet {
  subnet_id : string;
  subnet_cidr : string;
  subnet_az : string;
  ng_list : list NgResource;
  associations : list NaclAssoc;
  subnet_name : string
}.

Definition Subnet_get_dimensions (s : SubnetResource) : Z * Z :=
  let h := SUBNET_MIN_H in
  let ng_height_requirement :=
    Z.of_nat (List.length (ng_list s)) * RESOURCE_DISTRIBUTION - PADDING in
  let h := if ng_height_requirement >? h then ng_height_requirement else h in
  (SUBNET_MIN_W, h).

Definition register_ng (s : SubnetResource) (ng : NgResource) : SubnetResource :=
  mkSubnet (subnet_id s) (subnet_cidr s) (subnet_az s) (ng_list s ++ [ng])
           (associations s) (subnet_name s).

Definition Subnet_get_col_suggestion (s : SubnetResource) : Z :=
  match associations s with
  | a :: _ => get_col_suggestion (assoc_nacl a)
  | [] => 0
  end.

(** What [SubnetResource.render_xml] draws: the subnet's own rectangle
    and the icons of its NAT gateways. *)
Record SubnetBox : Type := mkSubnetBox {
  sb_rect : Rect;
  sb_ngs : list Rect
}.

(** The loop over [ng_list]: one icon every [RESOURCE_DISTRIBUTION]. *)
Fixpoint place_ngs (ng_x ng_y : Z) (l : list NgResource) : list Rect :=
  match l with
  | [] => []
  | ng :: rest =>
      Ng_render_xml ng ng_x ng_y :: place_ngs ng_x (ng_y + RESOURCE_DISTRIBUTION) rest
  end.

Definition Subnet_render_xml (s : SubnetResource) (x y : Z) : SubnetBox :=
  let (subnet_w, subnet_h) := Subnet_get_dimensions s in
  let ng_x := x + subnet_w - PADDING / 2 in
  let ng_y := y + subnet_h / 2 in
  mkSubnetBox (mkRect x y subnet_w subnet_h) (place_ngs ng_x ng_y (ng_list s)).

(** ** AZResource *)

Record AZResource : Type := mkAZ {
  az_id : string;
  subnets : list SubnetResource;
  width_override : bool * Z
}.

Definition override_width (az : AZResource) (width : Z) : AZResource :=
  mkAZ (az_id az) (subnets az) (true, width).

Definition AZ_empty (az : AZResource) : bool :=
  match subnets az with [] => true | _ :: _ => false end.

Definition get_total_subnets (az : AZResource) : Z :=
  Z.of_nat (List.length (subnets az)).

Definition AZ_get_dimensions (az : AZResource) : Z * Z :=
  let '(w, h) :=
    fold_left (fun '(w, h) subnet =>
                 let '(new_w, new_h) := Subnet_get_dimensions subnet in
                 (new_w, h + new_h + PADDING))
              (subnets az) (0, PADDING) in
  if fst (width_override az) then (snd (width_override az), h)
  else (w + 2 * PADDING, h).

Record AZBox : Type := mkAZBox {
  azb_rect : Rect;
  azb_subnets : list SubnetBox
}.

(** ** Containers that depend on the run configuration *)

Section Layout.

(** [args.sub_cols] and [args.line_height]. *)
Variable SUBNET_ALIGNMENT_COLS : Z.
Variable DIAGRAM_LINE_HEIGHT : Z.

(** [int(h / 1.3)]: a floating-point quotient truncated to an integer.
    Nothing below depends on its value. *)
Variable int_div_1_3 : Z -> Z.

(** The order in which [set(l)] is iterated; it depends on the hashes
    of the strings. *)
Variable py_set : list string -> list string.

(** *** AZResource.render_xml *)

(** The loop over the sorted subnets. *)
Fixpoint place_subnets (width subnet_x subnet_y : Z)
         (l : list SubnetResource) : Res (list SubnetBox) :=
  match l with
  | [] => Ok []
  | subnet :: rest =>
      let col := Subnet_get_col_suggestion subnet in
      let '(sub_w, sub_h) := Subnet_get_dimensions subnet in
      step <- py_div (width - sub_w - PADDING) SUBNET_ALIGNMENT_COLS ;;
      let offset := col * step in
      let b := Subnet_render_xml subnet (subnet_x + offset) subnet_y in
      bs <- place_subnets width subnet_x (subnet_y + PADDING + sub_h) rest ;;
      Ok (b :: bs)
  end.

Definition sorted_subnets (az : AZResource) : list SubnetResource :=
  py_sorted (fun a b => py_cmp_string (subnet_name a) (subnet_name b))
            (subnets az).

Definition AZ_render_xml (az : AZResource) (x y : Z) : Res AZBox :=
  let '(width, height) := AZ_get_dimensions az in
  let subnet_x := x + PADDING in
  let subnet_y := y + PADDING in
  bs <- place_subnets width subnet_x subnet_y (sorted_subnets az) ;;
  Ok (mkAZBox (mkRect x y width height) bs).

(** *** RouteTableResource.render_xml *)

Definition DIAGRAM_COL_WIDTH_SMALL : Z := 70.
Definition DIAGRAM_COL_WIDTH_NORMAL : Z := 120.
Definition DIAGRAM_COL_WIDTH_OVERSIZED : Z := 210.

(** [DiagramList.render_xml]: the rectangle of the list and the height
    it returns. *)
Definition DiagramList_render_xml (rows : nat) (col_widths : list Z)
           (x y : Z) : Rect * Z :=
  let width := fold_left Z.add col_widths 0 in
  let height := DIAGRAM_HEADER_SPACING + DIAGRAM_LINE_HEIGHT * Z.of_nat rows in
  (mkRect x y width height, height).

Record RTBox : Type := mkRTBox {
  rtb_icon : Rect;
  rtb_list : Rect
}.

(** [resource_height] is a local that only the branch for a non-empty
    route list assigns; reading it unassigned is [UnboundLocalError]. *)
Definition RouteTable_render_xml (rt : RouteTableResource)
           (x y list_y : Z) : Res (RTBox * Z) :=
  let route_table_diagram := DiagramObject_render_xml x y in
  let rendered_list : option (Rect * Z) :=
    if Z.of_nat (List.length (routes rt)) >? 0 then
      let widths := [DIAGRAM_COL_WIDTH_OVERSIZED; DIAGRAM_COL_WIDTH_SMALL;
                     DIAGRAM_COL_WIDTH_NORMAL; DIAGRAM_COL_WIDTH_NORMAL] in
      let sorted_routes := sort_routes rt in
      Some (DiagramList_render_xml (List.length sorted_routes) widths
                                   0 (list_y - RESOURCE_DISTRIBUTION))
    else None in
  match rendered_list with
  | Some (list_rect, resource_height) =>
      Ok (mkRTBox route_table_diagram list_rect, resource_height)
  | None => Raise UnboundLocalError
  end.

Definition get_suggested_az (rt : RouteTableResource) : string :=
  match az_connections rt with
  | [] => NO_AZ
  | _ :: _ =>
      let count a := count_occ string_dec (az_connections rt) a in
      match py_set (az_connections rt) with
      | [] => NO_AZ
      | a :: t => py_max_by count a t
      end
  end.

(** *** VpcResource *)

Record VpcResource : Type := mkVpc {
  vpc_id : string;
  az_list : list AZResource;
  nacl_list : list NAclResource;
  rt_list : list RouteTableResource;
  vpc_name : string;
  vpc_cidr : string;
  dns_server_list : list string;
  domain_list : list string
}.

Definition with_az_list (v : VpcResource) (azs : list AZResource) : VpcResource :=
  mkVpc (vpc_id v) azs (nacl_list v) (rt_list v) (vpc_name v) (vpc_cidr v)
        (dns_server_list v) (domain_list v).

Definition check_empty (v : VpcResource) : bool :=
  match az_list v, nacl_list v, rt_list v with
  | [], [], [] => true
  | _, _, _ => false
  end.

Definition sort_rt_resources (v : VpcResource) : Res (list RouteTableResource) :=
  if check_empty v then Ok []
  else
    let az_sorting_list := map az_id (az_list v) ++ [NO_AZ] in
    py_sorted_res
      (fun rt_one rt_two =>
         i <- py_index (get_suggested_az rt_one) az_sorting_list ;;
         j <- py_index (get_suggested_az rt_two) az_sorting_list ;;
         Ok (py_cmp i j))
      (rt_list v).

(** [get_dimensions] may call [override_width] on every zone, so it
    returns the network as it leaves it. *)
Definition Vpc_get_dimensions (v : VpcResource) : (Z * Z) * VpcResource :=
  if check_empty v then ((VPC_MIN_W, VPC_MIN_H), v)
  else
    let '(az_combined_height_requirement, az_max_width_requirement) :=
      fold_left (fun '(hreq, wreq) az =>
                   let '(w, h) := AZ_get_dimensions az in
                   (hreq + h, if w + PADDING >? wreq then w + PADDING else wreq))
                (az_list v)
                (RESOURCE_DISTRIBUTION + 2 * PADDING, RESOURCE_DISTRIBUTION + PADDING) in
    let nacl_combined_width_requirement :=
      Z.of_nat (List.length (nacl_list v)) * RESOURCE_DISTRIBUTION in
    let '(az_max_width_requirement, azs) :=
      if nacl_combined_width_requirement >? az_max_width_requirement
      then (nacl_combined_width_requirement,
            map (fun az => override_width az (nacl_combined_width_requirement - PADDING))
                (az_list v))
      else (az_max_width_requirement, az_list v) in
    let rt_combined_height_requirement :=
      Z.of_nat (List.length (rt_list v)) * RESOURCE_DISTRIBUTION in
    let az_combined_height_requirement :=
      if rt_combined_height_requirement >? az_combined_height_requirement
      then rt_combined_height_requirement
      else az_combined_height_requirement in
    ((az_max_width_requirement + 5 * PADDING,
      az_combined_height_requirement + 2 * PADDING),
     with_az_list v azs).

(** The loop over [nacl_list]: icons side by side. *)
Fixpoint place_nacls (nacl_x nacl_y : Z) (l : list NAclResource) : list Rect :=
  match l with
  | [] => []
  | nacl :: rest =>
      fst (NAcl_render_xml nacl nacl_x nacl_y)
      :: place_nacls (nacl_x + RESOURCE_DISTRIBUTION) nacl_y rest
  end.

(** The loop over the sorted route tables. *)
Fixpoint place_rts (rt_x rt_y rt_list_y : Z)
         (l : list RouteTableResource) : Res (list RTBox) :=
  match l with
  | [] => Ok []
  | rt :: rest =>
      '(b, rt_height) <- RouteTable_render_xml rt rt_x rt_y rt_list_y ;;
      bs <- place_rts rt_x
                      (rt_y + Z.max (int_div_1_3 rt_height) RESOURCE_DISTRIBUTION)
                      (rt_list_y + Z.max (PADDING + rt_height) RESOURCE_DISTRIBUTION)
                      rest ;;
      Ok (b :: bs)
  end.

(** The loop over [az_list]: empty zones are narrowed and packed two
    per row, the others stacked. *)
Fixpoint place_azs (small_az_width az_x az_y : Z) (right : bool)
         (l : list AZResource) : Res (list AZBox) :=
  match l with
  | [] => Ok []
  | az :: rest =>
      if AZ_empty az then
        let az := override_width az small_az_width in
        if right then
          b <- AZ_render_xml az (az_x + small_az_width + PADDING) az_y ;;
          let az_y := az_y + PADDING + snd (AZ_get_dimensions az) in
          bs <- place_azs small_az_width az_x az_y (negb right) rest ;;
          Ok (b :: bs)
        else
          b <- AZ_render_xml az az_x az_y ;;
          bs <- place_azs small_az_width az_x az_y (negb right) rest ;;
          Ok (b :: bs)
      else
        let az_y := if right then az_y + SUBNET_MIN_H + PADDING else az_y in
        b <- AZ_render_xml az az_x az_y ;;
        bs <- place_azs small_az_width az_x
                        (az_y + PADDING + snd (AZ_get_dimensions az)) false rest ;;
        Ok (b :: bs)
  end.

Record VpcBox : Type := mkVpcBox {
  vb_rect : Rect;
  vb_nacls : list Rect;
  vb_rts : list RTBox;
  vb_azs : list AZBox
}.

Definition Vpc_render_xml (v : VpcResource) (x y vpc_height_override : Z)
  : Res VpcBox :=
  let '((vpc_width, vpc_height), v) := Vpc_get_dimensions v in
  let vpc_x := x in
  let vpc_y := y in
  let vpc_height := Z.max vpc_height vpc_height_override in
  let nacl_x := vpc_x + RESOURCE_DISTRIBUTION + 2 * PADDING in
  let nacl_y := vpc_y + PADDING in
  let nacls := place_nacls nacl_x nacl_y (nacl_list v) in
  let rt_x := vpc_x + PADDING / 2 in
  let rt_y := vpc_y + RESOURCE_DISTRIBUTION + PADDING in
  let rt_list_y := rt_y in
  sorted_rts <- sort_rt_resources v ;;
  rts <- place_rts rt_x rt_y rt_list_y sorted_rts ;;
  let az_x := vpc_x + RESOURCE_DISTRIBUTION in
  let az_y := vpc_y + RESOURCE_DISTRIBUTION in
  let small_az_width := (vpc_width - 7 * PADDING) / 2 in
  azs <- place_azs small_az_width az_x az_y false (az_list v) ;;
  Ok (mkVpcBox (mkRect vpc_x vpc_y vpc_width vpc_height) nacls rts azs).

(** The rectangles a network hands to its children. *)
Definition vpc_children (b : VpcBox) : list Rect :=
  vb_nacls b ++ map rtb_icon (vb_rts b) ++ map azb_rect (vb_azs b).

(** *** The column pre-pass of [visualize_vpc] *)

(** [int(math.ceil(float(n) / c))]: the quotient is rounded up; the
    floating-point division is exact enough for any list length. *)
Definition py_ceil_div (n c : Z) : Res Z :=
  if c =? 0 then Raise ZeroDivisionError else Ok (- ((- n) / c)).

Fixpoint assign_from (i div : Z) (l : list NAclResource) : Res (list NAclResource) :=
  match l with
  | [] => Ok []
  | nacl :: rest =>
      col <- py_div i div ;;
      rest' <- assign_from (i + 1) div rest ;;
      Ok (add_col_suggestion nacl col :: rest')
  end.

Definition assign_col_suggestions (nacl_resources : list NAclResource)
  : Res (list NAclResource) :=
  div <- py_ceil_div (Z.of_nat (List.length nacl_resources)) SUBNET_ALIGNMENT_COLS ;;
  assign_from 0 div nacl_resources.

End Layout.

(** ** Notions used to state the properties *)

(** Two fields that both parse, to the same integer. *)
Definition same_int (s t : string) : Prop :=
  exists k, py_int s = Some k /\ py_int t = Some k.

(** The heights and paddings a list of subnets adds to its zone. *)
Fixpoint stack_height (l : list SubnetResource) : Z :=
  match l with
  | [] => 0
  | s :: rest => snd (Subnet_get_dimensions s) + PADDING + stack_height rest
  end.

(** The fold of [VpcResource.get_dimensions] over the zones. *)
Definition az_requirements (l : list AZResource) (start : Z * Z) : Z * Z :=
  fold_left (fun '(hreq, wreq) az =>
               let '(w, h) := AZ_get_dimensions az in
               (hreq + h, if w + PADDING >? wreq then w + PADDING else wreq))
            l start.

(** ** Further parts of the script *)

(** *** Waypoints *)

(** The y of the first waypoint of a route, when it has one. *)
Definition route_first_y (r : RouteGroup.Route) : option Z :=
  match r with
  | [] => None
  | (_, y) :: _ => Some y
  end.

(** Two waypoints on one vertical or one horizontal line. *)
Definition axis_aligned (p q : Z * Z) : Prop :=
  fst p = fst q \/ snd p = snd q.

(** Every leg of the path is vertical or horizontal. *)
Fixpoint orthogonal_path (r : RouteGroup.Route) : Prop :=
  match r with
  | p :: (q :: _) as rest => axis_aligned p q /\ orthogonal_path rest
  | _ => True
  end.

(** *** Field lookup in the data of the provider *)

(** A resource as the provider returns it: a mapping from field names
    to text values. *)
Definition PyDict : Type := string -> option string.

(** [if_in(resource, *keys)]: the value of the first key that the
    mapping has, or the empty string. *)
Fixpoint if_in (resource : PyDict) (keys : list string) : string :=
  match keys with
  | [] => EmptyString
  | k :: rest =>
      match resource k with
      | Some v => v
      | None => if_in resource rest
      end
  end.

Definition SECOND_NAME_FIELD : string := "aws:cloudformation:logical-id".

(** One entry of [resource['Tags']]: its ['Key'] and its ['Value']. *)
Definition Tag : Type := (string * string)%type.

(** The first tag with the given key, as the [for] loops find it. *)
Fixpoint first_tag (key : string) (tags : list Tag) : option string :=
  match tags with
  | [] => None
  | (k, v) :: rest => if String.eqb k key then Some v else first_tag key rest
  end.

(** [name_from_tags(resource)], on [resource.get('Tags')]: [None] when
    the resource has no ['Tags'] field. *)
Definition name_from_tags (tags : option (list Tag)) : string :=
  match tags with
  | Some ts =>
      match first_tag "Name" ts with
      | Some v => v
      | None =>
          match first_tag SECOND_NAME_FIELD ts with
          | Some v => v
          | None => EmptyString
          end
      end
  | None => EmptyString
  end.

(** *** Well-formed CIDR fields *)

(** A field that [int()] accepts. *)
Definition numeric (s : string) : Prop := exists k, py_int s = Some k.

(** The route is one that the loop of [sort_routes] moves. *)
Definition is_local (r : Route) : bool := String.eqb (gw_id r) "local".

(** *** The rank of a route table *)

(** The position [sort_rt_resources] looks up for a route table: that
    of its suggested zone among the zones of the network, with [NO_AZ]
    after them. *)
Definition az_rank (py_set : list string -> list string) (v : VpcResource)
           (rt : RouteTableResource) : Res Z :=
  py_index (get_suggested_az py_set rt) (map az_id (az_list v) ++ [NO_AZ]).

(** A comparison [cmp(key(a), key(b))] whose key may raise. *)
Definition cmp_by_key (A : Type) (key : A -> Res Z) (a b : A) : Res Z :=
  i <- key a ;; j <- key b ;; Ok (py_cmp i j).

(** Either at most one element, which a sort never compares, or
    elements whose keys are all there. *)
Definition keys_checked (A : Type) (key : A -> Res Z) (l : list A) : Prop :=
  (List.length l <= 1)%nat \/ Forall (fun a => exists i, key a = Ok i) l.

(** Two neighbours of a list sorted by key: both keys are there and they
    do not go down. *)
Definition key_le (A : Type) (key : A -> Res Z) (a b : A) : Prop :=
  exists i j, key a = Ok i /\ key b = Ok j /\ i <= j.

(** *** The rules of a network ACL and its list panel *)

(** One rule as [add_rule] stores it. *)
Record Rule : Type := mkRule {
  rule_number : Z;
  protocol : string;
  egress : bool;
  cidr_block : string;
  rule_action : string
}.

(** The two rule lists of a [NAclResource]. *)
Record NAclRules : Type := mkNAclRules {
  rules_ingress : list Rule;
  rules_egress : list Rule
}.

Definition add_rule (n : NAclRules) (rule : Rule) : NAclRules :=
  if egress rule
  then mkNAclRules (rules_ingress n) (rules_egress n ++ [rule])
  else mkNAclRules (rules_ingress n ++ [rule]) (rules_egress n).

(** A row of a list panel: a rule, or the [HORIZONTAL_LINE] placeholder. *)
Inductive ListRow : Type :=
| RuleRow (r : Rule)
| HORIZONTAL_LINE.

(** [sorted(rules, key=lambda rule: rule[0])]. *)
Definition sort_rules (rules : list Rule) : list Rule :=
  py_sorted (fun a b => py_cmp (rule_number a) (rule_number b)) rules.

(** The rows [NAclResource.render_xml] hands to the list panel. *)
Definition nacl_rows (n : NAclRules) : list ListRow :=
  map RuleRow (sort_rules (rules_egress n))
  ++ [HORIZONTAL_LINE]
  ++ map RuleRow (sort_rules (rules_ingress n)).

Definition nacl_widths : list Z := [120; 70; 70; 210; 70].

(** The rectangle of the list panel of an ACL whose icon is at [x]: its
    left edge is [int((x - VPC_GUTTER_DIM) * 3.5) - int(1.5 * VPC_GUTTER_DIM)]
    and its top is [padding].  The product with 3.5 is computed in
    floating point and then truncated; [int_mul_3_5 k] stands for
    [int(k * 3.5)].  The second term is the constant 1050, which the
    floating-point product gives exactly. *)
Definition NAcl_list_rect (line_height : Z) (int_mul_3_5 : Z -> Z)
           (n : NAclRules) (x : Z) : Rect :=
  fst (DiagramList_render_xml line_height (List.length (nacl_rows n)) nacl_widths
         (int_mul_3_5 (x - VPC_GUTTER_DIM) - Z.quot (3 * VPC_GUTTER_DIM) 2)
         PADDING).

(** The list panels drawn by the loop over [nacl_list]. *)
Fixpoint place_nacl_lists (line_height : Z) (int_mul_3_5 : Z -> Z) (nacl_x : Z)
         (l : list NAclRules) : list Rect :=
  match l with
  | [] => []
  | n :: rest =>
      NAcl_list_rect line_height int_mul_3_5 n nacl_x
      :: place_nacl_lists line_height int_mul_3_5 (nacl_x + RESOURCE_DISTRIBUTION) rest
  end.

(** [int(k * 3.5)] where the floating-point product is exact: the
    integer [k * 7 / 2], truncated towards zero. *)
Definition exact_mul_3_5 (k : Z) : Z := Z.quot (k * 7) 2.

(** [int_mul_3_5] is the exact product on every integer of magnitude
    at most [2 ^ 50]: there [k] and [k * 7 / 2] have at most 53
    significant bits, so neither the conversion of [k] nor the product
    is rounded. *)
Definition exact_to_2_50 (int_mul_3_5 : Z -> Z) : Prop :=
  forall k, Z.abs k <= 2 ^ 50 -> int_mul_3_5 k = exact_mul_3_5 k.

(** *** The lanes of a list panel *)

(** The loop of [DiagramList.render_xml] over [range(len(self.fields))]:
    lane [f] is [col_widths[f]] wide and starts where the previous one
    ends.  [None] is the [IndexError] of a missing width. *)
Fixpoint create_lanes (todo f : nat) (lane_x lane_y lane_h : Z)
         (col_widths : list Z) : option (list Rect) :=
  match todo with
  | O => Some []
  | S todo' =>
      match nth_error col_widths f with
      | None => None
      | Some w =>
          option_map (cons (mkRect lane_x lane_y w lane_h))
                     (create_lanes todo' (S f) (lane_x + w) lane_y lane_h col_widths)
      end
  end.

Definition DiagramList_lanes (line_height : Z) (rows : nat)
           (fields : list string) (col_widths : list Z) : option (list Rect) :=
  let height := DIAGRAM_HEADER_SPACING + line_height * Z.of_nat rows in
  create_lanes (List.length fields) 0 0 line_height (height - line_height) col_widths.

(** The rectangles stand side by side from [x0] to [x1] without a gap. *)
Fixpoint tiles (x0 : Z) (l : list Rect) (x1 : Z) : Prop :=
  match l with
  | [] => x0 = x1
  | r :: rest => rx r = x0 /\ tiles (x0 + rw r) rest x1
  end.

(** *** RegionResource *)

Record RegionResource : Type := mkRegion {
  region_name : string;
  region_width : Z;
  region_height : Z;
  region_vpc : VpcResource
}.

(** [get_dimensions] sizes the network, which may change the zones. *)
Definition Region_get_dimensions (r : RegionResource) (region_height_override : Z)
  : (Z * Z) * RegionResource :=
  let '((vpc_width, vpc_height), v) := Vpc_get_dimensions (region_vpc r) in
  ((vpc_width + 2 * PADDING,
    Z.max vpc_height region_height_override + 2 * PADDING),
   mkRegion (region_name r) (region_width r) (region_height r) v).

Record RegionBox : Type := mkRegionBox {
  rb_rect : Rect;
  rb_vpc : VpcBox
}.

(** [RegionResource.render_xml]: the box of the region, the value the
    call returns ([x + self.height]) and the region with the size it has
    stored. *)
Definition Region_render_xml (cols line_height : Z) (int_div_1_3 : Z -> Z)
           (py_set : list string -> list string)
           (r : RegionResource) (x y region_height_override : Z)
  : Res (RegionBox * Z * RegionResource) :=
  let '((width, height), r) := Region_get_dimensions r region_height_override in
  let r := mkRegion (region_name r) width height (region_vpc r) in
  vb <- Vpc_render_xml cols line_height int_div_1_3 py_set (region_vpc r)
                       (x + PADDING) (y + PADDING) (height - 2 * PADDING) ;;
  Ok (mkRegionBox (mkRect x y width height) vb, x + height, r).

(** *** The frame and the outer resources of [visualize_vpc] *)

Record VpnGatewayResource : Type := mkVpnGw {
  vpn_gw_id : string;
  vpn_gw_name : string;
  vpn : string
}.

(** Peering connections, internet gateways, endpoints and egress-only
    gateways each draw one icon. *)
Definition Icon_render_xml (id : string) (x y : Z) : list Rect :=
  [DiagramObject_render_xml x y].

(** A VPN gateway draws its icon and, when it has a connection, the
    icon of the connection three paddings to the right. *)
Definition VpnGateway_render_xml (g : VpnGatewayResource) (x y : Z) : list Rect :=
  DiagramObject_render_xml x y
  :: (if String.eqb (vpn g) "" then []
      else [DiagramObject_render_xml (x + 3 * PADDING) y]).

(** One of the loops that draw a list of resources below one another:
    the icons drawn and the [y] the next loop starts from. *)
Fixpoint stack_down (A : Type) (render : A -> Z -> Z -> list Rect)
         (x y : Z) (l : list A) : list Rect * Z :=
  match l with
  | [] => ([], y)
  | a :: rest =>
      let (rs, y') := stack_down render x (y + RESOURCE_DISTRIBUTION) rest in
      (render a x y ++ rs, y')
  end.

Record OuterResources : Type := mkOuter {
  peering_resources : list string;
  igw_resources : list string;
  endpoints_resources : list string;
  vpn_gw_resources : list VpnGatewayResource;
  egress_gateway_resources : list string
}.

Definition external_resource_space (o : OuterResources) : Z :=
  RESOURCE_DISTRIBUTION +
  RESOURCE_DISTRIBUTION *
  (Z.of_nat (List.length (peering_resources o)) +
   Z.of_nat (List.length (igw_resources o)) +
   Z.of_nat (List.length (endpoints_resources o)) +
   Z.of_nat (List.length (vpn_gw_resources o)) +
   Z.of_nat (List.length (egress_gateway_resources o))).

(** The five loops over the resources outside the network, started at
    [peering_x]: each one goes on where the previous one stopped. *)
Definition outer_column (peering_x : Z) (o : OuterResources) : list Rect :=
  let peering_y := VPC_GUTTER_DIM + PADDING + RESOURCE_DISTRIBUTION in
  let (peerings, igw_y) := stack_down Icon_render_xml peering_x peering_y
                                      (peering_resources o) in
  let (igws, ep_y) := stack_down Icon_render_xml peering_x igw_y (igw_resources o) in
  let (eps, vpn_y) := stack_down Icon_render_xml peering_x ep_y (endpoints_resources o) in
  let (vpns, egress_gw_y) := stack_down VpnGateway_render_xml peering_x vpn_y
                                        (vpn_gw_resources o) in
  let (egws, _) := stack_down Icon_render_xml peering_x egress_gw_y
                              (egress_gateway_resources o) in
  peerings ++ igws ++ eps ++ vpns ++ egws.

(** The account box and the region as the driver draws them: the
    account is sized from the region and drawn at [(-PADDING, 0)], the
    region at [(VPC_GUTTER_DIM, VPC_GUTTER_DIM)]. *)
Definition draw_frame (cols line_height : Z) (int_div_1_3 : Z -> Z)
           (py_set : list string -> list string)
           (region : RegionResource) (o : OuterResources)
  : Res (Rect * RegionBox) :=
  let '(region_dimensions, region) :=
    Region_get_dimensions region (external_resource_space o) in
  let region_bottom_y := snd region_dimensions + VPC_GUTTER_DIM in
  let region_right_x := fst region_dimensions + VPC_GUTTER_DIM in
  let account :=
    mkRect (- PADDING) 0
           (region_right_x + VPC_GUTTER_DIM + RESOURCE_DISTRIBUTION + PADDING)
           (region_bottom_y + PADDING) in
  '(rb, _, _) <- Region_render_xml cols line_height int_div_1_3 py_set region
                                  VPC_GUTTER_DIM VPC_GUTTER_DIM
                                  (external_resource_space o) ;;
  Ok (account, rb).

(** The loop over [peer_vpc_resources]: the placeholders fill rows of
    [VPC_PEER_COLS] boxes from [original_x] on.  A network is drawn with
    the default height override. *)
Fixpoint place_peer_vpcs (cols line_height : Z) (int_div_1_3 : Z -> Z)
         (py_set : list string -> list string)
         (VPC_PEER_COLS original_x : Z) (peer_empty_dim : Z * Z)
         (peer_vpc_x peer_vpc_y count_right : Z)
         (l : list VpcResource) : Res (list VpcBox) :=
  match l with
  | [] => Ok []
  | peer_vpc :: rest =>
      let '(peer_vpc_x, peer_vpc_y, count_right) :=
        if count_right =? VPC_PEER_COLS
        then (original_x, peer_vpc_y + snd peer_empty_dim + PADDING, 0)
        else (peer_vpc_x, peer_vpc_y, count_right) in
      b <- Vpc_render_xml cols line_height int_div_1_3 py_set peer_vpc
                          peer_vpc_x peer_vpc_y 0 ;;
      bs <- place_peer_vpcs cols line_height int_div_1_3 py_set
                            VPC_PEER_COLS original_x peer_empty_dim
                            (peer_vpc_x + fst peer_empty_dim + PADDING) peer_vpc_y
                            (count_right + 1) rest ;;
      Ok (b :: bs)
  end.

Definition peer_vpc_grid (cols line_height : Z) (int_div_1_3 : Z -> Z)
           (py_set : list string -> list string)
           (VPC_PEER_COLS original_peer_vpc_spacing : Z)
           (peer_vpc_resources : list VpcResource) : Res (list VpcBox) :=
  let peer_vpc_y := VPC_GUTTER_DIM + PADDING + RESOURCE_DISTRIBUTION - 20 in
  let '(peer_empty_dim, peer_vpc_resources) :=
    match peer_vpc_resources with
    | [] => ((0, 0), [])
    | first :: rest =>
        let '(dim, first) := Vpc_get_dimensions first in (dim, first :: rest)
    end in
  place_peer_vpcs cols line_height int_div_1_3 py_set VPC_PEER_COLS
                  original_peer_vpc_spacing peer_empty_dim
                  original_peer_vpc_spacing peer_vpc_y 0 peer_vpc_resources.

(** A column of icons between two heights: none overlaps another, and
    each leaves 130 free above the height where the next column starts. *)
Definition icon_column (y0 y1 : Z) (rs : list Rect) : Prop :=
  pairwise_disjoint rs /\
  Forall (fun r => y0 <= ry r /\ ry r + rh r + 130 <= y1) rs.

(** *** Flow logs and direct connect gateways *)

(** [FlowLogsResource.render_xml] draws an icon of 30 x 30. *)
Definition FlowLogs_render_xml (x y : Z) : Rect := mkRect x y 30 30.

(** The loop over [flow_logs_resources]: icons side by side. *)
Fixpoint place_flow_logs (fl_x fl_y : Z) (l : list string) : list Rect :=
  match l with
  | [] => []
  | _ :: rest =>
      FlowLogs_render_xml fl_x fl_y
      :: place_flow_logs (fl_x + RESOURCE_DISTRIBUTION) fl_y rest
  end.

Definition flow_logs_row (flow_logs_resources : list string) : list Rect :=
  place_flow_logs (VPC_GUTTER_DIM + RESOURCE_DISTRIBUTION + PADDING)
                  (VPC_GUTTER_DIM + PADDING - 30) flow_logs_resources.

Record DirectConnectResource : Type := mkDirectConnect {
  dc_id : string;
  dc_name : string;
  dc_associations : list string
}.

(** [DirectConnectResource.render_xml] draws an icon of 50 x 60. *)
Definition DirectConnect_render_xml (dc : DirectConnectResource) (x y : Z)
  : list Rect :=
  [mkRect x y 50 60].

(** Where the column of the peered networks starts. *)
Definition original_peer_vpc_spacing (ADD_ROUTE_TABLE_CONNECTIONS : bool)
           (peering_x : Z) : Z :=
  let original_peer_vpc_spacing := peering_x + VPC_GUTTER_DIM in
  if ADD_ROUTE_TABLE_CONNECTIONS
  then original_peer_vpc_spacing + VPC_GUTTER_DIM
  else original_peer_vpc_spacing.

(** The value of [vpn_y] when the loop over [vpn_gw_resources] has
    ended. *)
Definition outer_vpn_y (peering_x : Z) (o : OuterResources) : Z :=
  let peering_y := VPC_GUTTER_DIM + PADDING + RESOURCE_DISTRIBUTION in
  let (_, igw_y) := stack_down Icon_render_xml peering_x peering_y
                               (peering_resources o) in
  let (_, ep_y) := stack_down Icon_render_xml peering_x igw_y (igw_resources o) in
  let (_, vpn_y) := stack_down Icon_render_xml peering_x ep_y (endpoints_resources o) in
  snd (stack_down VpnGateway_render_xml peering_x vpn_y (vpn_gw_resources o)).

(** The loop over [direct_connect_resources]: it starts in the column
    of the peered networks, one step above where the VPN gateways
    ended. *)
Definition direct_connect_column (ADD_ROUTE_TABLE_CONNECTIONS : bool)
           (peering_x : Z) (o : OuterResources)
           (direct_connect_resources : list DirectConnectResource) : list Rect :=
  let dc_x := original_peer_vpc_spacing ADD_ROUTE_TABLE_CONNECTIONS peering_x in
  let dc_y := outer_vpn_y peering_x o - RESOURCE_DISTRIBUTION in
  fst (stack_down DirectConnect_render_xml dc_x dc_y direct_connect_resources).

(** * Properties *)

Ltac unfold_consts :=
  unfold RESOURCE_DISTRIBUTION, PADDING, SUBNET_MIN_W, SUBNET_MIN_H,
         VPC_MIN_W, VPC_MIN_H, X_DIRECTION, Y_DIRECTION in *.

(** Closes the arithmetic side conditions on rectangles. *)
Ltac geom :=
  cbn [rx ry rw rh] in *; unfold_consts; repeat split; intros; subst;
  try congruence; try tauto; try lia.

(** ** RouteGroup *)

Module RouteGroupFacts.
Import RouteGroup.

Lemma get_routes_length g origins :
  List.length (fst (get_routes g origins)) = List.length origins.
Proof.
  revert g; induction origins as [|[ox oy] rest IH]; intros g; simpl.
  - reflexivity.
  - specialize (IH (advance g)).
    destruct (get_routes (advance g) rest) as [rs g2]; simpl in *.
    now rewrite IH.
Qed.

Lemma get_routes_cons g ox oy rest :
  fst (get_routes g ((ox, oy) :: rest)) =
  complex_route g ox oy :: fst (get_routes (advance g) rest).
Proof.
  simpl. now destruct (get_routes (advance g) rest).
Qed.

Lemma first_x_X g ox oy :
  starting_direction g = X_DIRECTION ->
  first_x (complex_route g ox oy) = Some (current_x g).
Proof.
  intros H. unfold complex_route. rewrite H. reflexivity.
Qed.

(** The j-th path of a generator on the X axis starts at
    [current_x + j * spacing], as long as no earlier call found the
    coordinate equal to -1. *)
Lemma nth_first_x g origins j :
  starting_direction g = X_DIRECTION ->
  (j < List.length origins)%nat ->
  (forall i, 0 <= i < Z.of_nat j -> current_x g + i * bundle_spacing g <> -1) ->
  nth_error (map first_x (fst (get_routes g origins))) j =
  Some (Some (current_x g + Z.of_nat j * bundle_spacing g)).
Proof.
  revert g j; induction origins as [|[ox oy] rest IH]; intros g j Hdir Hj Hne.
  - simpl in Hj; lia.
  - rewrite get_routes_cons. destruct j as [|j]; cbn [map nth_error].
    + rewrite first_x_X by assumption. do 2 f_equal. simpl. lia.
    + cbn [List.length] in Hj.
      assert (H0 : current_x g <> -1).
      { specialize (Hne 0). rewrite Z.mul_0_l, Z.add_0_r in Hne. apply Hne. lia. }
      assert (Hx : current_x (advance g) = current_x g + bundle_spacing g).
      { unfold advance; cbn [current_x].
        apply Z.eqb_neq in H0. now rewrite H0. }
      assert (Hs : bundle_spacing (advance g) = bundle_spacing g) by reflexivity.
      rewrite IH.
      * rewrite Hx, Hs. do 2 f_equal. rewrite Nat2Z.inj_succ. lia.
      * exact Hdir.
      * lia.
      * intros i Hi. rewrite Hx, Hs.
        specialize (Hne (i + 1)).
        replace (current_x g + bundle_spacing g + i * bundle_spacing g)
          with (current_x g + (i + 1) * bundle_spacing g) by lia.
        apply Hne. lia.
Qed.



End RouteGroupFacts.

(** C3 (as amended).  A generator on the X axis, started at [x0 <> -1]
    with a positive spacing [s], is called once per origin.  As long as
    the stacked coordinate is not -1 when a call that is followed by
    another one is made ([x0 + i * s <> -1] for every such call [i]),
    there are as many paths as calls, the first waypoint of path [j] has
    x equal to [x0 + j * s], and from each path to the next that x grows
    by exactly [s], hence strictly. *)
Theorem route_group_staggering :
  forall (x0 y0 s brk : Z) (origins : list (Z * Z)),
    x0 <> -1 ->
    0 < s ->
    (forall i, 0 <= i -> i + 1 < Z.of_nat (List.length origins) -> x0 + i * s <> -1) ->
    let g := fst (RouteGroup.init x0 y0 X_DIRECTION s brk) in
    let xs := map RouteGroup.first_x (fst (RouteGroup.get_routes g origins)) in
    List.length xs = List.length origins /\
    (forall j, (j < List.length origins)%nat ->
               nth_error xs j = Some (Some (x0 + Z.of_nat j * s))) /\
    (forall j, (S j < List.length origins)%nat ->
               exists a b, nth_error xs j = Some (Some a) /\
                           nth_error xs (S j) = Some (Some b) /\
                           b = a + s /\ a < b).
Proof.
  intros x0 y0 s brk origins Hx0 Hs Hne g xs.
  assert (Hnth : forall j, (j < List.length origins)%nat ->
                           nth_error xs j = Some (Some (x0 + Z.of_nat j * s))).
  { intros j Hj. subst xs g.
    rewrite RouteGroupFacts.nth_first_x; simpl; trivial.
    intros i Hi. apply Hne; lia. }
  split; [|split].
  - subst xs. rewrite length_map. apply RouteGroupFacts.get_routes_length.
  - exact Hnth.
  - intros j Hj.
    exists (x0 + Z.of_nat j * s), (x0 + Z.of_nat (S j) * s).
    repeat split.
    + apply Hnth; lia.
    + apply Hnth; lia.
    + lia.
    + lia.
Qed.

Lemma route_group_staggering_witness :
  let origins := [(30, 250); (30, 430); (30, 610)] in
  let g := fst (RouteGroup.init 580 (-1) X_DIRECTION 10 (-1)) in
  let xs := map RouteGroup.first_x (fst (RouteGroup.get_routes g origins)) in
  List.length xs = List.length origins /\
  (forall j, (j < List.length origins)%nat ->
             nth_error xs j = Some (Some (580 + Z.of_nat j * 10))) /\
  (forall j, (S j < List.length origins)%nat ->
             exists a b, nth_error xs j = Some (Some a) /\
                         nth_error xs (S j) = Some (Some b) /\
                         b = a + 10 /\ a < b).
Proof.
  apply (@route_group_staggering 580 (-1) 10 (-1)
           [(30, 250); (30, 430); (30, 610)]).
  - lia.
  - lia.
  - intros i Hi _. lia.
Defined.

(** C3 (as stated) fails when the stacked coordinate reaches -1: started
    at -11 with spacing 10, the second and the third path both start at
    x = -1. *)
Lemma route_group_staggering_counterexample :
  let g := fst (RouteGroup.init (-11) (-1) X_DIRECTION 10 (-1)) in
  let xs := map RouteGroup.first_x
                (fst (RouteGroup.get_routes g [(0, 0); (0, 0); (0, 0)])) in
  -11 <> -1 /\
  xs = [Some (-11); Some (-1); Some (-1)] /\
  ~ (forall j a b, nth_error xs j = Some (Some a) ->
                   nth_error xs (S j) = Some (Some b) -> b = a + 10).
Proof.
  cbv zeta. split; [lia|]. split; [reflexivity|].
  intros H. specialize (H 1%nat (-1) (-1) eq_refl eq_refl). lia.
Qed.



(** ** Subnet sizing *)

(** C10.  Whatever NAT gateways are registered, a subnet is
    [SUBNET_MIN_W] = 340 wide, and its height is the larger of
    [SUBNET_MIN_H] = 80 and [count * RESOURCE_DISTRIBUTION - PADDING]. *)
Theorem subnet_dimensions :
  forall s : SubnetResource,
    Subnet_get_dimensions s =
    (340, Z.max 80 (Z.of_nat (List.length (ng_list s)) * 180 - 60))
    /\ SUBNET_MIN_W = 340 /\ SUBNET_MIN_H = 80
    /\ RESOURCE_DISTRIBUTION = 180 /\ PADDING = 60.
Proof.
  intros s. unfold Subnet_get_dimensions. unfold_consts.
  repeat split.
  f_equal.
  replace (60 * 3) with 180 by reflexivity.
  destruct (Z.gtb_spec (Z.of_nat (List.length (ng_list s)) * 180 - 60) 80); lia.
Qed.

(** ** Route ordering *)

Lemma same_int_sym s t : same_int s t -> same_int t s.
Proof. intros [k [Hs Ht]]. exists k. split; assumption. Qed.

Lemma Forall2_same_int_sym p q :
  Forall2 same_int p q -> Forall2 same_int q p.
Proof.
  induction 1; constructor; auto using same_int_sym.
Qed.

(** Fields that agree are skipped: the comparison is decided by what
    follows them. *)
Lemma cmp_cidr_common_prefix p q l1 l2 :
  Forall2 same_int p q ->
  cmp_cidr (p ++ l1) (q ++ l2) = cmp_cidr l1 l2.
Proof.
  induction 1 as [|s t p q [k [Hs Ht]] _ IH]; simpl.
  - reflexivity.
  - rewrite Hs, Ht, Z.ltb_irrefl.
    rewrite Z.gtb_ltb, Z.ltb_irrefl.
    exact IH.
Qed.

Lemma cmp_cidr_nil_r l : cmp_cidr l [] = 0.
Proof. destruct l; reflexivity. Qed.

(** C7 (as amended).  Whenever the comparison arrives at a pair of
    fields, every earlier pair having parsed to the same integer, and
    one field of the pair does not parse as an integer while its peer
    does, the field that does not parse is ordered before its peer,
    whichever side it stands on; against a list that is exhausted at
    that field the comparison reports equality. *)
Theorem cmp_cidr_non_numeric :
  forall (p q : list string) (a b : string) (r1 r2 : list string) (n : Z),
    Forall2 same_int p q ->
    py_int a = None ->
    py_int b = Some n ->
    cmp_cidr (p ++ a :: r1) (q ++ b :: r2) = -1 /\
    cmp_cidr (q ++ b :: r2) (p ++ a :: r1) = 1 /\
    cmp_cidr (p ++ a :: r1) q = 0 /\
    cmp_cidr q (p ++ a :: r1) = 0.
Proof.
  intros p q a b r1 r2 n Hpq Ha Hb.
  pose proof (Forall2_same_int_sym Hpq) as Hqp.
  repeat split.
  - rewrite cmp_cidr_common_prefix by assumption. simpl. now rewrite Ha.
  - rewrite cmp_cidr_common_prefix by assumption. simpl. now rewrite Hb, Ha.
  - rewrite <- (app_nil_r q) at 1.
    rewrite cmp_cidr_common_prefix by assumption. apply cmp_cidr_nil_r.
  - rewrite <- (app_nil_r q) at 1.
    rewrite cmp_cidr_common_prefix by assumption. reflexivity.
Qed.

Lemma cmp_cidr_non_numeric_witness :
  let p := ["10"; "0"]%string in
  let r := ["0/16"]%string in
  cmp_cidr (p ++ "x"%string :: r) (p ++ "7"%string :: r) = -1 /\
  cmp_cidr (p ++ "7"%string :: r) (p ++ "x"%string :: r) = 1 /\
  cmp_cidr (p ++ "x"%string :: r) p = 0 /\
  cmp_cidr p (p ++ "x"%string :: r) = 0.
Proof.
  apply (@cmp_cidr_non_numeric ["10"; "0"] ["10"; "0"] "x" "7" ["0/16"] ["0/16"] 7)%string.
  - repeat constructor.
    + exists 10. split; reflexivity.
    + exists 0. split; reflexivity.
  - reflexivity.
  - reflexivity.
Defined.

(** C7 (as stated) fails: the field ["x"] does not parse, its peer
    ["10"] does, and ["x"] is ordered before it, not after; against the
    exhausted list it is reported equal, not smaller. *)
Lemma cmp_cidr_non_numeric_counterexample :
  py_int "x" = None /\ py_int "10" = Some 10 /\
  cmp_cidr ["x"%string] ["10"%string] = -1 /\
  cmp_cidr ["10"%string] ["x"%string] = 1 /\
  ~ (cmp_cidr ["x"%string] ["10"%string] > 0) /\
  ~ (cmp_cidr ["x"%string] [] < 0).
Proof.
  repeat split; try reflexivity; vm_compute; intros H; discriminate H.
Qed.

(** A list with the same elements as three distinct ones is one of
    their six arrangements. *)
Lemma Permutation_three (A : Type) (a b c : A) (l : list A) :
  a <> b -> a <> c -> b <> c ->
  Permutation l [a; b; c] ->
  In l [[a; b; c]; [a; c; b]; [b; a; c]; [b; c; a]; [c; a; b]; [c; b; a]].
Proof.
  intros Hab Hac Hbc HP.
  assert (HN : NoDup l).
  { apply Permutation_NoDup with (l := [a; b; c]).
    - now apply Permutation_sym.
    - repeat constructor; simpl; intuition congruence. }
  pose proof (Permutation_length HP) as HL.
  destruct l as [|x [|y [|z [|? ?]]]]; try discriminate HL.
  assert (Hx : In x [a; b; c]) by (apply (Permutation_in _ HP); simpl; auto).
  assert (Hy : In y [a; b; c]) by (apply (Permutation_in _ HP); simpl; auto).
  assert (Hz : In z [a; b; c]) by (apply (Permutation_in _ HP); simpl; auto).
  inversion HN as [|? ? Hnx HN1]; subst.
  inversion HN1 as [|? ? Hny HN2]; subst.
  simpl in Hnx, Hny, Hx, Hy, Hz.
  destruct Hx as [<-|[<-|[<-|[]]]];
    destruct Hy as [<-|[<-|[<-|[]]]];
    destruct Hz as [<-|[<-|[<-|[]]]];
    simpl; tauto.
Qed.

Lemma local_steps_unchanged idxs :
  forall l,
    (forall i x, In i idxs -> nth_error l i = Some x -> gw_id x <> "local"%string) ->
    fold_left local_step idxs l = l.
Proof.
  induction idxs as [|i rest IH]; intros l H.
  - reflexivity.
  - cbn [fold_left].
    assert (Hi : local_step l i = l).
    { unfold local_step. destruct (nth_error l i) as [x|] eqn:E; [|reflexivity].
      assert (Hx : gw_id x <> "local"%string) by (apply (H i x); [now left|exact E]).
      apply String.eqb_neq in Hx. now rewrite Hx. }
    rewrite Hi. apply IH. intros j x Hj. apply H. now right.
Qed.

(** The only local route of a list ends up in front of the others,
    which keep their order. *)
Lemma local_to_front_single pre r post :
  gw_id r = "local"%string ->
  Forall (fun x => gw_id x <> "local"%string) (pre ++ post) ->
  local_to_front (pre ++ r :: post) = r :: pre ++ post.
Proof.
  intros Hr Hall. rewrite Forall_forall in Hall.
  set (l := pre ++ r :: post).
  set (k := List.length pre).
  assert (Hbefore : fold_left local_step (seq 0 k) l = l).
  { apply local_steps_unchanged.
    intros i x Hi Hx. apply in_seq in Hi. subst l k.
    rewrite nth_error_app1 in Hx by lia.
    apply Hall, in_or_app. left. eapply nth_error_In, Hx. }
  assert (Hk : local_step l k = r :: pre ++ post).
  { unfold local_step. subst l k.
    rewrite nth_error_app2 by lia. rewrite Nat.sub_diag. cbn [nth_error].
    rewrite Hr, String.eqb_refl.
    unfold pop_at. f_equal.
    rewrite firstn_app, Nat.sub_diag, firstn_all, firstn_O, app_nil_r.
    rewrite skipn_app, skipn_all2 by lia.
    replace (S (List.length pre) - List.length pre)%nat with 1%nat by lia.
    reflexivity. }
  unfold local_to_front. fold l.
  replace (List.length l) with (k + (1 + List.length post))%nat
    by (subst l k; rewrite length_app; cbn [List.length]; lia).
  rewrite !seq_app, !fold_left_app. cbn [seq fold_left].
  rewrite Hbefore. cbn [Nat.add]. rewrite Hk.
  apply local_steps_unchanged.
  intros i x Hi Hx. apply in_seq in Hi.
  destruct i as [|i]; [lia|]. cbn [nth_error] in Hx.
  apply Hall. eapply nth_error_In, Hx.
Qed.

(** C6.  A route table that holds exactly the routes to 10.0.0.0/16,
    to 0.0.0.0/0 through the gateway ['local'] and to 192.168.0.0/24, in
    whatever order they were added, lists them as 0.0.0.0/0,
    10.0.0.0/16, 192.168.0.0/24.  In general the one route whose
    gateway is ['local'] comes first, wherever the CIDR order had put
    it, and the other routes keep their CIDR order. *)
Theorem sort_routes_example :
  (forall (rt : RouteTableResource) (a b c : Route),
      dest_cidr a = "10.0.0.0/16"%string ->
      dest_cidr b = "0.0.0.0/0"%string ->
      dest_cidr c = "192.168.0.0/24"%string ->
      gw_id a <> "local"%string ->
      gw_id b = "local"%string ->
      gw_id c <> "local"%string ->
      Permutation (routes rt) [a; b; c] ->
      sort_routes rt = [b; a; c]) /\
  (forall (rt : RouteTableResource) (pre post : list Route) (r : Route),
      py_sorted cmp_route (routes rt) = pre ++ r :: post ->
      gw_id r = "local"%string ->
      Forall (fun x => gw_id x <> "local"%string) (pre ++ post) ->
      sort_routes rt = r :: pre ++ post).
Proof.
  split.
  - intros rt a b c Ha Hb Hc Ga Gb Gc HP.
    apply Permutation_three in HP; try (intros E; subst; congruence).
    assert (Hab : cmp_route a b = 1) by (unfold cmp_route; rewrite Ha, Hb; reflexivity).
    assert (Hac : cmp_route a c = -1) by (unfold cmp_route; rewrite Ha, Hc; reflexivity).
    assert (Hba : cmp_route b a = -1) by (unfold cmp_route; rewrite Ha, Hb; reflexivity).
    assert (Hbc : cmp_route b c = -1) by (unfold cmp_route; rewrite Hb, Hc; reflexivity).
    assert (Hca : cmp_route c a = 1) by (unfold cmp_route; rewrite Ha, Hc; reflexivity).
    assert (Hcb : cmp_route c b = 1) by (unfold cmp_route; rewrite Hb, Hc; reflexivity).
    assert (Hs : py_sorted cmp_route (routes rt) = [] ++ b :: [a; c]).
    { simpl in HP.
      destruct HP as [E|[E|[E|[E|[E|[E|[]]]]]]]; rewrite <- E;
        unfold py_sorted; simpl;
        repeat (rewrite ?Hab, ?Hac, ?Hba, ?Hbc, ?Hca, ?Hcb; simpl);
        reflexivity. }
    unfold sort_routes. rewrite Hs.
    rewrite local_to_front_single; [reflexivity|exact Gb|].
    repeat constructor; assumption.
  - intros rt pre post r Hs Hr Hall.
    unfold sort_routes. rewrite Hs. now apply local_to_front_single.
Qed.

Lemma sort_routes_example_witness :
  sort_routes
    (mkRT "rtb-1" []
          [mkRoute "10.0.0.0/16" "active" "pcx-1" "Create Route";
           mkRoute "0.0.0.0/0" "active" "local" "Create Route";
           mkRoute "192.168.0.0/24" "active" "igw-1" "Create Route"]
          "" [])
  = [mkRoute "0.0.0.0/0" "active" "local" "Create Route";
     mkRoute "10.0.0.0/16" "active" "pcx-1" "Create Route";
     mkRoute "192.168.0.0/24" "active" "igw-1" "Create Route"]
  /\
  sort_routes
    (mkRT "rtb-2" []
          [mkRoute "192.168.0.0/24" "active" "local" "Create Table";
           mkRoute "0.0.0.0/0" "active" "igw-1" "Create Route";
           mkRoute "10.0.0.0/16" "active" "pcx-1" "Create Route"]
          "" [])
  = [mkRoute "192.168.0.0/24" "active" "local" "Create Table";
     mkRoute "0.0.0.0/0" "active" "igw-1" "Create Route";
     mkRoute "10.0.0.0/16" "active" "pcx-1" "Create Route"].
Proof.
  destruct sort_routes_example as [Hexample Hfront].
  split.
  - apply (Hexample _
             (mkRoute "10.0.0.0/16" "active" "pcx-1" "Create Route")
             (mkRoute "0.0.0.0/0" "active" "local" "Create Route")
             (mkRoute "192.168.0.0/24" "active" "igw-1" "Create Route")).
    + reflexivity.
    + reflexivity.
    + reflexivity.
    + simpl. discriminate.
    + reflexivity.
    + simpl. discriminate.
    + simpl. apply Permutation_refl.
  - apply (Hfront _
             [mkRoute "0.0.0.0/0" "active" "igw-1" "Create Route";
              mkRoute "10.0.0.0/16" "active" "pcx-1" "Create Route"]
             []
             (mkRoute "192.168.0.0/24" "active" "local" "Create Table")).
    + reflexivity.
    + reflexivity.
    + repeat constructor; simpl; discriminate.
Defined.

(** ** Column pre-pass *)

Lemma py_ceil_div_pos n c :
  0 < c ->
  exists b, py_ceil_div n c = Ok b /\ (b - 1) * c < n <= b * c.
Proof.
  intros Hc. unfold py_ceil_div.
  destruct (Z.eqb_spec c 0) as [E|_]; [lia|].
  eexists; split; [reflexivity|].
  pose proof (Z.div_mod (- n) c ltac:(lia)) as Hdm.
  pose proof (Z.mod_pos_bound (- n) c Hc) as Hb.
  nia.
Qed.

(** The loop numbers the ACLs from [i] on and gives each the quotient
    of its number by [div]. *)
Lemma assign_from_spec l :
  forall i div,
    div <> 0 ->
    exists out,
      assign_from i div l = Ok out /\
      List.length out = List.length l /\
      forall k nacl,
        nth_error out k = Some nacl ->
        exists orig,
          nth_error l k = Some orig /\
          nacl = add_col_suggestion orig ((i + Z.of_nat k) / div).
Proof.
  induction l as [|x rest IH]; intros i div Hdiv.
  - exists []. repeat split. intros [|k] nacl H; discriminate H.
  - destruct (IH (i + 1) div Hdiv) as [out' [Hout [Hlen Hnth]]].
    exists (add_col_suggestion x (i / div) :: out').
    split; [|split].
    + cbn [assign_from]. unfold py_div.
      destruct (Z.eqb_spec div 0) as [E|_]; [contradiction|].
      cbn [bind]. rewrite Hout. reflexivity.
    + simpl. now rewrite Hlen.
    + intros [|k] nacl H.
      * injection H as <-. exists x. split; [reflexivity|].
        simpl. now rewrite Z.add_0_r.
      * cbn [nth_error] in H. destruct (Hnth k nacl H) as [orig [Ho Hn]].
        exists orig. split; [exact Ho|].
        rewrite Hn. do 2 f_equal. rewrite Nat2Z.inj_succ. lia.
Qed.

(** C8.  With [c > 0] desired columns and [n] ACLs the bucket size [b]
    is the ceiling of [n / c] (the integer with [(b-1)*c < n <= b*c]),
    and the ACL at position [i] keeps its identity and receives the
    column [floor (i / b)] (the integer [k] with [k*b <= i < (k+1)*b]),
    which is a valid column index.  For 7 ACLs and 3 columns the bucket
    size is 3 and the columns are 0,0,0,1,1,1,2. *)
Theorem column_bucketing :
  forall (c : Z) (nacl_resources : list NAclResource),
    0 < c ->
    let n := Z.of_nat (List.length nacl_resources) in
    exists (b : Z) (out : list NAclResource),
      py_ceil_div n c = Ok b /\
      (b - 1) * c < n <= b * c /\
      assign_col_suggestions c nacl_resources = Ok out /\
      List.length out = List.length nacl_resources /\
      (forall i nacl,
          nth_error out i = Some nacl ->
          let k := col_suggestion nacl in
          k = Z.of_nat i / b /\
          k * b <= Z.of_nat i < (k + 1) * b /\
          0 <= k < c /\
          exists orig, nth_error nacl_resources i = Some orig /\
                       nacl = add_col_suggestion orig k) /\
      (c = 3 -> n = 7 -> b = 3 /\ map col_suggestion out = [0; 0; 0; 1; 1; 1; 2]).
Proof.
  intros c l Hc n.
  destruct (py_ceil_div_pos n Hc) as [b [Hb Hbound]].
  destruct l as [|x rest].
  - exists b, []. subst n. simpl in *.
    split; [exact Hb|]. split; [exact Hbound|].
    split; [unfold assign_col_suggestions; simpl; rewrite Hb; reflexivity|].
    split; [reflexivity|]. split.
    + intros [|i] nacl Hi; discriminate Hi.
    + intros _ Hn7. discriminate Hn7.
  - assert (Hn : 0 < n) by (subst n; simpl; lia).
    assert (Hbpos : 0 < b) by nia.
    destruct (@assign_from_spec (x :: rest) 0 b ltac:(lia)) as [out [Hout [Hlen Hnth]]].
    exists b, out.
    split; [exact Hb|]. split; [exact Hbound|].
    split; [unfold assign_col_suggestions; fold n; rewrite Hb; exact Hout|].
    split; [exact Hlen|]. split.
    + intros i nacl Hi k.
      destruct (Hnth i nacl Hi) as [orig [Ho Hn']].
      assert (Hk : k = Z.of_nat i / b).
      { subst k. rewrite Hn'. unfold add_col_suggestion. cbn [col_suggestion].
        f_equal; lia. }
      assert (Hilt : Z.of_nat i < n).
      { subst n. apply Nat2Z.inj_lt. rewrite <- Hlen.
        apply nth_error_Some. congruence. }
      pose proof (Z.div_mod (Z.of_nat i) b ltac:(lia)) as Hdm.
      pose proof (Z.mod_pos_bound (Z.of_nat i) b Hbpos) as Hmb.
      rewrite <- Hk in Hdm.
      split; [exact Hk|]. split; [nia|]. split; [nia|].
      exists orig. split; [exact Ho|].
      rewrite Hn' at 1. f_equal. rewrite Hk. f_equal; lia.
    + intros Hc3 Hn7. subst c.
      assert (b = 3) by lia. subst b.
      split; [reflexivity|].
      subst n.
      destruct rest as [|x1 [|x2 [|x3 [|x4 [|x5 [|x6 [|? ?]]]]]]];
        simpl in Hn7; try lia.
      simpl in Hout. injection Hout as <-. reflexivity.
Qed.

Lemma column_bucketing_witness :
  let acl i := mkNacl i 0 "" 0 in
  let l := [acl "acl-0"; acl "acl-1"; acl "acl-2"; acl "acl-3";
            acl "acl-4"; acl "acl-5"; acl "acl-6"]%string in
  0 < 3 /\
  exists b out,
    py_ceil_div 7 3 = Ok b /\
    assign_col_suggestions 3 l = Ok out /\
    b = 3 /\ map col_suggestion out = [0; 0; 0; 1; 1; 1; 2].
Proof.
  intros acl l. split; [lia|].
  destruct (@column_bucketing 3 l ltac:(lia))
    as [b [out [Hb [_ [Hout [_ [_ H73]]]]]]].
  exists b, out.
  destruct (H73 eq_refl eq_refl) as [H3 Hcols].
  repeat split; assumption.
Defined.

(** ** Sizing *)

Lemma AZ_get_dimensions_override az w :
  AZ_get_dimensions (override_width az w) = (w, snd (AZ_get_dimensions az)).
Proof.
  unfold AZ_get_dimensions, override_width. simpl.
  destruct (fold_left _ (subnets az) (0, PADDING)) as [w0 h0].
  now destruct (fst (width_override az)).
Qed.

Lemma az_requirements_cons az l hreq wreq :
  az_requirements (az :: l) (hreq, wreq) =
  az_requirements l (hreq + snd (AZ_get_dimensions az),
                     Z.max wreq (fst (AZ_get_dimensions az) + PADDING)).
Proof.
  unfold az_requirements. simpl.
  destruct (AZ_get_dimensions az) as [w h]. simpl.
  do 2 f_equal.
  destruct (Z.gtb_spec (w + PADDING) wreq); lia.
Qed.

Lemma az_requirements_width_ge l :
  forall hreq wreq, wreq <= snd (az_requirements l (hreq, wreq)).
Proof.
  induction l as [|az l IH]; intros hreq wreq.
  - simpl. lia.
  - rewrite az_requirements_cons.
    etransitivity; [|apply IH]. lia.
Qed.

(** Once every zone is forced to the width [w], the height requirement
    is what it was and the width requirement is [w + PADDING], unless
    what was required already exceeds it. *)
Lemma az_requirements_override l w :
  forall hreq wreq wreq',
    az_requirements (map (fun az => override_width az w) l) (hreq, wreq') =
    (fst (az_requirements l (hreq, wreq)),
     match l with
     | [] => wreq'
     | _ :: _ => Z.max wreq' (w + PADDING)
     end).
Proof.
  induction l as [|az l IH]; intros hreq wreq wreq'.
  - reflexivity.
  - cbn [map]. rewrite !az_requirements_cons.
    rewrite AZ_get_dimensions_override. cbn [fst snd].
    rewrite (IH _ (Z.max wreq (fst (AZ_get_dimensions az) + PADDING))).
    f_equal. destruct l; lia.
Qed.

Lemma with_az_list_same v : with_az_list v (az_list v) = v.
Proof. now destruct v. Qed.

Lemma check_empty_override v w :
  check_empty (with_az_list v (map (fun az => override_width az w) (az_list v)))
  = check_empty v.
Proof.
  unfold check_empty, with_az_list. simpl. now destruct (az_list v).
Qed.

Lemma Vpc_get_dimensions_unfold v :
  Vpc_get_dimensions v =
  if check_empty v then ((VPC_MIN_W, VPC_MIN_H), v)
  else
    let req := az_requirements (az_list v)
                 (RESOURCE_DISTRIBUTION + 2 * PADDING, RESOURCE_DISTRIBUTION + PADDING) in
    let nreq := Z.of_nat (List.length (nacl_list v)) * RESOURCE_DISTRIBUTION in
    let rreq := Z.of_nat (List.length (rt_list v)) * RESOURCE_DISTRIBUTION in
    ((Z.max (snd req) nreq + 5 * PADDING, Z.max (fst req) rreq + 2 * PADDING),
     if nreq >? snd req
     then with_az_list v (map (fun az => override_width az (nreq - PADDING)) (az_list v))
     else v).
Proof.
  unfold Vpc_get_dimensions. destruct (check_empty v); [reflexivity|].
  fold (az_requirements (az_list v)
          (RESOURCE_DISTRIBUTION + 2 * PADDING, RESOURCE_DISTRIBUTION + PADDING)).
  destruct (az_requirements _ _) as [hreq wreq]. cbv zeta. cbn [fst snd].
  destruct (Z.gtb_spec (Z.of_nat (List.length (nacl_list v)) * RESOURCE_DISTRIBUTION) wreq);
    destruct (Z.gtb_spec (Z.of_nat (List.length (rt_list v)) * RESOURCE_DISTRIBUTION) hreq);
    rewrite ?with_az_list_same;
    (apply f_equal2; [apply f_equal2; lia | reflexivity]).
Qed.

(** C5.  A second call of [VpcResource.get_dimensions], made right
    after the first, returns the same pair and leaves the tree as the
    first call left it, so that every zone and every subnet of the tree
    reports the same size again as well. *)
Theorem sizing_idempotent :
  forall v : VpcResource,
    let (d1, v1) := Vpc_get_dimensions v in
    let (d2, v2) := Vpc_get_dimensions v1 in
    d2 = d1 /\ v2 = v1 /\
    map AZ_get_dimensions (az_list v2) = map AZ_get_dimensions (az_list v1) /\
    map (fun az => map Subnet_get_dimensions (subnets az)) (az_list v2) =
    map (fun az => map Subnet_get_dimensions (subnets az)) (az_list v1).
Proof.
  intros v.
  assert (H : fst (Vpc_get_dimensions (snd (Vpc_get_dimensions v)))
              = fst (Vpc_get_dimensions v) /\
              snd (Vpc_get_dimensions (snd (Vpc_get_dimensions v)))
              = snd (Vpc_get_dimensions v)).
  { rewrite (Vpc_get_dimensions_unfold v).
    destruct (check_empty v) eqn:He.
    - cbn [fst snd]. rewrite Vpc_get_dimensions_unfold, He. split; reflexivity.
    - cbv zeta. cbn [fst snd].
      set (start := (RESOURCE_DISTRIBUTION + 2 * PADDING, RESOURCE_DISTRIBUTION + PADDING)).
      set (nreq := Z.of_nat (List.length (nacl_list v)) * RESOURCE_DISTRIBUTION).
      pose proof (az_requirements_width_ge (az_list v)
                    (RESOURCE_DISTRIBUTION + 2 * PADDING)
                    (RESOURCE_DISTRIBUTION + PADDING)) as Hge.
      fold start in Hge.
      destruct (Z.gtb_spec nreq (snd (az_requirements (az_list v) start))) as [Hgt|Hle].
      + rewrite Vpc_get_dimensions_unfold, check_empty_override, He.
        cbv zeta. cbn [az_list nacl_list rt_list with_az_list]. fold nreq.
        rewrite (az_requirements_override (az_list v) (nreq - PADDING)
                   (RESOURCE_DISTRIBUTION + 2 * PADDING)
                   (RESOURCE_DISTRIBUTION + PADDING)
                   (RESOURCE_DISTRIBUTION + PADDING)).
        fold start. cbn [fst snd].
        destruct (az_list v) as [|az l] eqn:Hl.
        * cbn [map].
          destruct (Z.gtb_spec nreq (RESOURCE_DISTRIBUTION + PADDING)) as [_|Hc].
          -- split; reflexivity.
          -- split; reflexivity.
        * destruct (Z.gtb_spec nreq
                      (Z.max (RESOURCE_DISTRIBUTION + PADDING) (nreq - PADDING + PADDING)))
            as [Hc|_].
          -- lia.
          -- split; [|reflexivity]. apply f_equal2; [|reflexivity].
             apply f_equal2; [lia|reflexivity].
      + rewrite Vpc_get_dimensions_unfold, He. cbv zeta. fold start. fold nreq.
        destruct (Z.gtb_spec nreq (snd (az_requirements (az_list v) start))); [lia|].
        split; reflexivity. }
  destruct (Vpc_get_dimensions v) as [d1 v1]. cbn [fst snd] in H.
  destruct (Vpc_get_dimensions v1) as [d2 v2]. cbn [fst snd] in H.
  destruct H as [Hd Hv]. subst d2 v2. repeat split.
Qed.

(** ** Exceptions raised while rendering route tables *)

Lemma py_max_by_In (A : Type) (key : A -> nat) (l : list A) :
  forall best, In (py_max_by key best l) (best :: l).
Proof.
  induction l as [|a t IH]; intros best; simpl.
  - now left.
  - destruct (IH (if Nat.ltb (key best) (key a) then a else best)) as [H|H].
    + destruct (Nat.ltb (key best) (key a)); rewrite <- H; auto.
    + auto.
Qed.

Lemma py_index_not_In x l : ~ In x l -> py_index x l = Raise ValueError.
Proof.
  induction l as [|y t IH]; intros Hn; simpl.
  - reflexivity.
  - destruct (String.eqb_spec y x) as [->|_].
    + exfalso. apply Hn. now left.
    + rewrite IH; [reflexivity|]. intros H. apply Hn. now right.
Qed.

Lemma py_index_In x l : In x l -> exists i, py_index x l = Ok i.
Proof.
  induction l as [|y t IH]; intros Hin; simpl.
  - destruct Hin.
  - destruct (String.eqb_spec y x) as [->|Hne].
    + now exists 0.
    + destruct Hin as [E|Hin]; [contradiction|].
      destruct (IH Hin) as [i Hi]. rewrite Hi. now exists (i + 1).
Qed.

(** The zone a route table votes for is one of the zones recorded for
    it, whatever the iteration order of the set. *)
Lemma get_suggested_az_In (py_set : list string -> list string) rt :
  (forall l a, In a (py_set l) <-> In a l) ->
  az_connections rt <> [] ->
  In (get_suggested_az py_set rt) (az_connections rt).
Proof.
  intros Hset Hne. unfold get_suggested_az.
  destruct (az_connections rt) as [|z zs] eqn:E; [contradiction|].
  destruct (py_set (z :: zs)) as [|a t] eqn:Es.
  - assert (H : In z (py_set (z :: zs))) by (apply Hset; now left).
    rewrite Es in H. destruct H.
  - apply Hset. rewrite Es. apply py_max_by_In.
Qed.

(** C4, on the code.  [RouteTableResource.render_xml] raises
    [UnboundLocalError] for every route table whose route list is empty,
    and [VpcResource.sort_rt_resources] raises [ValueError] as soon as
    the second of two registered route tables has all its associations
    recorded with a zone that is no zone of the network (the empty zone
    name the driver records for a subnet it does not know). *)
Theorem route_table_rendering_raises :
  forall (line_height : Z) (py_set : list string -> list string),
    (forall l a, In a (py_set l) <-> In a l) ->
    (forall (rt : RouteTableResource) (x y list_y : Z),
        routes rt = [] ->
        RouteTable_render_xml line_height rt x y list_y = Raise UnboundLocalError) /\
    (forall (v : VpcResource) (rt1 rt2 : RouteTableResource) (z : string),
        rt_list v = [rt1; rt2] ->
        az_connections rt2 = [z] ->
        ~ In z (map az_id (az_list v)) ->
        z <> NO_AZ ->
        sort_rt_resources py_set v = Raise ValueError).
Proof.
  intros line_height py_set Hset. split.
  - intros rt x y list_y Hr. unfold RouteTable_render_xml. rewrite Hr. reflexivity.
  - intros v rt1 rt2 z Hl Hz Hnin Hno.
    unfold sort_rt_resources.
    assert (He : check_empty v = false).
    { unfold check_empty. rewrite Hl. now destruct (az_list v), (nacl_list v). }
    rewrite He, Hl. unfold py_sorted_res. cbn [sorted_res_from insert_sorted_res bind].
    assert (Hs : get_suggested_az py_set rt2 = z).
    { pose proof (@get_suggested_az_In py_set rt2 Hset) as H.
      rewrite Hz in H. destruct H as [H|[]]; [discriminate|auto]. }
    rewrite Hs, py_index_not_In; [reflexivity|].
    intros H. apply in_app_or in H. destruct H as [H|[H|[]]]; auto.
Qed.

Lemma route_table_rendering_raises_witness :
  let rt_empty := mkRT "rtb-0" [("subnet-1", "rtbassoc-1")]%string [] "" ["us-east-1a"]%string in
  let local := mkRoute "10.0.0.0/16" "active" "local" "Create Table" in
  let rt1 := mkRT "rtb-1" [("subnet-1", "rtbassoc-1")]%string [local] "" ["us-east-1a"]%string in
  let rt2 := register_rt_association (mkRT "rtb-2" [] [local] "" [])
                                     "subnet-9" "rtbassoc-2" "" in
  let v := mkVpc "vpc-1" [mkAZ "us-east-1a" [] (false, 0)] [] [rt1; rt2]
                 "" "10.0.0.0/16" [] [] in
  RouteTable_render_xml 20 rt_empty 790 1000 1000 = Raise UnboundLocalError /\
  sort_rt_resources (nodup string_dec) v = Raise ValueError.
Proof.
  intros rt_empty local rt1 rt2 v.
  destruct (@route_table_rendering_raises 20 (nodup string_dec)
              (fun l a => nodup_In string_dec l a)) as [H1 H2].
  split.
  - apply H1. reflexivity.
  - apply (H2 v rt1 rt2 ""%string).
    + reflexivity.
    + reflexivity.
    + simpl. intros [H|[]]. discriminate H.
    + discriminate.
Defined.

(** ** Placement *)

Lemma bind_Ok_inv (A B : Type) (m : Res A) (k : A -> Res B) (b : B) :
  bind m k = Ok b -> exists a, m = Ok a /\ k a = Ok b.
Proof.
  destruct m as [a|e]; simpl; intros H.
  - now exists a.
  - discriminate H.
Qed.

Lemma pairwise_disjoint_app l1 l2 :
  pairwise_disjoint l1 ->
  pairwise_disjoint l2 ->
  (forall a b, In a l1 -> In b l2 -> ~ overlap a b) ->
  pairwise_disjoint (l1 ++ l2).
Proof.
  induction 1 as [|r rs Hr Hrs IH]; intros H2 Hx; simpl.
  - exact H2.
  - constructor.
    + apply Forall_app. split; [exact Hr|].
      apply Forall_forall. intros b Hb. apply Hx; [now left|exact Hb].
    + apply IH; [exact H2|].
      intros a b Ha Hb. apply Hx; [now right|exact Hb].
Qed.


Lemma Subnet_height_ge s : SUBNET_MIN_H <= snd (Subnet_get_dimensions s).
Proof.
  unfold Subnet_get_dimensions. cbn [snd].
  destruct (Z.gtb_spec (Z.of_nat (List.length (ng_list s)) * RESOURCE_DISTRIBUTION - PADDING)
                       SUBNET_MIN_H); lia.
Qed.


Lemma Subnet_render_xml_rect s x y :
  sb_rect (Subnet_render_xml s x y) =
  mkRect x y (fst (Subnet_get_dimensions s)) (snd (Subnet_get_dimensions s)).
Proof. reflexivity. Qed.

Lemma stack_height_nonneg l : 0 <= stack_height l.
Proof.
  induction l as [|s rest IH]; cbn [stack_height].
  - lia.
  - pose proof (Subnet_height_ge s). unfold_consts. lia.
Qed.

Lemma stack_height_Permutation l l' :
  Permutation l l' -> stack_height l = stack_height l'.
Proof.
  induction 1; cbn [stack_height]; lia.
Qed.

Lemma AZ_fold_spec l :
  forall w h,
    fold_left (fun '(w, h) subnet =>
                 let '(new_w, new_h) := Subnet_get_dimensions subnet in
                 (new_w, h + new_h + PADDING))
              l (w, h)
    = (match l with [] => w | _ :: _ => SUBNET_MIN_W end, h + stack_height l).
Proof.
  induction l as [|s rest IH]; intros w h.
  - simpl. f_equal. lia.
  - cbn [fold_left stack_height].
    change (Subnet_get_dimensions s)
      with (SUBNET_MIN_W, snd (Subnet_get_dimensions s)) at 1.
    cbv iota beta. rewrite IH. f_equal.
    + now destruct rest.
    + lia.
Qed.

Lemma AZ_get_dimensions_spec az :
  AZ_get_dimensions az =
  (if fst (width_override az) then snd (width_override az)
   else match subnets az with [] => 0 | _ :: _ => SUBNET_MIN_W end + 2 * PADDING,
   PADDING + stack_height (subnets az)).
Proof.
  unfold AZ_get_dimensions. rewrite AZ_fold_spec.
  now destruct (fst (width_override az)).
Qed.

Lemma AZ_height_ge az : PADDING <= snd (AZ_get_dimensions az).
Proof.
  rewrite AZ_get_dimensions_spec. cbn [snd].
  pose proof (stack_height_nonneg (subnets az)). lia.
Qed.

Lemma insert_sorted_Permutation (A : Type) (cmp : A -> A -> Z) x l :
  Permutation (insert_sorted cmp x l) (x :: l).
Proof.
  induction l as [|y t IH]; simpl.
  - apply Permutation_refl.
  - destruct (cmp x y <? 0).
    + apply Permutation_refl.
    + eapply perm_trans; [apply perm_skip, IH|apply perm_swap].
Qed.

Lemma py_sorted_Permutation (A : Type) (cmp : A -> A -> Z) l :
  Permutation (py_sorted cmp l) l.
Proof.
  unfold py_sorted.
  assert (H : forall acc, Permutation (fold_left (fun acc x => insert_sorted cmp x acc) l acc)
                                      (acc ++ l)).
  { induction l as [|x t IH]; intros acc; simpl.
    - rewrite app_nil_r. apply Permutation_refl.
    - eapply perm_trans; [apply IH|].
      eapply perm_trans; [apply Permutation_app_tail, insert_sorted_Permutation|].
      simpl. apply Permutation_middle. }
  apply (H []).
Qed.

Section PlacementFacts.

Variable cols : Z.

Lemma place_subnets_cons_inv width sx sy s rest bs :
  place_subnets cols width sx sy (s :: rest) = Ok bs ->
  exists step bs',
    py_div (width - fst (Subnet_get_dimensions s) - PADDING) cols = Ok step /\
    place_subnets cols width sx (sy + PADDING + snd (Subnet_get_dimensions s)) rest = Ok bs' /\
    bs = Subnet_render_xml s (sx + Subnet_get_col_suggestion s * step) sy :: bs'.
Proof.
  cbn [place_subnets].
  change (Subnet_get_dimensions s)
    with (fst (Subnet_get_dimensions s), snd (Subnet_get_dimensions s)) at 1.
  cbv iota beta zeta. intros H.
  apply bind_Ok_inv in H. destruct H as [step [Hstep H]].
  apply bind_Ok_inv in H. destruct H as [bs' [Hbs' H]].
  injection H as <-. now exists step, bs'.
Qed.

(** Subnets are stacked downwards from [sy]: each one lies below the
    previous one, and all of them within [stack_height] of [sy]. *)
Lemma place_subnets_spec l :
  forall width sx sy bs,
    place_subnets cols width sx sy l = Ok bs ->
    pairwise_disjoint (map sb_rect bs) /\
    Forall (fun r => sy <= ry r /\ ry r + rh r + PADDING <= sy + stack_height l)
           (map sb_rect bs).
Proof.
  induction l as [|s rest IH]; intros width sx sy bs H.
  - injection H as <-. split; constructor.
  - apply place_subnets_cons_inv in H.
    destruct H as [step [bs' [_ [Hrest ->]]]].
    destruct (IH _ _ _ _ Hrest) as [Hpd Hall].
    pose proof (Subnet_height_ge s) as Hh.
    pose proof (stack_height_nonneg rest) as Hs.
    cbn [map stack_height]. rewrite Subnet_render_xml_rect. split.
    + constructor; [|exact Hpd].
      eapply Forall_impl; [|exact Hall].
      intros r [Hr _] [_ [_ [_ Ho]]]. cbn [ry rh] in Ho. unfold_consts. lia.
    + constructor.
      * cbn [ry rh]. unfold_consts. lia.
      * eapply Forall_impl; [|exact Hall].
        intros r [Hr1 Hr2]. unfold_consts. lia.
Qed.

Lemma place_subnets_total l :
  cols <> 0 ->
  forall width sx sy, exists bs, place_subnets cols width sx sy l = Ok bs.
Proof.
  intros Hc. induction l as [|s rest IH]; intros width sx sy.
  - now exists [].
  - cbn [place_subnets].
    change (Subnet_get_dimensions s)
      with (fst (Subnet_get_dimensions s), snd (Subnet_get_dimensions s)) at 1.
    cbv iota beta zeta. unfold py_div.
    destruct (Z.eqb_spec cols 0) as [E|_]; [contradiction|].
    cbn [bind].
    destruct (IH width sx (sy + PADDING + snd (Subnet_get_dimensions s))) as [bs' ->].
    cbn [bind]. eauto.
Qed.

Lemma AZ_render_xml_inv az x y box :
  AZ_render_xml cols az x y = Ok box ->
  azb_rect box = mkRect x y (fst (AZ_get_dimensions az)) (snd (AZ_get_dimensions az)) /\
  place_subnets cols (fst (AZ_get_dimensions az)) (x + PADDING) (y + PADDING)
                (sorted_subnets az) = Ok (azb_subnets box).
Proof.
  unfold AZ_render_xml.
  destruct (AZ_get_dimensions az) as [w h]. cbv zeta. intros H.
  apply bind_Ok_inv in H. destruct H as [bs [Hbs H]].
  injection H as <-. split; [reflexivity|exact Hbs].
Qed.

Lemma AZ_render_xml_total az x y :
  cols <> 0 \/ subnets az = [] ->
  exists box, AZ_render_xml cols az x y = Ok box.
Proof.
  intros H. unfold AZ_render_xml.
  destruct (AZ_get_dimensions az) as [w h]. cbv zeta.
  assert (Hs : exists bs, place_subnets cols w (x + PADDING) (y + PADDING)
                                        (sorted_subnets az) = Ok bs).
  { destruct H as [Hc|He].
    - now apply place_subnets_total.
    - unfold sorted_subnets. rewrite He. now exists []. }
  destruct Hs as [bs ->]. cbn [bind]. eauto.
Qed.

End PlacementFacts.

(** *** The children of a network *)

Lemma place_nacls_spec l :
  forall nacl_x nacl_y,
    pairwise_disjoint (place_nacls nacl_x nacl_y l) /\
    Forall (fun r => nacl_x <= rx r /\
                     rx r + rw r + 130 <= nacl_x + RESOURCE_DISTRIBUTION * Z.of_nat (List.length l) /\
                     ry r = nacl_y /\ rw r = 50 /\ rh r = 50)
           (place_nacls nacl_x nacl_y l).
Proof.
  induction l as [|n rest IH]; intros nacl_x nacl_y.
  - split; constructor.
  - destruct (IH (nacl_x + RESOURCE_DISTRIBUTION) nacl_y) as [Hpd Hall].
    cbn [place_nacls NAcl_render_xml fst]. unfold DiagramObject_render_xml.
    cbn [List.length]. rewrite Nat2Z.inj_succ. split.
    + constructor; [|exact Hpd].
      eapply Forall_impl; [|exact Hall].
      intros r [Hr _] [_ [Ho _]]. cbn [rx rw] in Ho. unfold_consts. lia.
    + constructor.
      * cbn [rx ry rw rh]. unfold_consts. lia.
      * eapply Forall_impl; [|exact Hall].
        intros r [H1 [H2 H3]]. unfold_consts. lia.
Qed.

Section RouteTablePlacement.

Variable line_height : Z.
Variable int_div_1_3 : Z -> Z.

Lemma RouteTable_render_xml_inv rt x y list_y b h :
  RouteTable_render_xml line_height rt x y list_y = Ok (b, h) ->
  rtb_icon b = mkRect x y 50 50 /\ routes rt <> [].
Proof.
  unfold RouteTable_render_xml. destruct (routes rt) as [|r rs].
  - discriminate.
  - cbn [List.length]. rewrite Nat2Z.inj_succ.
    destruct (Z.gtb_spec (Z.succ (Z.of_nat (List.length rs))) 0) as [_|Hle]; [|lia].
    unfold DiagramList_render_xml. intros H. injection H as <- _.
    split; [reflexivity|discriminate].
Qed.

Lemma RouteTable_render_xml_total rt x y list_y :
  routes rt <> [] ->
  exists b h, RouteTable_render_xml line_height rt x y list_y = Ok (b, h).
Proof.
  intros Hr. unfold RouteTable_render_xml. destruct (routes rt) as [|r rs].
  - contradiction.
  - cbn [List.length]. rewrite Nat2Z.inj_succ.
    destruct (Z.gtb_spec (Z.succ (Z.of_nat (List.length rs))) 0) as [_|Hle]; [|lia].
    unfold DiagramList_render_xml. eauto.
Qed.

(** Route-table icons are stacked downwards from [rt_y] in one column,
    at least [RESOURCE_DISTRIBUTION] apart. *)
Lemma place_rts_spec l :
  forall rt_x rt_y rt_list_y bs,
    place_rts line_height int_div_1_3 rt_x rt_y rt_list_y l = Ok bs ->
    pairwise_disjoint (map rtb_icon bs) /\
    Forall (fun r => rx r = rt_x /\ rt_y <= ry r /\ rw r = 50 /\ rh r = 50)
           (map rtb_icon bs).
Proof.
  induction l as [|rt rest IH]; intros rt_x rt_y rt_list_y bs H.
  - injection H as <-. split; constructor.
  - cbn [place_rts] in H.
    apply bind_Ok_inv in H. destruct H as [[b h] [Hb H]].
    apply bind_Ok_inv in H. destruct H as [bs' [Hbs' H]].
    injection H as <-.
    apply RouteTable_render_xml_inv in Hb. destruct Hb as [Hb _].
    destruct (IH _ _ _ _ Hbs') as [Hpd Hall].
    cbn [map]. rewrite Hb. split.
    + constructor; [|exact Hpd].
      eapply Forall_impl; [|exact Hall].
      intros r [_ [Hr _]] [_ [_ [_ Ho]]]. cbn [ry rh] in Ho. unfold_consts. lia.
    + constructor.
      * cbn [rx ry rw rh]. repeat split; lia.
      * eapply Forall_impl; [|exact Hall].
        intros r [H1 [H2 H3]]. unfold_consts. repeat split; try tauto. lia.
Qed.

Lemma place_rts_total l :
  Forall (fun rt => routes rt <> []) l ->
  forall rt_x rt_y rt_list_y,
  exists bs, place_rts line_height int_div_1_3 rt_x rt_y rt_list_y l = Ok bs.
Proof.
  induction 1 as [|rt rest Hrt _ IH]; intros rt_x rt_y rt_list_y.
  - now exists [].
  - cbn [place_rts].
    destruct (@RouteTable_render_xml_total rt rt_x rt_y rt_list_y Hrt) as [b [h ->]].
    cbn [bind].
    destruct (IH rt_x (rt_y + Z.max (int_div_1_3 h) RESOURCE_DISTRIBUTION)
                 (rt_list_y + Z.max (PADDING + h) RESOURCE_DISTRIBUTION)) as [bs ->].
    cbn [bind]. eauto.
Qed.

End RouteTablePlacement.

Lemma AZ_empty_true az : AZ_empty az = true -> subnets az = [].
Proof. unfold AZ_empty. destruct (subnets az); [reflexivity|discriminate]. Qed.

Lemma AZ_empty_height az w :
  AZ_empty az = true -> snd (AZ_get_dimensions (override_width az w)) = PADDING.
Proof.
  intros H. rewrite AZ_get_dimensions_override, AZ_get_dimensions_spec.
  cbn [snd]. rewrite (AZ_empty_true az H). cbn [stack_height]. lia.
Qed.

Section ZonePlacement.

Variable cols : Z.

(** Zones never overlap: a zone in the left column stays above every
    later zone but the one packed to its right. *)
Lemma place_azs_spec saw az_x l :
  forall az_y right bs,
    place_azs cols saw az_x az_y right l = Ok bs ->
    pairwise_disjoint (map azb_rect bs) /\
    Forall (fun r => az_y <= ry r /\
                     (rx r = az_x \/ rx r = az_x + saw + PADDING) /\
                     (right = true -> az_x + saw + PADDING <= rx r \/ az_y + PADDING <= ry r))
           (map azb_rect bs).
Proof.
  induction l as [|az rest IH]; intros az_y right bs H.
  - injection H as <-. split; constructor.
  - cbn [place_azs] in H.
    destruct (AZ_empty az) eqn:He; [destruct right|].
    + (* an empty zone, packed to the right *)
      apply bind_Ok_inv in H. destruct H as [b [Hb H]].
      apply bind_Ok_inv in H. destruct H as [bs' [Hbs' H]].
      injection H as <-.
      apply AZ_render_xml_inv in Hb. destruct Hb as [Hb _].
      rewrite (AZ_empty_height az saw He) in Hbs', Hb.
      rewrite AZ_get_dimensions_override in Hb. cbn [fst] in Hb.
      destruct (IH _ _ _ Hbs') as [Hpd Hall].
      cbn [map]. rewrite Hb. split.
      * constructor; [|exact Hpd].
        eapply Forall_impl; [|exact Hall].
        intros r [Hr _] [_ [_ [_ Ho]]]. geom.
      * constructor; [geom|].
        eapply Forall_impl; [|exact Hall].
        intros r [H1 [H2 _]]. geom.
    + (* an empty zone, placed on the left *)
      apply bind_Ok_inv in H. destruct H as [b [Hb H]].
      apply bind_Ok_inv in H. destruct H as [bs' [Hbs' H]].
      injection H as <-.
      apply AZ_render_xml_inv in Hb. destruct Hb as [Hb _].
      rewrite (AZ_empty_height az saw He) in Hb.
      rewrite AZ_get_dimensions_override in Hb. cbn [fst] in Hb.
      destruct (IH _ _ _ Hbs') as [Hpd Hall].
      cbn [map]. rewrite Hb. split.
      * constructor; [|exact Hpd].
        eapply Forall_impl; [|exact Hall].
        intros r [_ [_ Hr]] [_ [Ho1 [_ Ho2]]].
        destruct (Hr eq_refl); geom.
      * constructor; [geom|].
        eapply Forall_impl; [|exact Hall].
        intros r [H1 [H2 _]]. geom.
    + (* a zone with subnets *)
      apply bind_Ok_inv in H. destruct H as [b [Hb H]].
      apply bind_Ok_inv in H. destruct H as [bs' [Hbs' H]].
      injection H as <-.
      apply AZ_render_xml_inv in Hb. destruct Hb as [Hb _].
      destruct (IH _ _ _ Hbs') as [Hpd Hall].
      pose proof (AZ_height_ge az) as Hh.
      cbn [map]. rewrite Hb. split.
      * constructor; [|exact Hpd].
        eapply Forall_impl; [|exact Hall].
        intros r [Hr _] [_ [_ [_ Ho]]]. destruct right; geom.
      * constructor; [destruct right; geom|].
        eapply Forall_impl; [|exact Hall].
        intros r [H1 [H2 _]]. destruct right; geom.
Qed.

Lemma place_azs_total saw az_x l :
  cols <> 0 ->
  forall az_y right, exists bs, place_azs cols saw az_x az_y right l = Ok bs.
Proof.
  intros Hc. induction l as [|az rest IH]; intros az_y right.
  - now exists [].
  - cbn [place_azs].
    destruct (AZ_empty az); [destruct right|].
    + destruct (@AZ_render_xml_total cols (override_width az saw)
                  (az_x + saw + PADDING) az_y (or_introl Hc)) as [b ->].
      cbn [bind].
      destruct (IH (az_y + PADDING + snd (AZ_get_dimensions (override_width az saw)))
                   (negb true)) as [bs ->].
      cbn [bind]. eauto.
    + destruct (@AZ_render_xml_total cols (override_width az saw)
                  az_x az_y (or_introl Hc)) as [b ->].
      cbn [bind].
      destruct (IH az_y (negb false)) as [bs ->].
      cbn [bind]. eauto.
    + destruct (@AZ_render_xml_total cols az az_x
                  (if right then az_y + SUBNET_MIN_H + PADDING else az_y)
                  (or_introl Hc)) as [b ->].
      cbn [bind].
      destruct (IH ((if right then az_y + SUBNET_MIN_H + PADDING else az_y)
                    + PADDING + snd (AZ_get_dimensions az)) false) as [bs ->].
      cbn [bind]. eauto.
Qed.

End ZonePlacement.

Section SortFacts.

Variable A : Type.
Variable cmp : A -> A -> Res Z.

Lemma insert_sorted_res_Permutation x l l' :
  insert_sorted_res cmp x l = Ok l' -> Permutation l' (x :: l).
Proof.
  revert l'. induction l as [|y t IH]; intros l' H.
  - injection H as <-. apply Permutation_refl.
  - cbn [insert_sorted_res] in H.
    apply bind_Ok_inv in H. destruct H as [c [_ H]].
    destruct (c <? 0).
    + injection H as <-. apply Permutation_refl.
    + apply bind_Ok_inv in H. destruct H as [t' [Ht' H]].
      injection H as <-.
      eapply perm_trans; [apply perm_skip, IH, Ht'|apply perm_swap].
Qed.

Lemma sorted_res_from_Permutation l :
  forall acc l', sorted_res_from cmp acc l = Ok l' -> Permutation l' (acc ++ l).
Proof.
  induction l as [|x t IH]; intros acc l' H.
  - injection H as <-. rewrite app_nil_r. apply Permutation_refl.
  - cbn [sorted_res_from] in H.
    apply bind_Ok_inv in H. destruct H as [acc' [Hacc' H]].
    eapply perm_trans; [apply IH, H|].
    eapply perm_trans;
      [apply Permutation_app_tail, insert_sorted_res_Permutation, Hacc'|].
    simpl. apply Permutation_middle.
Qed.

Variable P : A -> Prop.
Hypothesis cmp_total : forall x y, P x -> P y -> exists c, cmp x y = Ok c.

Lemma insert_sorted_res_total x l :
  P x -> Forall P l -> exists l', insert_sorted_res cmp x l = Ok l'.
Proof.
  intros Hx. induction 1 as [|y t Hy _ IH].
  - now exists [x].
  - cbn [insert_sorted_res].
    destruct (cmp_total Hx Hy) as [c ->]. cbn [bind].
    destruct (c <? 0); [eauto|].
    destruct IH as [t' ->]. cbn [bind]. eauto.
Qed.

Lemma sorted_res_from_total l :
  Forall P l ->
  forall acc, Forall P acc -> exists l', sorted_res_from cmp acc l = Ok l'.
Proof.
  induction 1 as [|x t Hx _ IH]; intros acc Hacc.
  - now exists acc.
  - cbn [sorted_res_from].
    destruct (insert_sorted_res_total Hx Hacc) as [acc' Hacc'].
    rewrite Hacc'. cbn [bind]. apply IH.
    apply (Permutation_Forall (Permutation_sym (insert_sorted_res_Permutation _ _ Hacc'))).
    now constructor.
Qed.

End SortFacts.

Section VpcRenderFacts.

Variable cols : Z.
Variable line_height : Z.
Variable int_div_1_3 : Z -> Z.
Variable py_set : list string -> list string.

Lemma sort_rt_resources_Permutation v l :
  sort_rt_resources py_set v = Ok l -> Permutation l (rt_list v).
Proof.
  unfold sort_rt_resources. destruct (check_empty v) eqn:He.
  - intros H. injection H as <-.
    unfold check_empty in He.
    destruct (az_list v), (nacl_list v), (rt_list v); try discriminate He.
    apply Permutation_refl.
  - intros H. apply sorted_res_from_Permutation in H. exact H.
Qed.

Lemma sort_rt_resources_total v :
  Forall (fun rt => In (get_suggested_az py_set rt) (map az_id (az_list v) ++ [NO_AZ]))
         (rt_list v) ->
  exists l, sort_rt_resources py_set v = Ok l.
Proof.
  intros H. unfold sort_rt_resources. destruct (check_empty v); [eauto|].
  unfold py_sorted_res.
  eapply sorted_res_from_total with
    (P := fun rt => In (get_suggested_az py_set rt) (map az_id (az_list v) ++ [NO_AZ])).
  - intros r1 r2 H1 H2.
    destruct (py_index_In _ _ H1) as [i ->].
    destruct (py_index_In _ _ H2) as [j ->].
    cbn [bind]. eauto.
  - exact H.
  - constructor.
Qed.

Lemma Vpc_get_dimensions_state v :
  let v1 := snd (Vpc_get_dimensions v) in
  rt_list v1 = rt_list v /\ nacl_list v1 = nacl_list v /\
  map az_id (az_list v1) = map az_id (az_list v) /\
  map subnets (az_list v1) = map subnets (az_list v).
Proof.
  rewrite Vpc_get_dimensions_unfold.
  destruct (check_empty v); cbv zeta; cbn [snd]; [repeat split|].
  destruct (_ >? _); [|repeat split].
  cbn [with_az_list rt_list nacl_list az_list].
  rewrite !map_map. repeat split.
Qed.

Lemma Vpc_width_ge v : VPC_MIN_W <= fst (fst (Vpc_get_dimensions v)).
Proof.
  rewrite Vpc_get_dimensions_unfold.
  destruct (check_empty v); cbv zeta; cbn [fst]; [lia|].
  pose proof (az_requirements_width_ge (az_list v)
                (RESOURCE_DISTRIBUTION + 2 * PADDING)
                (RESOURCE_DISTRIBUTION + PADDING)).
  unfold_consts. lia.
Qed.

Lemma Vpc_render_xml_inv v x y ovr box :
  Vpc_render_xml cols line_height int_div_1_3 py_set v x y ovr = Ok box ->
  let d := fst (Vpc_get_dimensions v) in
  let v1 := snd (Vpc_get_dimensions v) in
  exists sorted_rts,
    sort_rt_resources py_set v1 = Ok sorted_rts /\
    place_rts line_height int_div_1_3 (x + PADDING / 2)
              (y + RESOURCE_DISTRIBUTION + PADDING)
              (y + RESOURCE_DISTRIBUTION + PADDING) sorted_rts = Ok (vb_rts box) /\
    place_azs cols ((fst d - 7 * PADDING) / 2) (x + RESOURCE_DISTRIBUTION)
              (y + RESOURCE_DISTRIBUTION) false (az_list v1) = Ok (vb_azs box) /\
    vb_nacls box = place_nacls (x + RESOURCE_DISTRIBUTION + 2 * PADDING) (y + PADDING)
                               (nacl_list v1) /\
    vb_rect box = mkRect x y (fst d) (Z.max (snd d) ovr).
Proof.
  unfold Vpc_render_xml.
  destruct (Vpc_get_dimensions v) as [[vw vh] v1]. cbv zeta. cbn [fst snd].
  intros H.
  apply bind_Ok_inv in H. destruct H as [sorted_rts [Hs H]].
  apply bind_Ok_inv in H. destruct H as [rts [Hrts H]].
  apply bind_Ok_inv in H. destruct H as [azs [Hazs H]].
  injection H as <-. exists sorted_rts. cbn [vb_rts vb_azs vb_nacls vb_rect].
  repeat split; assumption.
Qed.

Lemma Vpc_render_xml_total v x y ovr :
  cols <> 0 ->
  Forall (fun rt => routes rt <> [] /\
                    In (get_suggested_az py_set rt) (map az_id (az_list v) ++ [NO_AZ]))
         (rt_list v) ->
  exists box, Vpc_render_xml cols line_height int_div_1_3 py_set v x y ovr = Ok box.
Proof.
  intros Hc Hrt.
  destruct (Vpc_get_dimensions_state v) as [Hr [_ [Hid _]]].
  unfold Vpc_render_xml.
  destruct (Vpc_get_dimensions v) as [[vw vh] v1]. cbv zeta. cbn [snd] in Hr, Hid.
  assert (Hs : exists l, sort_rt_resources py_set v1 = Ok l).
  { apply sort_rt_resources_total. rewrite Hr, Hid.
    eapply Forall_impl; [|exact Hrt]. intros rt [_ H]. exact H. }
  destruct Hs as [l Hl]. rewrite Hl. cbn [bind].
  assert (Hroutes : Forall (fun rt => routes rt <> []) l).
  { apply (Permutation_Forall (Permutation_sym (sort_rt_resources_Permutation _ Hl))).
    rewrite Hr. eapply Forall_impl; [|exact Hrt]. intros rt [H _]. exact H. }
  destruct (place_rts_total line_height int_div_1_3 Hroutes (x + PADDING / 2)
              (y + RESOURCE_DISTRIBUTION + PADDING)
              (y + RESOURCE_DISTRIBUTION + PADDING)) as [rts ->].
  cbn [bind].
  destruct (@place_azs_total cols ((vw - 7 * PADDING) / 2) (x + RESOURCE_DISTRIBUTION)
              (az_list v1) Hc (y + RESOURCE_DISTRIBUTION) false) as [azs ->].
  cbn [bind]. eauto.
Qed.

(** The icons of the ACLs, the icons of the route tables and the zones
    of one network do not overlap. *)
Lemma vpc_children_disjoint v x y ovr box :
  Vpc_render_xml cols line_height int_div_1_3 py_set v x y ovr = Ok box ->
  pairwise_disjoint (vpc_children box).
Proof.
  intros H. apply Vpc_render_xml_inv in H. cbv zeta in H.
  destruct H as [sorted_rts [_ [Hrts [Hazs [Hn _]]]]].
  apply place_rts_spec in Hrts. destruct Hrts as [Hrpd Hrall].
  apply place_azs_spec in Hazs. destruct Hazs as [Hapd Haall].
  pose proof (Vpc_width_ge v) as Hw.
  assert (Hsaw : -110 <= (fst (fst (Vpc_get_dimensions v)) - 7 * PADDING) / 2).
  { apply Z.div_le_lower_bound; unfold_consts; lia. }
  destruct (place_nacls_spec (nacl_list (snd (Vpc_get_dimensions v)))
              (x + RESOURCE_DISTRIBUTION + 2 * PADDING) (y + PADDING)) as [Hnpd Hnall].
  rewrite <- Hn in Hnpd, Hnall.
  rewrite Forall_forall in Hrall, Haall, Hnall.
  unfold vpc_children.
  apply pairwise_disjoint_app; [exact Hnpd| |].
  - apply pairwise_disjoint_app; [exact Hrpd|exact Hapd|].
    intros a b Ha Hb [_ [Ho _]].
    destruct (Hrall a Ha) as [Ha1 [_ [Ha2 _]]].
    destruct (Haall b Hb) as [_ [Hb1 _]].
    change (PADDING / 2) with 30 in Ha1.
    destruct Hb1; unfold_consts; lia.
  - intros a b Ha Hb [_ [_ [_ Ho]]].
    destruct (Hnall a Ha) as [_ [_ [Ha1 [_ Ha2]]]].
    apply in_app_or in Hb. destruct Hb as [Hb|Hb].
    + destruct (Hrall b Hb) as [_ [Hb1 _]]. unfold_consts. lia.
    + destruct (Haall b Hb) as [Hb1 _]. unfold_consts. lia.
Qed.

End VpcRenderFacts.

(** C1.  Whenever [AZResource.render_xml] returns, the rectangles it
    gave to its subnets are pairwise non-overlapping, and whenever
    [VpcResource.render_xml] returns, the rectangles it gave to its ACL
    icons, route-table icons and zones are pairwise non-overlapping.
    Both calls do return when the column count is not zero and, for the
    network, every route table has a route and votes for a zone of the
    network or for none. *)
Theorem siblings_do_not_overlap :
  forall (cols line_height : Z) (int_div_1_3 : Z -> Z)
         (py_set : list string -> list string),
    (forall az x y box,
        AZ_render_xml cols az x y = Ok box ->
        pairwise_disjoint (map sb_rect (azb_subnets box))) /\
    (forall v x y ovr box,
        Vpc_render_xml cols line_height int_div_1_3 py_set v x y ovr = Ok box ->
        pairwise_disjoint (vpc_children box)) /\
    (cols <> 0 ->
     forall az x y, exists box, AZ_render_xml cols az x y = Ok box) /\
    (cols <> 0 ->
     forall v x y ovr,
       Forall (fun rt => routes rt <> [] /\
                         In (get_suggested_az py_set rt)
                            (map az_id (az_list v) ++ [NO_AZ]))
              (rt_list v) ->
       exists box,
         Vpc_render_xml cols line_height int_div_1_3 py_set v x y ovr = Ok box).
Proof.
  intros cols line_height int_div_1_3 py_set. repeat split.
  - intros az x y box H.
    apply AZ_render_xml_inv in H. destruct H as [_ H].
    apply place_subnets_spec in H. apply H.
  - intros v x y ovr box H. eapply vpc_children_disjoint, H.
  - intros Hc az x y. apply AZ_render_xml_total. now left.
  - intros Hc v x y ovr H. now apply Vpc_render_xml_total.
Qed.

Lemma siblings_do_not_overlap_witness :
  let ng := mkNg "nat-1" "subnet-1" "" (Some "igw-1"%string) in
  let acl := mkNacl "acl-1" 1 "" 0 in
  let s1 := mkSubnet "subnet-1" "10.0.0.0/24" "us-east-1a" [ng]
                     [mkAssoc "subnet-1" "acl-1" "aclassoc-1" acl] "public" in
  let s2 := mkSubnet "subnet-2" "10.0.1.0/24" "us-east-1a" [] [] "private" in
  let az_a := mkAZ "us-east-1a" [s1; s2] (false, 0) in
  let az_b := mkAZ "us-east-1b" [] (false, 0) in
  let az_c := mkAZ "us-east-1c" [] (false, 0) in
  let rt := mkRT "rtb-1" [("subnet-1", "rtbassoc-1")]%string
                 [mkRoute "10.0.0.0/16" "active" "local" "Create Table"]
                 "" ["us-east-1a"]%string in
  let v := mkVpc "vpc-1" [az_b; az_c; az_a] [acl] [rt; rt] "" "10.0.0.0/16" [] [] in
  exists box,
    Vpc_render_xml 3 20 (fun h => h * 10 / 13) (nodup string_dec) v 760 760 0 = Ok box /\
    pairwise_disjoint (vpc_children box).
Proof.
  intros ng acl s1 s2 az_a az_b az_c rt v.
  destruct (siblings_do_not_overlap 3 20 (fun h => h * 10 / 13) (nodup string_dec))
    as [_ [Hdisj [_ Htotal]]].
  destruct (Htotal ltac:(lia) v 760 760 0) as [box Hbox].
  - apply Forall_forall. intros r Hr.
    destruct Hr as [<-|[<-|[]]];
      (split; [subst rt; discriminate | vm_compute; auto]).
  - exists box. split; [exact Hbox|]. eapply Hdisj, Hbox.
Defined.

(** ** Containment *)


Section ContainmentFacts.

Variable cols : Z.
Hypothesis cols_pos : 0 < cols.


End ContainmentFacts.

Lemma az_requirements_width_bound l :
  forall hreq wreq,
    Forall (fun az => fst (AZ_get_dimensions az) + PADDING
                      <= snd (az_requirements l (hreq, wreq))) l.
Proof.
  induction l as [|az rest IH]; intros hreq wreq.
  - constructor.
  - rewrite az_requirements_cons. constructor.
    + etransitivity; [|apply az_requirements_width_ge]. lia.
    + apply IH.
Qed.


Section ZoneContainment.

Variable cols : Z.


End ZoneContainment.

Lemma az_requirements_height l :
  forall hreq wreq,
    fst (az_requirements l (hreq, wreq)) =
    hreq + fold_right Z.add 0 (map (fun az => snd (AZ_get_dimensions az)) l).
Proof.
  induction l as [|az l IH]; intros hreq wreq.
  - simpl. lia.
  - rewrite az_requirements_cons, IH. cbn [map fold_right]. lia.
Qed.









(** * Further properties *)

(** ** RouteGroup on the Y axis and the shape of a route *)

Module RouteGroupMore.
Import RouteGroup.

Lemma first_waypoint_Y g ox oy :
  starting_direction g = Y_DIRECTION ->
  hd_error (complex_route g ox oy) = Some (ox, current_y g).
Proof.
  intros H. unfold complex_route. rewrite H. reflexivity.
Qed.

Lemma nth_first_waypoint_Y g origins j ox oy :
  starting_direction g = Y_DIRECTION ->
  nth_error origins j = Some (ox, oy) ->
  (forall i, 0 <= i < Z.of_nat j -> current_y g - i * bundle_spacing g <> -1) ->
  nth_error (map (@hd_error _) (fst (get_routes g origins))) j =
  Some (Some (ox, current_y g - Z.of_nat j * bundle_spacing g)).
Proof.
  revert g j; induction origins as [|[ox' oy'] rest IH]; intros g j Hdir Hj Hne.
  - destruct j; discriminate Hj.
  - rewrite RouteGroupFacts.get_routes_cons. destruct j as [|j]; cbn [map nth_error] in *.
    + injection Hj as -> ->. rewrite first_waypoint_Y by assumption.
      do 3 f_equal. simpl. lia.
    + assert (H0 : current_y g <> -1).
      { specialize (Hne 0). rewrite Z.mul_0_l, Z.sub_0_r in Hne. apply Hne. lia. }
      assert (Hy : current_y (advance g) = current_y g - bundle_spacing g).
      { unfold advance; cbn [current_y].
        apply Z.eqb_neq in H0. now rewrite H0. }
      assert (Hs : bundle_spacing (advance g) = bundle_spacing g) by reflexivity.
      rewrite (IH (advance g) j Hdir Hj).
      * rewrite Hy, Hs. do 3 f_equal. rewrite Nat2Z.inj_succ. lia.
      * intros i Hi. rewrite Hy, Hs.
        specialize (Hne (i + 1)).
        replace (current_y g - bundle_spacing g - i * bundle_spacing g)
          with (current_y g - (i + 1) * bundle_spacing g) by lia.
        apply Hne. lia.
Qed.

Lemma unset_stays_unset g origins :
  starting_direction g = X_DIRECTION ->
  current_y g = -1 ->
  additional_break g = -1 ->
  Forall2 (fun o r => exists x, r = [(x, snd o)]) origins (fst (get_routes g origins)).
Proof.
  revert g; induction origins as [|[ox oy] rest IH]; intros g Hd Hy Hb.
  - constructor.
  - rewrite RouteGroupFacts.get_routes_cons. constructor.
    + exists (current_x g). unfold complex_route. rewrite Hd, Hy, Hb. reflexivity.
    + apply IH.
      * exact Hd.
      * unfold advance; cbn [current_y]. rewrite Hy. reflexivity.
      * unfold advance; cbn [additional_break]. rewrite Hb. reflexivity.
Qed.

End RouteGroupMore.

(** X1.  A generator on the Y axis hands out, call after call, a first
    waypoint in the column of the origin whose y goes down by the
    spacing: call [j] starts its route at [(origin_x, y0 - j * s)], as
    long as the stacked y was not -1 at an earlier call. *)
Theorem route_group_staggering_Y :
  forall (x0 y0 s brk : Z) (origins : list (Z * Z)) (j : nat) (ox oy : Z),
    nth_error origins j = Some (ox, oy) ->
    (forall i, 0 <= i < Z.of_nat j -> y0 - i * s <> -1) ->
    let g := fst (RouteGroup.init x0 y0 Y_DIRECTION s brk) in
    nth_error (map (@hd_error _) (fst (RouteGroup.get_routes g origins))) j =
    Some (Some (ox, y0 - Z.of_nat j * s)).
Proof.
  intros x0 y0 s brk origins j ox oy Hj Hne g. subst g.
  eapply RouteGroupMore.nth_first_waypoint_Y; [reflexivity|exact Hj|exact Hne].
Qed.

Lemma route_group_staggering_Y_witness :
  nth_error
    (map (@hd_error _)
         (fst (RouteGroup.get_routes
                 (fst (RouteGroup.init (-1) 640 Y_DIRECTION 10 (-1)))
                 [(1090, 820); (1270, 820); (1450, 820)]))) 2
  = Some (Some (1450, 640 - Z.of_nat 2 * 10)).
Proof.
  apply (@route_group_staggering_Y (-1) 640 10 (-1)
           [(1090, 820); (1270, 820); (1450, 820)] 2 1450 820).
  - reflexivity.
  - intros i Hi. simpl in Hi. lia.
Defined.

(** X2.  With a valid axis a route has one waypoint, plus one if the
    stacked coordinate of the other axis is set, plus one if the break
    is set; its first waypoint keeps the origin's y on the X axis and the
    origin's x on the Y axis; and when the other coordinate is set every
    leg of the route is vertical or horizontal. *)
Theorem route_shape :
  forall (g : RouteGroup.t) (ox oy : Z),
    let r := RouteGroup.complex_route g ox oy in
    let other := if RouteGroup.starting_direction g =? X_DIRECTION
                 then RouteGroup.current_y g else RouteGroup.current_x g in
    RouteGroup.starting_direction g = X_DIRECTION \/
    RouteGroup.starting_direction g = Y_DIRECTION ->
    List.length r = (1 + (if Z.eqb other (-1) then 0 else 1)
                       + (if Z.eqb (RouteGroup.additional_break g) (-1) then 0 else 1))%nat /\
    (RouteGroup.starting_direction g = X_DIRECTION -> route_first_y r = Some oy) /\
    (RouteGroup.starting_direction g = Y_DIRECTION -> RouteGroup.first_x r = Some ox) /\
    (other <> -1 -> orthogonal_path r).
Proof.
  intros g ox oy r other Hdir. subst r other. unfold RouteGroup.complex_route.
  destruct Hdir as [Hd|Hd]; rewrite Hd; cbn [Z.eqb X_DIRECTION Y_DIRECTION Pos.eqb];
    repeat split; try discriminate;
    try (destruct (_ =? -1), (_ =? -1); reflexivity);
    intros Hne; apply Z.eqb_neq in Hne; rewrite Hne;
    destruct (RouteGroup.additional_break g =? -1); cbn; unfold axis_aligned; cbn; tauto.
Qed.

Lemma route_shape_witness :
  let g := fst (RouteGroup.init (-300) 2500 X_DIRECTION 10 3000) in
  let r := RouteGroup.complex_route g 790 1000 in
  List.length r = 3%nat /\ route_first_y r = Some 1000 /\ orthogonal_path r.
Proof.
  intros g r.
  destruct (@route_shape g 790 1000 (or_introl eq_refl)) as [Hlen [Hy [_ Horth]]].
  split; [exact Hlen|]. split; [apply Hy; reflexivity|].
  apply Horth. simpl. discriminate.
Defined.

(** X3.  A generator on the X axis built without a stacked y and without
    a break never gains one: each of its routes is the single waypoint
    that keeps the origin's y. *)
Theorem route_group_single_waypoint :
  forall (x0 s : Z) (origins : list (Z * Z)),
    let g := fst (RouteGroup.init x0 (-1) X_DIRECTION s (-1)) in
    Forall2 (fun o r => exists x, r = [(x, snd o)])
            origins (fst (RouteGroup.get_routes g origins)).
Proof.
  intros x0 s origins g. subst g.
  apply RouteGroupMore.unset_stays_unset; reflexivity.
Qed.

(** ** Field lookup *)

(** X4.  [if_in] returns the value of the first listed key that the
    resource has, whatever later keys hold, and the empty string when
    the resource has none of them. *)
Theorem if_in_first_present :
  forall (resource : PyDict) (keys : list string),
    (forall before k after v,
        keys = before ++ k :: after ->
        Forall (fun k' => resource k' = None) before ->
        resource k = Some v ->
        if_in resource keys = v) /\
    (Forall (fun k => resource k = None) keys -> if_in resource keys = EmptyString).
Proof.
  intros resource keys. split.
  - intros before k after v -> Hb Hk.
    induction Hb as [|k' before Hk' _ IH]; simpl.
    + now rewrite Hk.
    + now rewrite Hk'.
  - induction 1 as [|k rest Hk _ IH]; simpl.
    + reflexivity.
    + now rewrite Hk.
Qed.

Lemma if_in_first_present_witness :
  let route : PyDict :=
    fun k => if String.eqb k "NetworkInterfaceId" then Some "eni-1"%string
             else if String.eqb k "VpcPeeringConnectionId" then Some "pcx-1"%string
             else None in
  if_in route ["GatewayId"; "NetworkInterfaceId"; "VpcPeeringConnectionId"]%string
  = "eni-1"%string /\
  if_in route ["State"; "Origin"]%string = EmptyString.
Proof.
  intros route.
  destruct (@if_in_first_present route
              ["GatewayId"; "NetworkInterfaceId"; "VpcPeeringConnectionId"]%string)
    as [Hfirst _].
  destruct (@if_in_first_present route ["State"; "Origin"]%string) as [_ Hnone].
  split.
  - apply (Hfirst ["GatewayId"%string] "NetworkInterfaceId"%string
                  ["VpcPeeringConnectionId"%string]).
    + reflexivity.
    + repeat constructor.
    + reflexivity.
  - apply Hnone. repeat constructor.
Defined.

Lemma first_tag_app key before k v after :
  first_tag key before = None ->
  first_tag key (before ++ (k, v) :: after) =
  if String.eqb k key then Some v else first_tag key after.
Proof.
  induction before as [|[k' v'] before IH]; simpl; intros H.
  - reflexivity.
  - destruct (String.eqb k' key); [discriminate H|]. now apply IH.
Qed.

(** X5.  The name of a resource is the value of its first ['Name'] tag,
    wherever a CloudFormation logical-id tag stands; without a ['Name']
    tag it is the value of the first logical-id tag; with neither, or
    with no tags at all, it is the empty string. *)
Theorem name_from_tags_priority :
  forall (before after : list Tag) (v : string),
    (first_tag "Name" before = None ->
     name_from_tags (Some (before ++ ("Name"%string, v) :: after)) = v) /\
    (first_tag "Name" (before ++ after) = None ->
     first_tag SECOND_NAME_FIELD before = None ->
     name_from_tags (Some (before ++ (SECOND_NAME_FIELD, v) :: after)) = v) /\
    (first_tag "Name" before = None ->
     first_tag SECOND_NAME_FIELD before = None ->
     name_from_tags (Some before) = EmptyString) /\
    name_from_tags None = EmptyString.
Proof.
  intros before after v. repeat split.
  - intros Hb. unfold name_from_tags.
    rewrite first_tag_app by assumption. reflexivity.
  - intros Hn Hb. unfold name_from_tags.
    assert (Hn1 : first_tag "Name" before = None /\ first_tag "Name" after = None).
    { clear Hb. induction before as [|[k' v'] before IH]; simpl in *.
      - now split.
      - destruct (String.eqb k' "Name"); [discriminate Hn|]. now apply IH. }
    destruct Hn1 as [Hn1 Hn2].
    rewrite (@first_tag_app "Name" before SECOND_NAME_FIELD v after Hn1).
    change (String.eqb SECOND_NAME_FIELD "Name") with false. cbv iota.
    rewrite Hn2.
    rewrite (@first_tag_app SECOND_NAME_FIELD before SECOND_NAME_FIELD v after Hb).
    rewrite String.eqb_refl. reflexivity.
  - intros Hn Hb. unfold name_from_tags. now rewrite Hn, Hb.
Qed.

Lemma name_from_tags_priority_witness :
  name_from_tags
    (Some ([(SECOND_NAME_FIELD, "PublicSubnetA"); ("env", "prod")]%string
           ++ ("Name", "public-a")%string :: [("Name", "other")]%string))
  = "public-a"%string.
Proof.
  apply (@name_from_tags_priority
           [(SECOND_NAME_FIELD, "PublicSubnetA"); ("env", "prod")]%string
           [("Name", "other")]%string "public-a"%string).
  reflexivity.
Defined.

(** ** The CIDR comparison on well-formed and on real input *)

Lemma cmp_cidr_numeric_antisym l1 :
  forall l2, Forall numeric l1 -> Forall numeric l2 ->
             cmp_cidr l1 l2 = - cmp_cidr l2 l1.
Proof.
  induction l1 as [|a l1 IH]; intros l2 H1 H2.
  - rewrite cmp_cidr_nil_r. reflexivity.
  - destruct l2 as [|b l2]; [reflexivity|].
    inversion H1 as [|? ? [va Ha] H1']; subst.
    inversion H2 as [|? ? [vb Hb] H2']; subst.
    cbn [cmp_cidr]. rewrite Ha, Hb, !Z.gtb_ltb.
    destruct (Z.ltb_spec va vb), (Z.ltb_spec vb va); try lia; try reflexivity.
    now apply IH.
Qed.

Lemma cmp_cidr_numeric_zero l1 :
  forall l2, Forall numeric l1 -> Forall numeric l2 ->
             List.length l1 = List.length l2 ->
             (cmp_cidr l1 l2 = 0 <-> map py_int l1 = map py_int l2).
Proof.
  induction l1 as [|a l1 IH]; intros l2 H1 H2 Hlen.
  - destruct l2; [|discriminate Hlen]. split; reflexivity.
  - destruct l2 as [|b l2]; [discriminate Hlen|].
    inversion H1 as [|? ? [va Ha] H1']; subst.
    inversion H2 as [|? ? [vb Hb] H2']; subst.
    injection Hlen as Hlen.
    cbn [cmp_cidr map]. rewrite Ha, Hb, Z.gtb_ltb.
    destruct (Z.ltb_spec va vb); [|destruct (Z.ltb_spec vb va)].
    + split; [discriminate|]. intros E. injection E as E _. lia.
    + split; [discriminate|]. intros E. injection E as E _. lia.
    + assert (va = vb) by lia. subst vb.
      rewrite (IH l2 H1' H2' Hlen). split.
      * intros E. now rewrite E.
      * intros E. now injection E.
Qed.

Lemma cmp_cidr_numeric_trans l1 :
  forall l2 l3,
    Forall numeric l1 -> Forall numeric l2 -> Forall numeric l3 ->
    List.length l1 = List.length l2 -> List.length l2 = List.length l3 ->
    cmp_cidr l1 l2 = -1 -> cmp_cidr l2 l3 = -1 -> cmp_cidr l1 l3 = -1.
Proof.
  induction l1 as [|a l1 IH]; intros l2 l3 H1 H2 H3 L12 L23 C12 C23.
  - discriminate C12.
  - destruct l2 as [|b l2]; [discriminate L12|].
    destruct l3 as [|c l3]; [discriminate L23|].
    inversion H1 as [|? ? [va Ha] H1']; subst.
    inversion H2 as [|? ? [vb Hb] H2']; subst.
    inversion H3 as [|? ? [vc Hc] H3']; subst.
    injection L12 as L12. injection L23 as L23.
    cbn [cmp_cidr] in *. rewrite Ha, Hb, Hc, ?Z.gtb_ltb in *.
    destruct (Z.ltb_spec va vb), (Z.ltb_spec vb va), (Z.ltb_spec vb vc),
             (Z.ltb_spec vc vb), (Z.ltb_spec va vc), (Z.ltb_spec vc va);
      try lia; try congruence; try reflexivity.
    apply (IH l2 l3); assumption.
Qed.

(** X6.  On dotted fields that all parse as integers the comparison is
    the numeric field-by-field order: swapping the arguments negates the
    result, two lists of the same length compare equal exactly when
    their integers are the same, and "before" is transitive. *)
Theorem cmp_cidr_numeric_order :
  forall l1 l2 l3 : list string,
    Forall numeric l1 -> Forall numeric l2 -> Forall numeric l3 ->
    cmp_cidr l1 l2 = - cmp_cidr l2 l1 /\
    (List.length l1 = List.length l2 ->
     (cmp_cidr l1 l2 = 0 <-> map py_int l1 = map py_int l2)) /\
    (List.length l1 = List.length l2 -> List.length l2 = List.length l3 ->
     cmp_cidr l1 l2 = -1 -> cmp_cidr l2 l3 = -1 -> cmp_cidr l1 l3 = -1).
Proof.
  intros l1 l2 l3 H1 H2 H3. split; [|split].
  - now apply cmp_cidr_numeric_antisym.
  - now apply cmp_cidr_numeric_zero.
  - intros. eapply cmp_cidr_numeric_trans with (l2 := l2); eassumption.
Qed.

Lemma cmp_cidr_numeric_order_witness :
  let l1 := ["10"; "0"; "1"; "0"]%string in
  let l2 := ["10"; "0"; "10"; "0"]%string in
  let l3 := ["172"; "16"; "0"; "0"]%string in
  cmp_cidr l1 l2 = - cmp_cidr l2 l1 /\ cmp_cidr l1 l2 = -1 /\ cmp_cidr l1 l3 = -1.
Proof.
  intros l1 l2 l3.
  assert (N : forall l, In l [l1; l2; l3] -> Forall numeric l).
  { intros l [<-|[<-|[<-|[]]]];
      repeat constructor; eexists; reflexivity. }
  destruct (@cmp_cidr_numeric_order l1 l2 l3) as [Ha [_ Ht]];
    try (apply N; simpl; tauto).
  split; [exact Ha|]. split; [reflexivity|].
  apply Ht; reflexivity.
Defined.

Lemma digits_value_slash s :
  In "/"%char (list_ascii_of_string s) -> forall acc, digits_value acc s = None.
Proof.
  induction s as [|c s IH]; simpl; intros H acc.
  - destruct H.
  - destruct H as [->|H]; [reflexivity|].
    destruct (is_digit c); [now apply IH|reflexivity].
Qed.

Lemma rstrip_keeps c s :
  is_space c = false ->
  In c (list_ascii_of_string s) -> In c (list_ascii_of_string (rstrip s)).
Proof.
  intros Hc. induction s as [|d s IH]; simpl; intros H.
  - destruct H.
  - destruct H as [->|H].
    + destruct (rstrip s); [rewrite Hc|]; simpl; auto.
    + specialize (IH H). destruct (rstrip s); [destruct IH|].
      simpl. right. exact IH.
Qed.

Lemma lstrip_keeps c s :
  is_space c = false ->
  In c (list_ascii_of_string s) -> In c (list_ascii_of_string (lstrip s)).
Proof.
  intros Hc. induction s as [|d s IH]; simpl; intros H.
  - destruct H.
  - destruct (is_space d) eqn:Ed.
    + destruct H as [->|H]; [congruence|now apply IH].
    + exact H.
Qed.

(** A field with a slash in it, such as the last field of a CIDR block,
    is not an integer for [int()]. *)
Lemma py_int_slash s :
  In "/"%char (list_ascii_of_string s) -> py_int s = None.
Proof.
  intros H. unfold py_int.
  apply (rstrip_keeps "/" s eq_refl), (lstrip_keeps "/" _ eq_refl) in H.
  destruct (lstrip (rstrip s)) as [|c t]; [destruct H|].
  assert (Hu : forall u, In "/"%char (list_ascii_of_string u) -> unsigned_value u = None).
  { intros u Hu. unfold unsigned_value. destruct u; [destruct Hu|].
    now apply digits_value_slash. }
  assert (Ht : (c = "+" \/ c = "-")%char -> unsigned_value t = None).
  { intros Hc. apply Hu. simpl in H. destruct H as [E0|H]; [|exact H].
    rewrite E0 in Hc. destruct Hc as [E|E]; discriminate E. }
  destruct c as [[] [] [] [] [] [] [] []];
    try (apply Hu; exact H);
    try (rewrite Ht; [reflexivity|auto]).
Qed.

(** X7.  Two CIDR blocks whose fields before the last one are the same
    integers are each ordered before the other: their last fields carry
    the prefix length after a slash, neither parses, and the comparison
    answers -1 whichever comes first. *)
Theorem cmp_cidr_same_prefix :
  forall (p q : list string) (a b : string),
    Forall2 same_int p q ->
    In "/"%char (list_ascii_of_string a) ->
    In "/"%char (list_ascii_of_string b) ->
    cmp_cidr (p ++ [a]) (q ++ [b]) = -1 /\
    cmp_cidr (q ++ [b]) (p ++ [a]) = -1.
Proof.
  intros p q a b Hpq Ha Hb.
  pose proof (Forall2_same_int_sym Hpq) as Hqp.
  apply py_int_slash in Ha, Hb.
  split; rewrite cmp_cidr_common_prefix by assumption; simpl.
  - now rewrite Ha.
  - now rewrite Hb.
Qed.

Lemma cmp_cidr_same_prefix_witness :
  cmp_route (mkRoute "10.0.0.0/16" "active" "local" "Create Table")
            (mkRoute "10.0.0.128/25" "active" "nat-1" "Create Route") = -1 /\
  cmp_route (mkRoute "10.0.0.128/25" "active" "nat-1" "Create Route")
            (mkRoute "10.0.0.0/16" "active" "local" "Create Table") = -1.
Proof.
  apply (@cmp_cidr_same_prefix ["10"; "0"; "0"]%string ["10"; "0"; "0"]%string
                               "0/16" "128/25").
  - repeat constructor; eexists; split; reflexivity.
  - simpl. tauto.
  - simpl. tauto.
Defined.

(** ** The order of the routes of a route table *)

Lemma local_steps_spec rest :
  forall front,
    fold_left local_step (seq (List.length front) (List.length rest)) (front ++ rest) =
    rev (filter is_local rest) ++ front ++ filter (fun r => negb (is_local r)) rest.
Proof.
  induction rest as [|r rest IH]; intros front.
  - simpl. now rewrite app_nil_r.
  - cbn [List.length seq fold_left filter].
    assert (Hnth : nth_error (front ++ r :: rest) (List.length front) = Some r).
    { rewrite nth_error_app2 by lia. now rewrite Nat.sub_diag. }
    unfold local_step at 2. rewrite Hnth. fold (is_local r).
    destruct (is_local r) eqn:Er; cbn [negb rev].
    + assert (Hpop : pop_at (List.length front) (front ++ r :: rest) = front ++ rest).
      { unfold pop_at.
        rewrite firstn_app, Nat.sub_diag, firstn_all, firstn_O, app_nil_r.
        rewrite skipn_app, skipn_all2 by lia.
        replace (S (List.length front) - List.length front)%nat with 1%nat by lia.
        reflexivity. }
      rewrite Hpop.
      change (r :: front ++ rest) with ((r :: front) ++ rest).
      change (S (List.length front)) with (List.length (r :: front)).
      rewrite IH. rewrite <- !app_assoc. reflexivity.
    + replace (front ++ r :: rest) with ((front ++ [r]) ++ rest)
        by (rewrite <- app_assoc; reflexivity).
      replace (S (List.length front)) with (List.length (front ++ [r]))
        by (rewrite length_app; simpl; lia).
      rewrite IH. rewrite <- !app_assoc. reflexivity.
Qed.

Lemma filter_split_Permutation (A : Type) (f : A -> bool) l :
  Permutation (filter f l ++ filter (fun x => negb (f x)) l) l.
Proof.
  induction l as [|x l IH]; simpl.
  - constructor.
  - destruct (f x); simpl.
    + now constructor.
    + eapply perm_trans; [apply Permutation_sym, Permutation_middle|].
      now constructor.
Qed.

(** X8.  [sort_routes] returns the routes whose gateway is ['local']
    first, in the reverse of their CIDR order, and then the other routes
    in their CIDR order; no route is lost or repeated. *)
Theorem sort_routes_spec :
  forall rt : RouteTableResource,
    let cidr_sorted := py_sorted cmp_route (routes rt) in
    sort_routes rt =
    rev (filter is_local cidr_sorted)
    ++ filter (fun r => negb (is_local r)) cidr_sorted /\
    Permutation (sort_routes rt) (routes rt).
Proof.
  intros rt cidr_sorted.
  assert (H : sort_routes rt =
              rev (filter is_local cidr_sorted)
              ++ filter (fun r => negb (is_local r)) cidr_sorted).
  { unfold sort_routes, local_to_front. fold cidr_sorted.
    apply (local_steps_spec cidr_sorted []). }
  split; [exact H|]. rewrite H.
  eapply perm_trans; [apply Permutation_app_tail, Permutation_sym, Permutation_rev|].
  eapply perm_trans; [apply filter_split_Permutation|].
  apply py_sorted_Permutation.
Qed.

(** ** The zone of a route table and the order of the route tables *)

Lemma py_max_by_max (A : Type) (key : A -> nat) (l : list A) :
  forall best x, In x (best :: l) -> (key x <= key (py_max_by key best l))%nat.
Proof.
  induction l as [|a t IH]; intros best x Hx; simpl.
  - destruct Hx as [<-|[]]. lia.
  - destruct (Nat.ltb_spec (key best) (key a)) as [Hlt|Hge].
    + destruct Hx as [<-|Hx].
      * etransitivity; [|apply (IH a a); now left]. lia.
      * now apply IH.
    + destruct Hx as [<-|[<-|Hx]].
      * apply IH. now left.
      * etransitivity; [exact Hge|]. apply IH. now left.
      * apply IH. now right.
Qed.

(** X9.  A route table without zone connections suggests [NO_AZ];
    otherwise it suggests one of its recorded zones, and no zone is
    recorded more often than the suggested one, whatever order the set
    of zones is iterated in. *)
Theorem suggested_az_majority :
  forall (py_set : list string -> list string) (rt : RouteTableResource),
    (forall l a, In a (py_set l) <-> In a l) ->
    (az_connections rt = [] -> get_suggested_az py_set rt = NO_AZ) /\
    (az_connections rt <> [] ->
     In (get_suggested_az py_set rt) (az_connections rt) /\
     forall a, (count_occ string_dec (az_connections rt) a
                <= count_occ string_dec (az_connections rt)
                             (get_suggested_az py_set rt))%nat).
Proof.
  intros py_set rt Hset. split.
  - intros E. unfold get_suggested_az. now rewrite E.
  - intros Hne. split; [now apply get_suggested_az_In|].
    intros a. unfold get_suggested_az.
    destruct (az_connections rt) as [|z zs] eqn:E; [contradiction|].
    destruct (py_set (z :: zs)) as [|b t] eqn:Es.
    + assert (H : In z (py_set (z :: zs))) by (apply Hset; now left).
      rewrite Es in H. destruct H.
    + destruct (in_dec string_dec a (z :: zs)) as [Hin|Hnin].
      * apply (@py_max_by_max _ (fun a => count_occ string_dec (z :: zs) a) t b a).
        rewrite <- Es. now apply Hset.
      * apply (count_occ_not_In string_dec) in Hnin. rewrite Hnin. lia.
Qed.

Lemma suggested_az_majority_witness :
  let rt := mkRT "rtb-1" [] [] ""
                 ["us-east-1b"; "us-east-1a"; "us-east-1b"]%string in
  get_suggested_az (nodup string_dec) rt = "us-east-1b"%string /\
  (count_occ string_dec (az_connections rt) "us-east-1a"%string
   <= count_occ string_dec (az_connections rt) "us-east-1b"%string)%nat.
Proof.
  intros rt.
  destruct (@suggested_az_majority (nodup string_dec) rt
              (fun l a => nodup_In string_dec l a)) as [_ H].
  destruct H as [_ Hmax]; [discriminate|].
  split; [reflexivity|]. apply (Hmax "us-east-1a"%string).
Defined.

Section SortByKey.

Variable A : Type.
Variable key : A -> Res Z.

Lemma cmp_by_key_inv a b c :
  cmp_by_key key a b = Ok c ->
  exists i j, key a = Ok i /\ key b = Ok j /\ c = py_cmp i j.
Proof.
  unfold cmp_by_key. intros H.
  apply bind_Ok_inv in H. destruct H as [i [Hi H]].
  apply bind_Ok_inv in H. destruct H as [j [Hj H]].
  injection H as <-. now exists i, j.
Qed.

Lemma py_cmp_neg i j : (py_cmp i j <? 0) = (i <? j).
Proof.
  unfold py_cmp. rewrite Z.gtb_ltb.
  destruct (Z.ltb_spec i j); [reflexivity|].
  destruct (Z.ltb_spec j i); reflexivity.
Qed.

Lemma insert_sorted_res_Sorted x l :
  forall l',
    Sorted (key_le key) l ->
    insert_sorted_res (cmp_by_key key) x l = Ok l' ->
    Sorted (key_le key) l' /\
    forall y, HdRel (key_le key) y l -> key_le key y x -> HdRel (key_le key) y l'.
Proof.
  induction l as [|z t IH]; intros l' Hs H.
  - injection H as <-. split.
    + repeat constructor.
    + intros y _ Hy. now constructor.
  - cbn [insert_sorted_res] in H.
    apply bind_Ok_inv in H. destruct H as [c [Hc H]].
    apply cmp_by_key_inv in Hc. destruct Hc as [i [j [Hi [Hj ->]]]].
    rewrite py_cmp_neg in H.
    inversion Hs as [|? ? Hst Hhd]; subst.
    destruct (Z.ltb_spec i j) as [Hlt|Hge].
    + injection H as <-. split.
      * constructor; [exact Hs|]. constructor. exists i, j. repeat split; trivial. lia.
      * intros y _ Hy. now constructor.
    + apply bind_Ok_inv in H. destruct H as [t' [Ht' H]].
      injection H as <-.
      destruct (IH t' Hst Ht') as [Hs' Hhd'].
      split.
      * constructor; [exact Hs'|]. apply Hhd'; [exact Hhd|].
        exists j, i. repeat split; trivial.
      * intros y Hy _. inversion Hy; subst. now constructor.
Qed.

Lemma sorted_res_from_Sorted l :
  forall acc l',
    Sorted (key_le key) acc ->
    sorted_res_from (cmp_by_key key) acc l = Ok l' ->
    Sorted (key_le key) l'.
Proof.
  induction l as [|x t IH]; intros acc l' Hs H.
  - now injection H as <-.
  - cbn [sorted_res_from] in H.
    apply bind_Ok_inv in H. destruct H as [acc' [Hacc' H]].
    apply (IH acc' l'); [|exact H].
    exact (proj1 (@insert_sorted_res_Sorted x acc acc' Hs Hacc')).
Qed.

Lemma insert_sorted_res_checked x l l' :
  keys_checked key l ->
  insert_sorted_res (cmp_by_key key) x l = Ok l' ->
  keys_checked key l'.
Proof.
  intros Hl H.
  pose proof (insert_sorted_res_Permutation _ _ _ H) as HP.
  destruct l as [|z t].
  - injection H as <-. left. simpl. lia.
  - right. apply (Permutation_Forall (Permutation_sym HP)).
    cbn [insert_sorted_res] in H.
    apply bind_Ok_inv in H. destruct H as [c [Hc _]].
    apply cmp_by_key_inv in Hc. destruct Hc as [i [j [Hi [Hj _]]]].
    constructor; [eauto|].
    destruct Hl as [Hlen|Hall]; [|exact Hall].
    destruct t; [|simpl in Hlen; lia]. constructor; [eauto|constructor].
Qed.

Lemma sorted_res_from_checked l :
  forall acc l',
    keys_checked key acc ->
    sorted_res_from (cmp_by_key key) acc l = Ok l' ->
    keys_checked key l'.
Proof.
  induction l as [|x t IH]; intros acc l' Hacc H.
  - now injection H as <-.
  - cbn [sorted_res_from] in H.
    apply bind_Ok_inv in H. destruct H as [acc' [Hacc' H]].
    apply (IH acc' l'); [|exact H].
    exact (@insert_sorted_res_checked x acc acc' Hacc Hacc').
Qed.

Hypothesis key_raises : forall a e, key a = Raise e -> e = ValueError.

Lemma insert_sorted_res_raises x l e :
  insert_sorted_res (cmp_by_key key) x l = Raise e -> e = ValueError.
Proof.
  induction l as [|z t IH]; cbn [insert_sorted_res]; intros H.
  - discriminate H.
  - destruct (cmp_by_key key x z) as [c|e1] eqn:Ec; cbn [bind] in H.
    + destruct (c <? 0); [discriminate H|].
      destruct (insert_sorted_res (cmp_by_key key) x t) as [t'|e3]; cbn [bind] in H.
      * discriminate H.
      * injection H as <-. now apply IH.
    + injection H as <-. unfold cmp_by_key in Ec.
      destruct (key x) as [i|e2] eqn:Ex; cbn [bind] in Ec;
        [|injection Ec as <-; eapply key_raises, Ex].
      destruct (key z) as [j|e3] eqn:Ez; cbn [bind] in Ec;
        [discriminate Ec|injection Ec as <-; eapply key_raises, Ez].
Qed.

Lemma sorted_res_from_raises l :
  forall acc e, sorted_res_from (cmp_by_key key) acc l = Raise e -> e = ValueError.
Proof.
  induction l as [|x t IH]; intros acc e H; cbn [sorted_res_from] in H.
  - discriminate H.
  - destruct (insert_sorted_res (cmp_by_key key) x acc) as [acc'|e1] eqn:E;
      cbn [bind] in H.
    + eapply IH, H.
    + injection H as <-. eapply insert_sorted_res_raises, E.
Qed.

End SortByKey.

Lemma py_index_raises x l e : py_index x l = Raise e -> e = ValueError.
Proof.
  induction l as [|y t IH]; simpl; intros H.
  - now injection H.
  - destruct (String.eqb y x); [discriminate H|].
    destruct (py_index x t) as [i|e1]; cbn [bind] in H; [discriminate H|].
    injection H as <-. now apply IH.
Qed.

Lemma py_index_bounds x l i :
  py_index x l = Ok i -> 0 <= i < Z.of_nat (List.length l).
Proof.
  revert i. induction l as [|y t IH]; simpl; intros i H.
  - discriminate H.
  - destruct (String.eqb y x).
    + injection H as <-. lia.
    + apply bind_Ok_inv in H. destruct H as [j [Hj H]].
      injection H as <-. specialize (IH j Hj). lia.
Qed.

Lemma py_index_last x l :
  ~ In x l -> py_index x (l ++ [x]) = Ok (Z.of_nat (List.length l)).
Proof.
  induction l as [|y t IH]; simpl; intros H.
  - now rewrite String.eqb_refl.
  - destruct (String.eqb_spec y x) as [->|_]; [exfalso; auto|].
    rewrite IH by auto. cbn [bind]. f_equal. lia.
Qed.

Lemma sort_rt_resources_by_rank py_set v :
  check_empty v = false ->
  sort_rt_resources py_set v =
  sorted_res_from (cmp_by_key (az_rank py_set v)) [] (rt_list v).
Proof.
  intros He. unfold sort_rt_resources. rewrite He. reflexivity.
Qed.

(** X10.  When [sort_rt_resources] returns, it returns the registered
    route tables, each once, in the order of the rank of their suggested
    zone: the ranks of two neighbours are both found and do not go down.
    A route table without zone connections has the last rank there is,
    as long as no zone is itself called [NO_AZ]. *)
Theorem sort_rt_resources_order :
  forall (py_set : list string -> list string) (v : VpcResource)
         (l : list RouteTableResource),
    sort_rt_resources py_set v = Ok l ->
    Permutation l (rt_list v) /\
    Sorted (key_le (az_rank py_set v)) l /\
    (forall rt i, az_rank py_set v rt = Ok i ->
                  0 <= i <= Z.of_nat (List.length (az_list v))) /\
    (forall rt, az_connections rt = [] ->
                ~ In NO_AZ (map az_id (az_list v)) ->
                az_rank py_set v rt = Ok (Z.of_nat (List.length (az_list v)))).
Proof.
  intros py_set v l H. split; [|split; [|split]].
  - eapply sort_rt_resources_Permutation, H.
  - destruct (check_empty v) eqn:He.
    + unfold sort_rt_resources in H. rewrite He in H. injection H as <-. constructor.
    + rewrite sort_rt_resources_by_rank in H by assumption.
      eapply sorted_res_from_Sorted; [|exact H]. constructor.
  - intros rt i Hi. unfold az_rank in Hi. apply py_index_bounds in Hi.
    rewrite length_app, length_map in Hi. simpl in Hi. lia.
  - intros rt Hrt Hno. unfold az_rank, get_suggested_az. rewrite Hrt.
    rewrite py_index_last by assumption. now rewrite length_map.
Qed.

Lemma sort_rt_resources_order_witness :
  let local := mkRoute "10.0.0.0/16" "active" "local" "Create Table" in
  let rt_b := mkRT "rtb-b" [] [local] "" ["us-east-1b"]%string in
  let rt_none := mkRT "rtb-main" [] [local] "" [] in
  let rt_a := mkRT "rtb-a" [] [local] "" ["us-east-1a"]%string in
  let v := mkVpc "vpc-1" [mkAZ "us-east-1a" [] (false, 0); mkAZ "us-east-1b" [] (false, 0)]
                 [] [rt_b; rt_none; rt_a] "" "10.0.0.0/16" [] [] in
  sort_rt_resources (nodup string_dec) v = Ok [rt_a; rt_b; rt_none] /\
  Sorted (key_le (az_rank (nodup string_dec) v)) [rt_a; rt_b; rt_none].
Proof.
  intros local rt_b rt_none rt_a v.
  assert (H : sort_rt_resources (nodup string_dec) v = Ok [rt_a; rt_b; rt_none])
    by reflexivity.
  split; [exact H|].
  apply (@sort_rt_resources_order (nodup string_dec) v _ H).
Defined.

(** X11.  [sort_rt_resources] returns whenever fewer than two route
    tables are registered or the suggested zone of every route table is
    found among the zones and [NO_AZ]; with two route tables or more, one
    suggested zone that is not found makes it raise [ValueError]. *)
Theorem sort_rt_resources_raises_iff :
  forall (py_set : list string -> list string) (v : VpcResource),
    ((List.length (rt_list v) <= 1)%nat \/
     Forall (fun rt => exists i, az_rank py_set v rt = Ok i) (rt_list v) ->
     exists l, sort_rt_resources py_set v = Ok l) /\
    ((2 <= List.length (rt_list v))%nat ->
     Exists (fun rt => az_rank py_set v rt = Raise ValueError) (rt_list v) ->
     sort_rt_resources py_set v = Raise ValueError).
Proof.
  intros py_set v. split.
  - intros H. destruct (check_empty v) eqn:He.
    + unfold sort_rt_resources. rewrite He. eauto.
    + rewrite sort_rt_resources_by_rank by assumption.
      destruct H as [Hlen|Hall].
      * destruct (rt_list v) as [|rt [|rt' rest]];
          [now exists [] | now exists [rt] | simpl in Hlen; lia].
      * apply sorted_res_from_total
          with (P := fun rt => exists i, az_rank py_set v rt = Ok i).
        -- intros x y [i Hi] [j Hj]. unfold cmp_by_key. rewrite Hi, Hj.
           cbn [bind]. eauto.
        -- exact Hall.
        -- constructor.
  - intros Hlen Hex.
    assert (He : check_empty v = false).
    { unfold check_empty. destruct (rt_list v); [simpl in Hlen; lia|].
      now destruct (az_list v), (nacl_list v). }
    rewrite sort_rt_resources_by_rank by assumption.
    destruct (sorted_res_from (cmp_by_key (az_rank py_set v)) [] (rt_list v))
      as [l|e] eqn:E.
    + exfalso.
      pose proof (sorted_res_from_Permutation _ _ _ E) as HP. simpl in HP.
      assert (Hk : keys_checked (az_rank py_set v) l).
      { eapply sorted_res_from_checked; [|exact E]. left. simpl. lia. }
      destruct Hk as [Hl|Hall].
      * rewrite (Permutation_length HP) in Hl. lia.
      * apply (Permutation_Forall HP) in Hall.
        apply Exists_exists in Hex. destruct Hex as [rt [Hin Hrt]].
        rewrite Forall_forall in Hall. destruct (Hall rt Hin) as [i Hi].
        congruence.
    + f_equal. eapply sorted_res_from_raises; [|exact E].
      intros a e0 Ha. eapply py_index_raises, Ha.
Qed.

Lemma sort_rt_resources_raises_iff_witness :
  let local := mkRoute "10.0.0.0/16" "active" "local" "Create Table" in
  let rt_lost := mkRT "rtb-1" [] [local] "" [""]%string in
  let rt_a := mkRT "rtb-2" [] [local] "" ["us-east-1a"]%string in
  let az := mkAZ "us-east-1a" [] (false, 0) in
  (exists l, sort_rt_resources (nodup string_dec)
               (mkVpc "vpc-1" [az] [] [rt_lost] "" "" [] []) = Ok l) /\
  sort_rt_resources (nodup string_dec)
    (mkVpc "vpc-1" [az] [] [rt_lost; rt_a] "" "" [] []) = Raise ValueError.
Proof.
  intros local rt_lost rt_a az. split.
  - apply (@sort_rt_resources_raises_iff (nodup string_dec)
             (mkVpc "vpc-1" [az] [] [rt_lost] "" "" [] [])).
    left. simpl. lia.
  - apply (@sort_rt_resources_raises_iff (nodup string_dec)
             (mkVpc "vpc-1" [az] [] [rt_lost; rt_a] "" "" [] [])).
    + simpl. lia.
    + apply Exists_cons_hd. reflexivity.
Defined.

(** ** The rows and the panel of a network ACL *)

Lemma insert_sorted_by_key_Sorted (A : Type) (key : A -> Z) x l :
  Sorted (fun a b => key a <= key b) l ->
  Sorted (fun a b => key a <= key b)
         (insert_sorted (fun a b => py_cmp (key a) (key b)) x l) /\
  forall y, HdRel (fun a b => key a <= key b) y l -> key y <= key x ->
            HdRel (fun a b => key a <= key b) y
                  (insert_sorted (fun a b => py_cmp (key a) (key b)) x l).
Proof.
  induction l as [|z t IH]; intros Hs; cbn [insert_sorted].
  - split; [repeat constructor|]. intros y _ Hy. now constructor.
  - rewrite py_cmp_neg. inversion Hs as [|? ? Hst Hhd]; subst.
    destruct (Z.ltb_spec (key x) (key z)).
    + split.
      * constructor; [exact Hs|]. constructor. lia.
      * intros y _ Hy. now constructor.
    + destruct (IH Hst) as [Hs' Hhd']. split.
      * constructor; [exact Hs'|]. apply Hhd'; [exact Hhd|lia].
      * intros y Hy _. inversion Hy; subst. now constructor.
Qed.

Lemma py_sorted_by_key_Sorted (A : Type) (key : A -> Z) l :
  Sorted (fun a b => key a <= key b)
         (py_sorted (fun a b => py_cmp (key a) (key b)) l).
Proof.
  unfold py_sorted.
  assert (H : forall acc, Sorted (fun a b => key a <= key b) acc ->
                          Sorted (fun a b => key a <= key b)
                                 (fold_left (fun acc x =>
                                               insert_sorted
                                                 (fun a b => py_cmp (key a) (key b)) x acc)
                                            l acc)).
  { induction l as [|x t IH]; intros acc Hacc; cbn [fold_left].
    - exact Hacc.
    - apply IH. now apply insert_sorted_by_key_Sorted. }
  apply H. constructor.
Qed.

Lemma add_rules_spec rules :
  forall n,
    rules_egress (fold_left add_rule rules n) =
    rules_egress n ++ filter egress rules /\
    rules_ingress (fold_left add_rule rules n) =
    rules_ingress n ++ filter (fun r => negb (egress r)) rules.
Proof.
  induction rules as [|r rest IH]; intros n; cbn [fold_left filter].
  - now rewrite !app_nil_r.
  - destruct (IH (add_rule n r)) as [He Hi]. rewrite He, Hi.
    unfold add_rule. destruct (egress r); cbn [negb rules_egress rules_ingress];
      rewrite <- ?app_assoc; split; reflexivity.
Qed.

(** X12.  After any series of [add_rule] calls on a fresh ACL, the rows
    of its list panel are the egress rules, then one horizontal line,
    then the ingress rules; each group holds exactly the rules added
    with that direction and is in ascending order of rule number. *)
Theorem nacl_rows_order :
  forall rules : list Rule,
    let n := fold_left add_rule rules (mkNAclRules [] []) in
    exists out_rows in_rows,
      nacl_rows n = map RuleRow out_rows ++ [HORIZONTAL_LINE] ++ map RuleRow in_rows /\
      Permutation out_rows (filter egress rules) /\
      Permutation in_rows (filter (fun r => negb (egress r)) rules) /\
      Sorted (fun a b => rule_number a <= rule_number b) out_rows /\
      Sorted (fun a b => rule_number a <= rule_number b) in_rows /\
      List.length (nacl_rows n) = S (List.length rules).
Proof.
  intros rules n.
  destruct (add_rules_spec rules (mkNAclRules [] [])) as [He Hi].
  fold n in He, Hi. cbn [rules_egress rules_ingress app] in He, Hi.
  exists (sort_rules (rules_egress n)), (sort_rules (rules_ingress n)).
  assert (HPe : Permutation (sort_rules (rules_egress n)) (filter egress rules))
    by (rewrite <- He; apply py_sorted_Permutation).
  assert (HPi : Permutation (sort_rules (rules_ingress n))
                            (filter (fun r => negb (egress r)) rules))
    by (rewrite <- Hi; apply py_sorted_Permutation).
  repeat split; trivial.
  - apply (py_sorted_by_key_Sorted rule_number).
  - apply (py_sorted_by_key_Sorted rule_number).
  - unfold nacl_rows. rewrite !length_app, !length_map. cbn [List.length].
    rewrite (Permutation_length HPe), (Permutation_length HPi).
    rewrite <- (Permutation_length (filter_split_Permutation egress rules)).
    rewrite length_app. lia.
Qed.

Lemma quot_2_bounds a : a - 1 <= 2 * Z.quot a 2 <= a + 1.
Proof.
  pose proof (Z.quot_rem' a 2) as Hq.
  pose proof (Z.rem_bound_abs a 2 ltac:(lia)) as Hr.
  lia.
Qed.

Lemma NAcl_list_rect_spec line_height int_mul_3_5 n x :
  let r := NAcl_list_rect line_height int_mul_3_5 n x in
  ry r = PADDING /\ rw r = 540 /\
  rx r = int_mul_3_5 (x - VPC_GUTTER_DIM) - 1050 /\
  rh r = DIAGRAM_HEADER_SPACING + line_height * Z.of_nat (List.length (nacl_rows n)).
Proof.
  repeat split.
Qed.

Lemma place_nacl_lists_spec line_height int_mul_3_5 l :
  exact_to_2_50 int_mul_3_5 ->
  forall nacl_x,
    Z.abs (nacl_x - VPC_GUTTER_DIM)
    + RESOURCE_DISTRIBUTION * Z.of_nat (List.length l) <= 2 ^ 50 ->
    pairwise_disjoint (place_nacl_lists line_height int_mul_3_5 nacl_x l) /\
    Forall (fun r => 2 * rx r >= (nacl_x - VPC_GUTTER_DIM) * 7 - 1 - 2100)
           (place_nacl_lists line_height int_mul_3_5 nacl_x l).
Proof.
  intros Hexact.
  induction l as [|n rest IH]; intros nacl_x Hrange.
  - split; constructor.
  - cbn [List.length] in Hrange. rewrite Nat2Z.inj_succ in Hrange.
    destruct (IH (nacl_x + RESOURCE_DISTRIBUTION)) as [Hpd Hall];
      [unfold_consts; unfold VPC_GUTTER_DIM in *; lia|].
    cbn [place_nacl_lists].
    destruct (NAcl_list_rect_spec line_height int_mul_3_5 n nacl_x) as [_ [Hw [Hx _]]].
    rewrite Hexact in Hx by (unfold_consts; lia). unfold exact_mul_3_5 in Hx.
    pose proof (quot_2_bounds ((nacl_x - VPC_GUTTER_DIM) * 7)) as Hq.
    split.
    + constructor; [|exact Hpd].
      eapply Forall_impl; [|exact Hall].
      intros r Hr [_ [Ho _]]. cbv beta in Hr. rewrite Hw, Hx in Ho.
      unfold_consts. unfold VPC_GUTTER_DIM in *. lia.
    + constructor.
      * rewrite Hx. unfold VPC_GUTTER_DIM in *. lia.
      * eapply Forall_impl; [|exact Hall].
        intros r Hr. cbv beta in Hr. unfold_consts. unfold VPC_GUTTER_DIM in *. lia.
Qed.

(** X13.  The list panels of the ACLs of a network, drawn for icons that
    stand [RESOURCE_DISTRIBUTION] apart, are all 540 wide and hang from
    the same top, however many rules each one lists.  As long as every
    icon stands within [2 ^ 50] of [VPC_GUTTER_DIM], where the
    floating-point product with 3.5 is exact, the panels never overlap
    one another. *)
Theorem nacl_lists_do_not_overlap :
  forall (line_height : Z) (int_mul_3_5 : Z -> Z) (nacl_x : Z)
         (l : list NAclRules),
    Forall (fun r => rw r = 540 /\ ry r = PADDING)
           (place_nacl_lists line_height int_mul_3_5 nacl_x l) /\
    (exact_to_2_50 int_mul_3_5 ->
     Z.abs (nacl_x - VPC_GUTTER_DIM)
     + RESOURCE_DISTRIBUTION * Z.of_nat (List.length l) <= 2 ^ 50 ->
     pairwise_disjoint (place_nacl_lists line_height int_mul_3_5 nacl_x l)).
Proof.
  intros line_height int_mul_3_5 nacl_x l. split.
  - revert nacl_x. induction l as [|n rest IH]; intros nacl_x; cbn [place_nacl_lists].
    + constructor.
    + constructor; [|apply IH]. split; reflexivity.
  - intros Hexact Hrange.
    apply (@place_nacl_lists_spec line_height int_mul_3_5 l Hexact nacl_x Hrange).
Qed.

Lemma nacl_lists_do_not_overlap_witness :
  let n := fold_left add_rule
                     [mkRule 100 "-1" false "0.0.0.0/0" "allow";
                      mkRule 100 "-1" true "0.0.0.0/0" "allow"]
                     (mkNAclRules [] []) in
  map rx (place_nacl_lists 20 exact_mul_3_5 1060 [n; n; n]) = [210; 840; 1470] /\
  pairwise_disjoint (place_nacl_lists 20 exact_mul_3_5 1060 [n; n; n]).
Proof.
  intros n. split; [reflexivity|].
  apply (@nacl_lists_do_not_overlap 20 exact_mul_3_5 1060 [n; n; n]).
  - intros k _. reflexivity.
  - vm_compute. discriminate.
Defined.

(** ** The lanes of a list panel *)

Lemma create_lanes_spec todo :
  forall f lane_x lane_y lane_h col_widths,
    (f + todo <= List.length col_widths)%nat ->
    exists lanes,
      create_lanes todo f lane_x lane_y lane_h col_widths = Some lanes /\
      map rw lanes = firstn todo (skipn f col_widths) /\
      tiles lane_x lanes (lane_x + fold_left Z.add (firstn todo (skipn f col_widths)) 0) /\
      Forall (fun r => ry r = lane_y /\ rh r = lane_h) lanes.
Proof.
  induction todo as [|todo IH]; intros f lane_x lane_y lane_h col_widths Hlen.
  - exists []. cbn. repeat split; try constructor. lia.
  - cbn [create_lanes].
    destruct (nth_error col_widths f) as [w|] eqn:Ew;
      [|apply nth_error_None in Ew; lia].
    destruct (IH (S f) (lane_x + w) lane_y lane_h col_widths ltac:(lia))
      as [lanes [Hl [Hw [Ht Hall]]]].
    rewrite Hl. cbn [option_map]. eexists; split; [reflexivity|].
    assert (Hskip : skipn f col_widths = w :: skipn (S f) col_widths).
    { clear -Ew. revert f Ew. induction col_widths as [|c cs IHc]; intros [|f] Ew;
        try discriminate Ew.
      - now injection Ew as ->.
      - cbn [skipn]. now apply IHc. }
    rewrite Hskip. cbn [firstn map rw fold_left tiles rx].
    repeat split.
    + now rewrite Hw.
    + assert (Hsum : forall l a, fold_left Z.add l a = a + fold_left Z.add l 0).
      { induction l as [|b l IHl]; intros a; cbn [fold_left]; [lia|].
        rewrite IHl, (IHl (0 + b)). lia. }
      rewrite (Hsum _ (0 + w)).
      replace (lane_x + (0 + w + fold_left Z.add (firstn todo (skipn (S f) col_widths)) 0))
        with (lane_x + w + fold_left Z.add (firstn todo (skipn (S f) col_widths)) 0) by lia.
      exact Ht.
    + constructor; [now split|exact Hall].
Qed.

Lemma create_lanes_IndexError todo :
  forall f lane_x lane_y lane_h col_widths,
    (f <= List.length col_widths)%nat ->
    (List.length col_widths < f + todo)%nat ->
    create_lanes todo f lane_x lane_y lane_h col_widths = None.
Proof.
  induction todo as [|todo IH]; intros f lane_x lane_y lane_h col_widths Hf Hlen.
  - lia.
  - cbn [create_lanes].
    destruct (nth_error col_widths f) as [w|] eqn:Ew; [|reflexivity].
    assert (f < List.length col_widths)%nat
      by (apply nth_error_Some; congruence).
    rewrite IH by lia. reflexivity.
Qed.

(** X14.  With as many column widths as fields, the lanes of a list
    panel have the given widths and stand side by side from the left
    edge of the panel to its full width, all below the title line and
    of one height; with fewer widths than fields, rendering fails with
    [IndexError]. *)
Theorem list_lanes_tile :
  forall (line_height : Z) (rows : nat) (fields : list string)
         (col_widths : list Z) (x y : Z),
    let panel := fst (DiagramList_render_xml line_height rows col_widths x y) in
    (List.length fields = List.length col_widths ->
     exists lanes,
       DiagramList_lanes line_height rows fields col_widths = Some lanes /\
       map rw lanes = col_widths /\
       tiles 0 lanes (rw panel) /\
       Forall (fun r => ry r = line_height /\ rh r = rh panel - line_height) lanes) /\
    ((List.length col_widths < List.length fields)%nat ->
     DiagramList_lanes line_height rows fields col_widths = None).
Proof.
  intros line_height rows fields col_widths x y panel. split.
  - intros Hlen. unfold DiagramList_lanes.
    destruct (@create_lanes_spec (List.length fields) 0%nat 0 line_height
                (DIAGRAM_HEADER_SPACING + line_height * Z.of_nat rows - line_height)
                col_widths ltac:(lia)) as [lanes [Hl [Hw [Ht Hall]]]].
    cbn [skipn] in Hw, Ht. rewrite Hlen, firstn_all in Hw, Ht.
    exists lanes. repeat split; assumption.
  - intros Hlen. unfold DiagramList_lanes.
    apply create_lanes_IndexError; lia.
Qed.

Lemma list_lanes_tile_witness :
  exists lanes,
    DiagramList_lanes 20 3
      ["Destination CIDR"; "State"; "Gateway ID"; "Origin"]%string
      [210; 70; 120; 120] = Some lanes /\
    map rw lanes = [210; 70; 120; 120] /\
    tiles 0 lanes 520.
Proof.
  destruct (@list_lanes_tile 20 3
              ["Destination CIDR"; "State"; "Gateway ID"; "Origin"]%string
              [210; 70; 120; 120] 0 820) as [H _].
  destruct (H eq_refl) as [lanes [Hl [Hw [Ht _]]]].
  exists lanes. repeat split; assumption.
Defined.

(** ** Sizes and edge cases of the containers *)

(** X15.  A network with no zone, ACL or route table reports 200 x 120.
    Any other network reports a width of at least 540, enough for every
    zone plus 360 and for 180 per ACL plus 300, and a height of at least
    420 plus the heights of all its zones, and of at least 180 per route
    table plus 120. *)
Theorem vpc_dimensions_bounds :
  forall v : VpcResource,
    let w := fst (fst (Vpc_get_dimensions v)) in
    let h := snd (fst (Vpc_get_dimensions v)) in
    (check_empty v = true -> w = 200 /\ h = 120) /\
    (check_empty v = false ->
     540 <= w /\
     Forall (fun az => fst (AZ_get_dimensions az) + 360 <= w) (az_list v) /\
     180 * Z.of_nat (List.length (nacl_list v)) + 300 <= w /\
     420 + fold_right Z.add 0 (map (fun az => snd (AZ_get_dimensions az)) (az_list v))
     <= h /\
     180 * Z.of_nat (List.length (rt_list v)) + 120 <= h).
Proof.
  intros v w h. subst w h. rewrite Vpc_get_dimensions_unfold.
  destruct (check_empty v); cbv zeta; cbn [fst snd].
  - split; [intros _; split; reflexivity|discriminate].
  - split; [discriminate|]. intros _.
    pose proof (az_requirements_width_ge (az_list v)
                  (RESOURCE_DISTRIBUTION + 2 * PADDING)
                  (RESOURCE_DISTRIBUTION + PADDING)) as Hw.
    pose proof (az_requirements_width_bound (az_list v)
                  (RESOURCE_DISTRIBUTION + 2 * PADDING)
                  (RESOURCE_DISTRIBUTION + PADDING)) as Hb.
    rewrite (az_requirements_height (az_list v)
               (RESOURCE_DISTRIBUTION + 2 * PADDING)
               (RESOURCE_DISTRIBUTION + PADDING)).
    repeat split; try (unfold_consts; lia).
    eapply Forall_impl; [|exact Hb].
    intros az Haz. cbv beta in Haz. unfold_consts. lia.
Qed.

Lemma vpc_dimensions_bounds_witness :
  let ng := mkNg "nat-1" "subnet-1" "" None in
  let s := mkSubnet "subnet-1" "10.0.0.0/24" "us-east-1a" [ng] [] "public" in
  let v := mkVpc "vpc-1" [mkAZ "us-east-1a" [s] (false, 0)] [] [] "" "" [] [] in
  540 <= fst (fst (Vpc_get_dimensions v)) /\
  420 + fold_right Z.add 0 (map (fun az => snd (AZ_get_dimensions az)) (az_list v))
  <= snd (fst (Vpc_get_dimensions v)).
Proof.
  intros ng s v.
  destruct (vpc_dimensions_bounds v) as [_ H].
  destruct (H eq_refl) as [Hw [_ [_ [Hh _]]]].
  split; assumption.
Defined.

Lemma Vpc_render_xml_empty cols line_height int_div_1_3 py_set v x y ovr :
  check_empty v = true ->
  Vpc_render_xml cols line_height int_div_1_3 py_set v x y ovr =
  Ok (mkVpcBox (mkRect x y VPC_MIN_W (Z.max VPC_MIN_H ovr)) [] [] []).
Proof.
  intros He.
  unfold Vpc_render_xml, Vpc_get_dimensions, sort_rt_resources. rewrite He.
  cbv zeta. rewrite He. cbn [bind].
  unfold check_empty in He.
  destruct (az_list v), (nacl_list v), (rt_list v); try discriminate He.
  reflexivity.
Qed.

(** X16.  A network with no zone, ACL or route table, such as the
    placeholder of a peered network, is left as it is by
    [get_dimensions], has no route table to sort, and is rendered as a
    box of 200 by at least 120 without any child, whatever the column
    count. *)
Theorem empty_vpc_render :
  forall (cols line_height : Z) (int_div_1_3 : Z -> Z)
         (py_set : list string -> list string) (v : VpcResource) (x y ovr : Z),
    check_empty v = true ->
    snd (Vpc_get_dimensions v) = v /\
    sort_rt_resources py_set v = Ok [] /\
    Vpc_render_xml cols line_height int_div_1_3 py_set v x y ovr =
    Ok (mkVpcBox (mkRect x y VPC_MIN_W (Z.max VPC_MIN_H ovr)) [] [] []).
Proof.
  intros cols line_height int_div_1_3 py_set v x y ovr He.
  split; [|split].
  - unfold Vpc_get_dimensions. now rewrite He.
  - unfold sort_rt_resources. now rewrite He.
  - now apply Vpc_render_xml_empty.
Qed.

Lemma empty_vpc_render_witness :
  Vpc_render_xml 0 20 (fun h => h) (nodup string_dec)
                 (mkVpc "vpc-peer" [] [] [] "Account: 1" "10.1.0.0/16" [] [])
                 2300 920 0
  = Ok (mkVpcBox (mkRect 2300 920 200 120) [] [] []).
Proof.
  refine (proj2 (proj2 (@empty_vpc_render 0 20 (fun h => h) (nodup string_dec)
           (mkVpc "vpc-peer" [] [] [] "Account: 1" "10.1.0.0/16" [] []) 2300 920 0 _))).
  reflexivity.
Defined.

(** X17.  With a column count of zero the column pre-pass raises
    [ZeroDivisionError] for every list of ACLs, and rendering a zone
    raises it as soon as the zone has a subnet; a zone without subnets is
    still rendered. *)
Theorem zero_columns :
  (forall nacl_resources, assign_col_suggestions 0 nacl_resources = Raise ZeroDivisionError) /\
  (forall az x y, subnets az <> [] -> AZ_render_xml 0 az x y = Raise ZeroDivisionError) /\
  (forall az x y, subnets az = [] ->
                  AZ_render_xml 0 az x y =
                  Ok (mkAZBox (mkRect x y (fst (AZ_get_dimensions az)) PADDING) [])).
Proof.
  split; [|split].
  - intros l. reflexivity.
  - intros az x y Hne. unfold AZ_render_xml.
    destruct (AZ_get_dimensions az) as [w h]. cbv zeta.
    assert (Hs : sorted_subnets az <> []).
    { intros E. apply Hne.
      apply Permutation_nil. rewrite <- E.
      apply py_sorted_Permutation. }
    destruct (sorted_subnets az) as [|s rest]; [contradiction|].
    reflexivity.
  - intros az x y He. unfold AZ_render_xml.
    rewrite (AZ_get_dimensions_spec az), He. cbn [stack_height fst snd].
    unfold sorted_subnets. rewrite He. reflexivity.
Qed.

Lemma zero_columns_witness :
  let s := mkSubnet "subnet-1" "10.0.0.0/24" "us-east-1a" [] [] "public" in
  AZ_render_xml 0 (mkAZ "us-east-1a" [s] (false, 0)) 940 940 = Raise ZeroDivisionError.
Proof.
  intros s. destruct zero_columns as [_ [H _]]. apply H. discriminate.
Defined.

Lemma place_ngs_spec l :
  forall ng_x ng_y,
    pairwise_disjoint (place_ngs ng_x ng_y l) /\
    Forall (fun r => ng_y <= ry r) (place_ngs ng_x ng_y l) /\
    List.length (place_ngs ng_x ng_y l) = List.length l.
Proof.
  induction l as [|ng rest IH]; intros ng_x ng_y.
  - repeat split; constructor.
  - destruct (IH ng_x (ng_y + RESOURCE_DISTRIBUTION)) as [Hpd [Hall Hlen]].
    cbn [place_ngs].
    change (Ng_render_xml ng ng_x ng_y) with (mkRect ng_x ng_y 50 50).
    repeat split.
    + constructor; [|exact Hpd].
      eapply Forall_impl; [|exact Hall].
      intros r Hr [_ [_ [_ Ho]]]. cbv beta in Hr. cbn [ry rh] in Ho.
      unfold_consts. lia.
    + constructor; [cbn [ry]; lia|].
      eapply Forall_impl; [|exact Hall].
      intros r Hr. cbv beta in Hr. unfold_consts. lia.
    + cbn [List.length]. now rewrite Hlen.
Qed.

(** X18.  A subnet draws one icon per registered NAT gateway, and these
    icons never overlap one another. *)
Theorem nat_icons_do_not_overlap :
  forall (s : SubnetResource) (x y : Z),
    List.length (sb_ngs (Subnet_render_xml s x y)) = List.length (ng_list s) /\
    pairwise_disjoint (sb_ngs (Subnet_render_xml s x y)).
Proof.
  intros s x y.
  assert (E : sb_ngs (Subnet_render_xml s x y) =
              place_ngs (x + SUBNET_MIN_W - PADDING / 2)
                        (y + snd (Subnet_get_dimensions s) / 2) (ng_list s))
    by reflexivity.
  rewrite E. split; apply place_ngs_spec.
Qed.

(** X19.  The height of a zone is one padding plus, for each subnet, its
    height and one padding more; it depends neither on the order in
    which the subnets were registered nor on a width override.  Its
    width is the override when one is set, and otherwise 460 with
    subnets and 120 without. *)
Theorem zone_dimensions :
  forall (az : AZResource),
    snd (AZ_get_dimensions az) = PADDING + stack_height (subnets az) /\
    (forall subnets' ovr id,
        Permutation subnets' (subnets az) ->
        snd (AZ_get_dimensions (mkAZ id subnets' ovr)) = snd (AZ_get_dimensions az)) /\
    (forall w, fst (AZ_get_dimensions (override_width az w)) = w) /\
    (fst (width_override az) = false ->
     fst (AZ_get_dimensions az) = if AZ_empty az then 120 else 460).
Proof.
  intros az. repeat split.
  - now rewrite AZ_get_dimensions_spec.
  - intros subnets' ovr id HP. rewrite !AZ_get_dimensions_spec. cbn [snd subnets].
    now rewrite (stack_height_Permutation HP).
  - intros w. now rewrite AZ_get_dimensions_override.
  - intros Ho. rewrite AZ_get_dimensions_spec, Ho. cbn [fst].
    unfold AZ_empty. destruct (subnets az); reflexivity.
Qed.

Lemma zone_dimensions_witness :
  let ng := mkNg "nat-1" "subnet-1" "" None in
  let s1 := mkSubnet "subnet-1" "10.0.0.0/24" "us-east-1a" [ng] [] "public" in
  let s2 := mkSubnet "subnet-2" "10.0.1.0/24" "us-east-1a" [] [] "private" in
  AZ_get_dimensions (mkAZ "us-east-1a" [s1; s2] (false, 0)) = (460, 380) /\
  snd (AZ_get_dimensions (mkAZ "us-east-1a" [s2; s1] (true, 900))) = 380.
Proof.
  intros ng s1 s2. split; [reflexivity|].
  destruct (zone_dimensions (mkAZ "us-east-1a" [s1; s2] (false, 0))) as [_ [H _]].
  rewrite (H [s2; s1] (true, 900) "us-east-1a"%string); [reflexivity|].
  apply perm_swap.
Defined.

(** ** The region, the account frame and what stands beside the network *)

Lemma Vpc_get_dimensions_again v :
  fst (Vpc_get_dimensions (snd (Vpc_get_dimensions v))) = fst (Vpc_get_dimensions v).
Proof.
  rewrite (Vpc_get_dimensions_unfold v).
  destruct (check_empty v) eqn:He.
  - cbn [fst snd]. rewrite Vpc_get_dimensions_unfold, He. reflexivity.
  - cbv zeta. cbn [fst snd].
    set (start := (RESOURCE_DISTRIBUTION + 2 * PADDING, RESOURCE_DISTRIBUTION + PADDING)).
    set (nreq := Z.of_nat (List.length (nacl_list v)) * RESOURCE_DISTRIBUTION).
    pose proof (az_requirements_width_ge (az_list v)
                  (RESOURCE_DISTRIBUTION + 2 * PADDING)
                  (RESOURCE_DISTRIBUTION + PADDING)) as Hge.
    fold start in Hge.
    destruct (Z.gtb_spec nreq (snd (az_requirements (az_list v) start))) as [Hgt|Hle].
    + rewrite Vpc_get_dimensions_unfold, check_empty_override, He.
      cbv zeta. cbn [az_list nacl_list rt_list with_az_list fst]. fold nreq.
      rewrite (az_requirements_override (az_list v) (nreq - PADDING)
                 (RESOURCE_DISTRIBUTION + 2 * PADDING)
                 (RESOURCE_DISTRIBUTION + PADDING)
                 (RESOURCE_DISTRIBUTION + PADDING)).
      fold start. cbn [fst snd].
      destruct (az_list v) as [|az l].
      * reflexivity.
      * apply f_equal2; [lia|reflexivity].
    + rewrite Vpc_get_dimensions_unfold, He. reflexivity.
Qed.

Lemma Region_render_xml_inv cols line_height int_div_1_3 py_set r x y ovr box ret r' :
  Region_render_xml cols line_height int_div_1_3 py_set r x y ovr = Ok (box, ret, r') ->
  let d := fst (Region_get_dimensions r ovr) in
  rb_rect box = mkRect x y (fst d) (snd d) /\
  vb_rect (rb_vpc box) =
  mkRect (x + PADDING) (y + PADDING) (fst d - 2 * PADDING) (snd d - 2 * PADDING) /\
  ret = x + snd d /\
  region_width r' = fst d /\ region_height r' = snd d.
Proof.
  unfold Region_render_xml, Region_get_dimensions.
  pose proof (Vpc_get_dimensions_again (region_vpc r)) as Hagain.
  destruct (Vpc_get_dimensions (region_vpc r)) as [[vw vh] v1].
  cbn [fst snd] in Hagain. cbv zeta. cbn [region_vpc region_name fst snd].
  intros H. apply bind_Ok_inv in H. destruct H as [vb [Hvb H]].
  injection H as <- <- <-.
  apply Vpc_render_xml_inv in Hvb. cbv zeta in Hvb.
  destruct Hvb as [_ [_ [_ [_ [_ Hrect]]]]].
  rewrite Hagain in Hrect. cbn [fst snd] in Hrect.
  cbn [rb_rect rb_vpc region_width region_height].
  repeat split. rewrite Hrect. f_equal; lia.
Qed.

(** X20.  When a region is rendered, its box has the size
    [get_dimensions] reports, and the box of its network starts one
    padding inside it and is two paddings narrower and lower: the
    network fills the region but for a margin of [PADDING] on all four
    sides.  The call returns [x + height]. *)
Theorem region_contains_vpc :
  forall (cols line_height : Z) (int_div_1_3 : Z -> Z)
         (py_set : list string -> list string)
         (r : RegionResource) (x y ovr : Z) (box : RegionBox) (ret : Z)
         (r' : RegionResource),
    Region_render_xml cols line_height int_div_1_3 py_set r x y ovr = Ok (box, ret, r') ->
    let d := fst (Region_get_dimensions r ovr) in
    rb_rect box = mkRect x y (fst d) (snd d) /\
    vb_rect (rb_vpc box) =
    mkRect (x + PADDING) (y + PADDING) (fst d - 2 * PADDING) (snd d - 2 * PADDING) /\
    inside PADDING (vb_rect (rb_vpc box)) (rb_rect box) /\
    ret = x + snd d.
Proof.
  intros cols line_height int_div_1_3 py_set r x y ovr box ret r' H d.
  apply Region_render_xml_inv in H. cbv zeta in H. fold d in H.
  destruct H as [Hr [Hv [Hret _]]].
  repeat split; trivial; rewrite Hr, Hv; cbn [rx ry rw rh]; lia.
Qed.

Lemma region_contains_vpc_witness :
  let v := mkVpc "vpc-peer" [] [] [] "" "10.1.0.0/16" [] [] in
  let r := mkRegion "us-east-1" 0 0 v in
  exists box ret r',
    Region_render_xml 3 20 (fun h => h) (nodup string_dec) r 700 700 360
    = Ok (box, ret, r') /\
    rb_rect box = mkRect 700 700 320 480 /\
    vb_rect (rb_vpc box) = mkRect 760 760 200 360.
Proof.
  intros v r.
  destruct (Region_render_xml 3 20 (fun h => h) (nodup string_dec) r 700 700 360)
    as [[[box ret] r']|e] eqn:E; [|vm_compute in E; discriminate E].
  exists box, ret, r'. split; [reflexivity|].
  destruct (@region_contains_vpc 3 20 (fun h => h) (nodup string_dec)
              r 700 700 360 box ret r' E) as [Hr [Hv _]].
  split; [exact Hr|exact Hv].
Defined.

Lemma Region_get_dimensions_again r ovr :
  fst (Region_get_dimensions (snd (Region_get_dimensions r ovr)) ovr) =
  fst (Region_get_dimensions r ovr).
Proof.
  unfold Region_get_dimensions.
  pose proof (Vpc_get_dimensions_again (region_vpc r)) as Hagain.
  destruct (Vpc_get_dimensions (region_vpc r)) as [[vw vh] v1].
  cbn [fst snd region_vpc] in *.
  destruct (Vpc_get_dimensions v1) as [[vw' vh'] v2].
  cbn [fst] in *. injection Hagain as -> ->. reflexivity.
Qed.

(** X21.  The driver sizes the account box from the region before it
    renders it; the region it then draws at (700, 700) lies inside the
    account box with at least [PADDING] free on every side, and the
    network inside the region likewise. *)
Theorem frame_nesting :
  forall (cols line_height : Z) (int_div_1_3 : Z -> Z)
         (py_set : list string -> list string)
         (region : RegionResource) (o : OuterResources)
         (account : Rect) (rb : RegionBox),
    draw_frame cols line_height int_div_1_3 py_set region o = Ok (account, rb) ->
    rx (rb_rect rb) = VPC_GUTTER_DIM /\ ry (rb_rect rb) = VPC_GUTTER_DIM /\
    inside PADDING (rb_rect rb) account /\
    inside PADDING (vb_rect (rb_vpc rb)) (rb_rect rb).
Proof.
  intros cols line_height int_div_1_3 py_set region o account rb H.
  unfold draw_frame in H.
  pose proof (Region_get_dimensions_again region (external_resource_space o)) as Hagain.
  destruct (Region_get_dimensions region (external_resource_space o))
    as [[w h] region1].
  cbn [fst snd] in *.
  apply bind_Ok_inv in H. destruct H as [[[rb' ret] r'] [Hrb H]].
  injection H as <- <-.
  apply Region_render_xml_inv in Hrb. cbv zeta in Hrb.
  rewrite Hagain in Hrb. cbn [fst snd] in Hrb.
  destruct Hrb as [Hr [Hv _]]. rewrite Hr, Hv.
  unfold inside. cbn [rx ry rw rh]. unfold VPC_GUTTER_DIM. unfold_consts.
  repeat split; lia.
Qed.

Lemma frame_nesting_witness :
  let v := mkVpc "vpc-1" [mkAZ "us-east-1a" [] (false, 0)] [] [] "" "10.0.0.0/16" [] [] in
  let region := mkRegion "us-east-1" 0 0 v in
  let o := mkOuter ["pcx-1"%string] ["igw-1"%string] [] [] [] in
  exists account rb,
    draw_frame 3 20 (fun h => h) (nodup string_dec) region o = Ok (account, rb) /\
    inside PADDING (rb_rect rb) account.
Proof.
  intros v region o.
  destruct (draw_frame 3 20 (fun h => h) (nodup string_dec) region o)
    as [[account rb]|e] eqn:E; [|vm_compute in E; discriminate E].
  exists account, rb. split; [reflexivity|].
  apply (@frame_nesting 3 20 (fun h => h) (nodup string_dec) region o account rb E).
Defined.

Lemma icon_column_app y0 y1 y2 a b :
  y0 <= y1 -> y1 <= y2 ->
  icon_column y0 y1 a -> icon_column y1 y2 b -> icon_column y0 y2 (a ++ b).
Proof.
  intros H01 H12 [Hpa Ha] [Hpb Hb]. split.
  - apply pairwise_disjoint_app; trivial.
    rewrite Forall_forall in Ha, Hb.
    intros r r' Hr Hr' [_ [_ [_ Ho]]].
    specialize (Ha r Hr). specialize (Hb r' Hr'). lia.
  - apply Forall_app. split.
    + eapply Forall_impl; [|exact Ha]. intros r Hr. cbv beta in Hr. lia.
    + eapply Forall_impl; [|exact Hb]. intros r Hr. cbv beta in Hr. lia.
Qed.

Lemma stack_down_spec (A : Type) (render : A -> Z -> Z -> list Rect) :
  (forall a x y, pairwise_disjoint (render a x y) /\
                 Forall (fun r => ry r = y /\ rh r = 50) (render a x y)) ->
  forall l x y,
    snd (stack_down render x y l) = y + RESOURCE_DISTRIBUTION * Z.of_nat (List.length l) /\
    icon_column y (snd (stack_down render x y l)) (fst (stack_down render x y l)).
Proof.
  intros Hrender. induction l as [|a rest IH]; intros x y.
  - cbn. split; [lia|]. split; constructor.
  - cbn [stack_down].
    destruct (IH x (y + RESOURCE_DISTRIBUTION)) as [Hy [Hpd Hall]].
    destruct (stack_down render x (y + RESOURCE_DISTRIBUTION) rest) as [rs y'].
    cbn [fst snd] in *.
    destruct (Hrender a x y) as [Hpa Ha].
    split; [rewrite Hy; cbn [List.length]; rewrite Nat2Z.inj_succ; lia|].
    split.
    + apply pairwise_disjoint_app; trivial.
      rewrite Forall_forall in Ha, Hall.
      intros r r' Hr Hr' [_ [_ [_ Ho]]].
      specialize (Ha r Hr). specialize (Hall r' Hr'). unfold_consts. lia.
    + apply Forall_app. split.
      * eapply Forall_impl; [|exact Ha]. intros r Hr. cbv beta in Hr.
        unfold_consts. lia.
      * eapply Forall_impl; [|exact Hall]. intros r Hr. cbv beta in Hr.
        unfold_consts. lia.
Qed.

Lemma Icon_render_xml_spec (id : string) (x y : Z) :
  pairwise_disjoint (Icon_render_xml id x y) /\
  Forall (fun r => ry r = y /\ rh r = 50) (Icon_render_xml id x y).
Proof.
  split; repeat constructor.
Qed.

Lemma VpnGateway_render_xml_spec (g : VpnGatewayResource) (x y : Z) :
  pairwise_disjoint (VpnGateway_render_xml g x y) /\
  Forall (fun r => ry r = y /\ rh r = 50) (VpnGateway_render_xml g x y).
Proof.
  unfold VpnGateway_render_xml, DiagramObject_render_xml.
  destruct (String.eqb (vpn g) ""); split; repeat constructor.
  intros [_ [Ho _]]. cbn [rx rw] in Ho. unfold_consts. lia.
Qed.

(** X22.  The icons of the peering connections, internet gateways,
    endpoints, VPN gateways with their connections and egress-only
    gateways never overlap one another, and the region, sized with the
    space reserved for them, reaches at least one padding above the
    first and below the last of them. *)
Theorem outer_resources_fit :
  forall (region : RegionResource) (o : OuterResources) (peering_x : Z),
    let h := snd (fst (Region_get_dimensions region (external_resource_space o))) in
    pairwise_disjoint (outer_column peering_x o) /\
    Forall (fun r => VPC_GUTTER_DIM + PADDING <= ry r /\
                     ry r + rh r <= VPC_GUTTER_DIM + h - PADDING)
           (outer_column peering_x o).
Proof.
  intros region o peering_x h. unfold outer_column.
  set (y0 := VPC_GUTTER_DIM + PADDING + RESOURCE_DISTRIBUTION).
  destruct (stack_down_spec Icon_render_xml Icon_render_xml_spec
              (peering_resources o) peering_x y0) as [Hy1 Hc1].
  destruct (stack_down Icon_render_xml peering_x y0 (peering_resources o)) as [r1 y1].
  destruct (stack_down_spec Icon_render_xml Icon_render_xml_spec
              (igw_resources o) peering_x y1) as [Hy2 Hc2].
  destruct (stack_down Icon_render_xml peering_x y1 (igw_resources o)) as [r2 y2].
  destruct (stack_down_spec Icon_render_xml Icon_render_xml_spec
              (endpoints_resources o) peering_x y2) as [Hy3 Hc3].
  destruct (stack_down Icon_render_xml peering_x y2 (endpoints_resources o)) as [r3 y3].
  destruct (stack_down_spec VpnGateway_render_xml VpnGateway_render_xml_spec
              (vpn_gw_resources o) peering_x y3) as [Hy4 Hc4].
  destruct (stack_down VpnGateway_render_xml peering_x y3 (vpn_gw_resources o)) as [r4 y4].
  destruct (stack_down_spec Icon_render_xml Icon_render_xml_spec
              (egress_gateway_resources o) peering_x y4) as [Hy5 Hc5].
  destruct (stack_down Icon_render_xml peering_x y4 (egress_gateway_resources o))
    as [r5 y5].
  cbn [fst snd] in *.
  assert (Hcol : icon_column y0 y5 (r1 ++ r2 ++ r3 ++ r4 ++ r5)).
  { apply (@icon_column_app y0 y1 y5); try (unfold_consts; lia); trivial.
    apply (@icon_column_app y1 y2 y5); try (unfold_consts; lia); trivial.
    apply (@icon_column_app y2 y3 y5); try (unfold_consts; lia); trivial.
    apply (@icon_column_app y3 y4 y5); try (unfold_consts; lia); trivial. }
  destruct Hcol as [Hpd Hall]. split; [exact Hpd|].
  assert (Hh : external_resource_space o + 2 * PADDING <= h).
  { subst h. unfold Region_get_dimensions.
    destruct (Vpc_get_dimensions (region_vpc region)) as [[vw vh] v1].
    cbn [fst snd]. lia. }
  unfold external_resource_space in Hh.
  eapply Forall_impl; [|exact Hall].
  intros r [Hr1 Hr2]. subst y0. unfold VPC_GUTTER_DIM in *. unfold_consts. lia.
Qed.

(** X23.  The placeholders of the peered networks, which have no zone,
    ACL or route table, are all rendered, each 200 x 120, and never
    overlap one another, for any value of [VPC_PEER_COLS]. *)
Theorem peer_vpcs_do_not_overlap :
  forall (cols line_height : Z) (int_div_1_3 : Z -> Z)
         (py_set : list string -> list string)
         (VPC_PEER_COLS original_x : Z) (peers : list VpcResource),
    Forall (fun p => check_empty p = true) peers ->
    exists bs,
      peer_vpc_grid cols line_height int_div_1_3 py_set VPC_PEER_COLS original_x peers
      = Ok bs /\
      List.length bs = List.length peers /\
      Forall (fun r => rw r = 200 /\ rh r = 120) (map vb_rect bs) /\
      pairwise_disjoint (map vb_rect bs).
Proof.
  intros cols line_height int_div_1_3 py_set pc original_x peers Hall.
  unfold peer_vpc_grid.
  assert (Hdim : match peers with
                 | [] => ((0, 0), [])
                 | first :: rest =>
                     let '(dim, first) := Vpc_get_dimensions first in
                     (dim, first :: rest)
                 end = ((200, 120), peers) \/ peers = []).
  { destruct peers as [|p rest]; [now right|left].
    inversion Hall as [|? ? Hp _]; subst.
    unfold Vpc_get_dimensions. now rewrite Hp. }
  set (y0 := VPC_GUTTER_DIM + PADDING + RESOURCE_DISTRIBUTION - 20). clearbody y0.
  destruct Hdim as [Hdim| ->]; [|exists []; repeat split; constructor].
  rewrite Hdim. clear Hdim.
  assert (H : forall l x y c,
             Forall (fun p => check_empty p = true) l ->
             exists bs,
               place_peer_vpcs cols line_height int_div_1_3 py_set pc original_x
                               (200, 120) x y c l = Ok bs /\
               List.length bs = List.length l /\
               Forall (fun r => rw r = 200 /\ rh r = 120) (map vb_rect bs) /\
               pairwise_disjoint (map vb_rect bs) /\
               Forall (fun r => (ry r = y /\ x <= rx r) \/ y + 180 <= ry r)
                      (map vb_rect bs)).
  { induction l as [|p rest IH]; intros x y c Hl.
    - exists []. repeat split; constructor.
    - inversion Hl as [|? ? Hp Hrest]; subst.
      cbn [place_peer_vpcs fst snd].
      destruct (c =? pc).
      + rewrite (Vpc_render_xml_empty cols line_height int_div_1_3 py_set
                   p original_x (y + 120 + PADDING) 0 Hp).
        cbn [bind].
        destruct (IH (original_x + 200 + PADDING) (y + 120 + PADDING) (0 + 1) Hrest)
          as [bs [Hbs [Hlen [Hsz [Hpd Hpos]]]]].
        rewrite Hbs. cbn [bind]. eexists; split; [reflexivity|].
        cbn [map vb_rect List.length]. repeat split.
        * now rewrite Hlen.
        * constructor; [split; reflexivity|exact Hsz].
        * constructor; [|exact Hpd].
          eapply Forall_impl; [|exact Hpos].
          intros r Hr [_ [Ho1 [_ Ho2]]]. cbv beta in Hr.
          cbn [rx ry rw rh] in Ho1, Ho2. unfold_consts. lia.
        * constructor; [cbn [rx ry]; unfold_consts; lia|].
          eapply Forall_impl; [|exact Hpos].
          intros r Hr. cbv beta in Hr. unfold_consts. lia.
      + rewrite (Vpc_render_xml_empty cols line_height int_div_1_3 py_set p x y 0 Hp).
        cbn [bind].
        destruct (IH (x + 200 + PADDING) y (c + 1) Hrest)
          as [bs [Hbs [Hlen [Hsz [Hpd Hpos]]]]].
        rewrite Hbs. cbn [bind]. eexists; split; [reflexivity|].
        cbn [map vb_rect List.length]. repeat split.
        * now rewrite Hlen.
        * constructor; [split; reflexivity|exact Hsz].
        * constructor; [|exact Hpd].
          eapply Forall_impl; [|exact Hpos].
          intros r Hr [_ [Ho1 [_ Ho2]]]. cbv beta in Hr.
          cbn [rx ry rw rh] in Ho1, Ho2. unfold_consts. lia.
        * constructor; [cbn [rx ry]; lia|].
          eapply Forall_impl; [|exact Hpos].
          intros r Hr. cbv beta in Hr. unfold_consts. lia. }
  destruct (H peers original_x y0 0 Hall) as [bs [Hbs [Hlen [Hsz [Hpd _]]]]].
  exists bs. repeat split; assumption.
Qed.

Lemma peer_vpcs_do_not_overlap_witness :
  let peer i := mkVpc i [] [] [] "Account: 1" "10.1.0.0/16" [] [] in
  exists bs,
    peer_vpc_grid 3 20 (fun h => h) (nodup string_dec) 2 2300
                  [peer "vpc-a"; peer "vpc-b"; peer "vpc-c"]%string = Ok bs /\
    List.length bs = 3%nat /\
    pairwise_disjoint (map vb_rect bs).
Proof.
  intros peer.
  destruct (@peer_vpcs_do_not_overlap 3 20 (fun h => h) (nodup string_dec) 2 2300
              [peer "vpc-a"; peer "vpc-b"; peer "vpc-c"]%string)
    as [bs [Hbs [Hlen [_ Hpd]]]].
  - repeat constructor.
  - exists bs. repeat split; assumption.
Defined.

(** ** The grid of the peered networks, flow logs and direct connect *)

Lemma place_peer_vpcs_grid cols line_height int_div_1_3 py_set pc ox :
  1 <= pc ->
  forall l x y c,
    Forall (fun p => check_empty p = true) l ->
    0 <= c <= pc -> x = ox + c * 260 ->
    exists bs,
      place_peer_vpcs cols line_height int_div_1_3 py_set pc ox (200, 120) x y c l
      = Ok bs /\
      List.length bs = List.length l /\
      forall i b, nth_error bs i = Some b ->
                  vb_rect b = mkRect (ox + ((c + Z.of_nat i) mod pc) * 260)
                                     (y + ((c + Z.of_nat i) / pc) * 180) 200 120.
Proof.
  intros Hpc. induction l as [|p rest IH]; intros x y c Hl Hc Hx.
  - exists []. repeat split. intros [|i] b H; discriminate H.
  - inversion Hl as [|? ? Hp Hrest]; subst.
    cbn [place_peer_vpcs fst snd].
    destruct (Z.eqb_spec c pc) as [E|E].
    + rewrite (Vpc_render_xml_empty cols line_height int_div_1_3 py_set
                 p ox (y + 120 + PADDING) 0 Hp).
      cbn [bind].
      destruct (IH (ox + 200 + PADDING) (y + 120 + PADDING) (0 + 1) Hrest)
        as [bs [Hbs [Hlen Hnth]]]; [lia|unfold_consts; lia|].
      rewrite Hbs. cbn [bind]. eexists; split; [reflexivity|].
      split; [cbn [List.length]; now rewrite Hlen|].
      intros [|i] b Hb; cbn [nth_error] in Hb.
      * injection Hb as <-. cbn [vb_rect]. subst c.
        rewrite Z.add_0_r, Z_mod_same_full, Z_div_same_full by lia.
        unfold_consts. f_equal; lia.
      * rewrite (Hnth i b Hb). subst c.
        replace (pc + Z.of_nat (S i)) with (0 + 1 + Z.of_nat i + 1 * pc) by lia.
        rewrite Z_mod_plus_full, Z_div_plus_full by lia.
        unfold_consts. f_equal; lia.
    + rewrite (Vpc_render_xml_empty cols line_height int_div_1_3 py_set
                 p (ox + c * 260) y 0 Hp).
      cbn [bind].
      destruct (IH (ox + c * 260 + 200 + PADDING) y (c + 1) Hrest)
        as [bs [Hbs [Hlen Hnth]]]; [lia|unfold_consts; lia|].
      rewrite Hbs. cbn [bind]. eexists; split; [reflexivity|].
      split; [cbn [List.length]; now rewrite Hlen|].
      intros [|i] b Hb; cbn [nth_error] in Hb.
      * injection Hb as <-. cbn [vb_rect].
        rewrite Z.add_0_r, Z.mod_small, Z.div_small by lia.
        unfold_consts. f_equal; lia.
      * rewrite (Hnth i b Hb).
        replace (c + 1 + Z.of_nat i) with (c + Z.of_nat (S i)) by lia.
        reflexivity.
Qed.

Lemma place_peer_vpcs_row cols line_height int_div_1_3 py_set pc ox :
  forall l x y c,
    Forall (fun p => check_empty p = true) l ->
    pc < c ->
    exists bs,
      place_peer_vpcs cols line_height int_div_1_3 py_set pc ox (200, 120) x y c l
      = Ok bs /\
      List.length bs = List.length l /\
      forall i b, nth_error bs i = Some b ->
                  vb_rect b = mkRect (x + Z.of_nat i * 260) y 200 120.
Proof.
  induction l as [|p rest IH]; intros x y c Hl Hc.
  - exists []. repeat split. intros [|i] b H; discriminate H.
  - inversion Hl as [|? ? Hp Hrest]; subst.
    cbn [place_peer_vpcs fst snd].
    destruct (Z.eqb_spec c pc) as [E|E]; [lia|].
    rewrite (Vpc_render_xml_empty cols line_height int_div_1_3 py_set p x y 0 Hp).
    cbn [bind].
    destruct (IH (x + 200 + PADDING) y (c + 1) Hrest) as [bs [Hbs [Hlen Hnth]]]; [lia|].
    rewrite Hbs. cbn [bind]. eexists; split; [reflexivity|].
    split; [cbn [List.length]; now rewrite Hlen|].
    intros [|i] b Hb; cbn [nth_error] in Hb.
    + injection Hb as <-. cbn [vb_rect]. unfold_consts. f_equal; lia.
    + rewrite (Hnth i b Hb). unfold_consts. f_equal; lia.
Qed.

Lemma peer_vpc_grid_unfold cols line_height int_div_1_3 py_set pc ox p rest :
  check_empty p = true ->
  peer_vpc_grid cols line_height int_div_1_3 py_set pc ox (p :: rest) =
  place_peer_vpcs cols line_height int_div_1_3 py_set pc ox (200, 120) ox
                  (VPC_GUTTER_DIM + PADDING + RESOURCE_DISTRIBUTION - 20) 0 (p :: rest).
Proof.
  intros Hp. unfold peer_vpc_grid, Vpc_get_dimensions. rewrite Hp. reflexivity.
Qed.

(** X24.  With a positive [VPC_PEER_COLS] the placeholders of the peered
    networks fill a grid row by row: placeholder [i] stands in column
    [i mod VPC_PEER_COLS] and row [i / VPC_PEER_COLS], the columns 260
    and the rows 180 apart, the first one at y = 920.  With a negative
    value they all stand in the first row, and with zero they all stand
    in one row, one step lower. *)
Theorem peer_vpc_grid_positions :
  forall (cols line_height : Z) (int_div_1_3 : Z -> Z)
         (py_set : list string -> list string)
         (VPC_PEER_COLS original_x : Z) (peers : list VpcResource),
    Forall (fun p => check_empty p = true) peers ->
    exists bs,
      peer_vpc_grid cols line_height int_div_1_3 py_set VPC_PEER_COLS original_x peers
      = Ok bs /\
      List.length bs = List.length peers /\
      forall i b,
        nth_error bs i = Some b ->
        vb_rect b =
        if 1 <=? VPC_PEER_COLS
        then mkRect (original_x + (Z.of_nat i mod VPC_PEER_COLS) * 260)
                    (920 + (Z.of_nat i / VPC_PEER_COLS) * 180) 200 120
        else mkRect (original_x + Z.of_nat i * 260)
                    (if VPC_PEER_COLS =? 0 then 1100 else 920) 200 120.
Proof.
  intros cols line_height int_div_1_3 py_set pc ox peers Hall.
  destruct peers as [|p rest].
  { exists []. repeat split. intros [|i] b H; discriminate H. }
  inversion Hall as [|? ? Hp Hrest]; subst.
  rewrite (@peer_vpc_grid_unfold cols line_height int_div_1_3 py_set pc ox p rest Hp).
  replace (VPC_GUTTER_DIM + PADDING + RESOURCE_DISTRIBUTION - 20) with 920
    by reflexivity.
  destruct (Z.leb_spec 1 pc) as [Hpc|Hpc].
  - destruct (@place_peer_vpcs_grid cols line_height int_div_1_3 py_set pc ox Hpc
                (p :: rest) ox 920 0 Hall) as [bs [Hbs [Hlen Hnth]]]; [lia|lia|].
    exists bs. repeat split; trivial.
  - destruct (Z.eqb_spec pc 0) as [E|E].
    + subst pc. cbn [place_peer_vpcs fst snd]. cbn [Z.eqb].
      rewrite (Vpc_render_xml_empty cols line_height int_div_1_3 py_set
                 p ox (920 + 120 + PADDING) 0 Hp).
      cbn [bind].
      destruct (@place_peer_vpcs_row cols line_height int_div_1_3 py_set 0 ox
                  rest (ox + 200 + PADDING) (920 + 120 + PADDING) (0 + 1) Hrest)
        as [bs [Hbs [Hlen Hnth]]]; [lia|].
      rewrite Hbs. cbn [bind]. eexists; split; [reflexivity|].
      split; [cbn [List.length]; now rewrite Hlen|].
      intros [|i] b Hb; cbn [nth_error] in Hb.
      * injection Hb as <-. cbn [vb_rect]. unfold_consts. f_equal; lia.
      * rewrite (Hnth i b Hb). unfold_consts. f_equal; lia.
    + destruct (@place_peer_vpcs_row cols line_height int_div_1_3 py_set pc ox
                  (p :: rest) ox 920 0 Hall) as [bs [Hbs [Hlen Hnth]]]; [lia|].
      exists bs. repeat split; trivial.
Qed.

Lemma peer_vpc_grid_positions_witness :
  let peer i := mkVpc i [] [] [] "Account: 1" "10.1.0.0/16" [] [] in
  exists bs,
    peer_vpc_grid 3 20 (fun h => h) (nodup string_dec) 2 2300
                  [peer "vpc-a"; peer "vpc-b"; peer "vpc-c"]%string = Ok bs /\
    map vb_rect bs = [mkRect 2300 920 200 120; mkRect 2560 920 200 120;
                      mkRect 2300 1100 200 120].
Proof.
  intros peer.
  destruct (@peer_vpc_grid_positions 3 20 (fun h => h) (nodup string_dec) 2 2300
              [peer "vpc-a"; peer "vpc-b"; peer "vpc-c"]%string)
    as [bs [Hbs [Hlen Hnth]]].
  - repeat constructor.
  - exists bs. split; [exact Hbs|].
    destruct bs as [|b0 [|b1 [|b2 [|b3 bs]]]]; try discriminate Hlen.
    cbn [map].
    rewrite (Hnth 0%nat b0 eq_refl), (Hnth 1%nat b1 eq_refl), (Hnth 2%nat b2 eq_refl).
    reflexivity.
Defined.

Lemma draw_frame_inv cols line_height int_div_1_3 py_set region o account rb :
  draw_frame cols line_height int_div_1_3 py_set region o = Ok (account, rb) ->
  let d := fst (Region_get_dimensions region (external_resource_space o)) in
  rb_rect rb = mkRect VPC_GUTTER_DIM VPC_GUTTER_DIM (fst d) (snd d) /\
  vb_rect (rb_vpc rb) =
  mkRect (VPC_GUTTER_DIM + PADDING) (VPC_GUTTER_DIM + PADDING)
         (fst d - 2 * PADDING) (snd d - 2 * PADDING).
Proof.
  intros H. unfold draw_frame in H.
  pose proof (Region_get_dimensions_again region (external_resource_space o)) as Hagain.
  destruct (Region_get_dimensions region (external_resource_space o))
    as [[w h] region1].
  cbn [fst snd] in *.
  apply bind_Ok_inv in H. destruct H as [[[rb' ret] r'] [Hrb H]].
  injection H as _ <-.
  apply Region_render_xml_inv in Hrb. cbv zeta in Hrb.
  rewrite Hagain in Hrb. cbn [fst snd] in Hrb.
  destruct Hrb as [Hr [Hv _]]. now split.
Qed.

Lemma place_flow_logs_spec (l : list string) :
  forall x y,
    pairwise_disjoint (place_flow_logs x y l) /\
    Forall (fun r => x <= rx r /\ ry r = y /\ rh r = 30) (place_flow_logs x y l).
Proof.
  induction l as [|fl rest IH]; intros x y; cbn [place_flow_logs].
  - split; constructor.
  - destruct (IH (x + RESOURCE_DISTRIBUTION) y) as [Hpd Hall]. split.
    + constructor; [|exact Hpd].
      eapply Forall_impl; [|exact Hall].
      intros r Hr [_ [Ho _]]. cbv beta in Hr.
      unfold FlowLogs_render_xml in Ho. cbn [rx rw] in Ho. unfold_consts. lia.
    + constructor; [unfold FlowLogs_render_xml; cbn [rx ry rh]; lia|].
      eapply Forall_impl; [|exact Hall].
      intros r Hr. cbv beta in Hr. unfold_consts. lia.
Qed.

(** X25.  The icons of the flow logs never overlap one another; they
    stand in the upper margin of the region, their lower edge on the
    upper edge of the network box and none left of it, so that none
    overlaps the network. *)
Theorem flow_logs_above_network :
  forall (cols line_height : Z) (int_div_1_3 : Z -> Z)
         (py_set : list string -> list string)
         (region : RegionResource) (o : OuterResources)
         (account : Rect) (rb : RegionBox) (flow_logs_resources : list string),
    draw_frame cols line_height int_div_1_3 py_set region o = Ok (account, rb) ->
    pairwise_disjoint (flow_logs_row flow_logs_resources) /\
    Forall (fun r => ry (rb_rect rb) <= ry r /\
                     ry r + rh r = ry (vb_rect (rb_vpc rb)) /\
                     rx (vb_rect (rb_vpc rb)) <= rx r /\
                     ~ overlap r (vb_rect (rb_vpc rb)))
           (flow_logs_row flow_logs_resources).
Proof.
  intros cols line_height int_div_1_3 py_set region o account rb fls H.
  apply draw_frame_inv in H. cbv zeta in H. destruct H as [Hr Hv].
  unfold flow_logs_row.
  destruct (place_flow_logs_spec fls
              (VPC_GUTTER_DIM + RESOURCE_DISTRIBUTION + PADDING)
              (VPC_GUTTER_DIM + PADDING - 30)) as [Hpd Hall].
  split; [exact Hpd|].
  eapply Forall_impl; [|exact Hall].
  intros r [Hx [Hy Hh]]. rewrite Hr, Hv. unfold overlap. cbn [rx ry rw rh].
  unfold VPC_GUTTER_DIM in *. unfold_consts. repeat split; lia.
Qed.

Lemma flow_logs_above_network_witness :
  let v := mkVpc "vpc-1" [mkAZ "us-east-1a" [] (false, 0)] [] [] "" "10.0.0.0/16" [] [] in
  let region := mkRegion "us-east-1" 0 0 v in
  let o := mkOuter [] ["igw-1"%string] [] [] [] in
  exists account rb,
    draw_frame 3 20 (fun h => h) (nodup string_dec) region o = Ok (account, rb) /\
    pairwise_disjoint (flow_logs_row ["fl-1"; "fl-2"]%string).
Proof.
  intros v region o.
  destruct (draw_frame 3 20 (fun h => h) (nodup string_dec) region o)
    as [[account rb]|e] eqn:E; [|vm_compute in E; discriminate E].
  exists account, rb. split; [reflexivity|].
  apply (@flow_logs_above_network 3 20 (fun h => h) (nodup string_dec) region o
           account rb ["fl-1"; "fl-2"]%string E).
Defined.

Lemma stack_down_Forall (A : Type) (render : A -> Z -> Z -> list Rect)
      (P : Z -> Z -> Rect -> Prop) :
  (forall a x y, Forall (P x y) (render a x y)) ->
  (forall x y r, P x (y + RESOURCE_DISTRIBUTION) r -> P x y r) ->
  forall l x y, Forall (P x y) (fst (stack_down render x y l)).
Proof.
  intros Hrender Hstep. induction l as [|a rest IH]; intros x y.
  - constructor.
  - cbn [stack_down]. specialize (IH x (y + RESOURCE_DISTRIBUTION)).
    destruct (stack_down render x (y + RESOURCE_DISTRIBUTION) rest) as [rs y'].
    cbn [fst] in *. apply Forall_app. split; [apply Hrender|].
    eapply Forall_impl; [|exact IH]. intros r. apply Hstep.
Qed.

Lemma outer_column_extent (peering_x : Z) (o : OuterResources) :
  Forall (fun r => rx r + rw r <= peering_x + 3 * PADDING + 50)
         (outer_column peering_x o).
Proof.
  unfold outer_column.
  set (P := fun (x y : Z) (r : Rect) => rx r + rw r <= x + 3 * PADDING + 50).
  assert (Hicon : forall (a : string) x y, Forall (P x y) (Icon_render_xml a x y)).
  { intros a x y. repeat constructor. unfold P. cbn [rx rw DiagramObject_render_xml].
    unfold_consts. lia. }
  assert (Hvpn : forall a x y, Forall (P x y) (VpnGateway_render_xml a x y)).
  { intros a x y. unfold VpnGateway_render_xml, DiagramObject_render_xml, P.
    destruct (String.eqb (vpn a) ""); repeat constructor; cbn [rx rw];
      unfold_consts; lia. }
  assert (Hstep : forall x y r, P x (y + RESOURCE_DISTRIBUTION) r -> P x y r)
    by (intros x y r H; exact H).
  set (y0 := VPC_GUTTER_DIM + PADDING + RESOURCE_DISTRIBUTION).
  pose proof (stack_down_Forall Icon_render_xml P Hicon Hstep
                (peering_resources o) peering_x y0) as H1.
  destruct (stack_down Icon_render_xml peering_x y0 (peering_resources o)) as [r1 y1].
  pose proof (stack_down_Forall Icon_render_xml P Hicon Hstep
                (igw_resources o) peering_x y1) as H2.
  destruct (stack_down Icon_render_xml peering_x y1 (igw_resources o)) as [r2 y2].
  pose proof (stack_down_Forall Icon_render_xml P Hicon Hstep
                (endpoints_resources o) peering_x y2) as H3.
  destruct (stack_down Icon_render_xml peering_x y2 (endpoints_resources o)) as [r3 y3].
  pose proof (stack_down_Forall VpnGateway_render_xml P Hvpn Hstep
                (vpn_gw_resources o) peering_x y3) as H4.
  destruct (stack_down VpnGateway_render_xml peering_x y3 (vpn_gw_resources o))
    as [r4 y4].
  pose proof (stack_down_Forall Icon_render_xml P Hicon Hstep
                (egress_gateway_resources o) peering_x y4) as H5.
  destruct (stack_down Icon_render_xml peering_x y4 (egress_gateway_resources o))
    as [r5 y5].
  cbn [fst] in *. repeat (apply Forall_app; split); assumption.
Qed.

Lemma outer_vpn_y_value (peering_x : Z) (o : OuterResources) :
  outer_vpn_y peering_x o =
  VPC_GUTTER_DIM + PADDING + RESOURCE_DISTRIBUTION +
  RESOURCE_DISTRIBUTION *
  (Z.of_nat (List.length (peering_resources o)) +
   Z.of_nat (List.length (igw_resources o)) +
   Z.of_nat (List.length (endpoints_resources o)) +
   Z.of_nat (List.length (vpn_gw_resources o))).
Proof.
  unfold outer_vpn_y.
  set (y0 := VPC_GUTTER_DIM + PADDING + RESOURCE_DISTRIBUTION).
  destruct (stack_down_spec Icon_render_xml Icon_render_xml_spec
              (peering_resources o) peering_x y0) as [Hy1 _].
  destruct (stack_down Icon_render_xml peering_x y0 (peering_resources o)) as [r1 y1].
  destruct (stack_down_spec Icon_render_xml Icon_render_xml_spec
              (igw_resources o) peering_x y1) as [Hy2 _].
  destruct (stack_down Icon_render_xml peering_x y1 (igw_resources o)) as [r2 y2].
  destruct (stack_down_spec Icon_render_xml Icon_render_xml_spec
              (endpoints_resources o) peering_x y2) as [Hy3 _].
  destruct (stack_down Icon_render_xml peering_x y2 (endpoints_resources o)) as [r3 y3].
  destruct (stack_down_spec VpnGateway_render_xml VpnGateway_render_xml_spec
              (vpn_gw_resources o) peering_x y3) as [Hy4 _].
  cbn [fst snd] in *. rewrite Hy4, Hy3, Hy2, Hy1. lia.
Qed.

Lemma direct_connect_stack (l : list DirectConnectResource) :
  forall x y,
    pairwise_disjoint (fst (stack_down DirectConnect_render_xml x y l)) /\
    Forall (fun r => rx r = x /\ y <= ry r)
           (fst (stack_down DirectConnect_render_xml x y l)).
Proof.
  induction l as [|dc rest IH]; intros x y; cbn [stack_down].
  - split; constructor.
  - destruct (IH x (y + RESOURCE_DISTRIBUTION)) as [Hpd Hall].
    destruct (stack_down DirectConnect_render_xml x (y + RESOURCE_DISTRIBUTION) rest)
      as [rs y'].
    cbn [fst app DirectConnect_render_xml] in *. split.
    + constructor; [|exact Hpd].
      eapply Forall_impl; [|exact Hall].
      intros r Hr [_ [_ [_ Ho]]]. cbv beta in Hr. cbn [ry rh] in Ho.
      unfold_consts. lia.
    + constructor; [cbn [rx ry]; lia|].
      eapply Forall_impl; [|exact Hall].
      intros r Hr. cbv beta in Hr. unfold_consts. lia.
Qed.

(** X26.  The icons of the direct connect gateways never overlap one
    another nor an icon of the column of peering connections and
    gateways.  When the peer column count is positive, there is a VPN
    gateway (a direct connect gateway is only drawn for one) and there
    are no more peered networks than peering connections, they stand
    below every placeholder of a peered network, although they share
    the placeholders' first column. *)
Theorem direct_connect_clear :
  forall (cols line_height : Z) (int_div_1_3 : Z -> Z)
         (py_set : list string -> list string)
         (VPC_PEER_COLS : Z) (ADD_ROUTE_TABLE_CONNECTIONS : bool) (peering_x : Z)
         (o : OuterResources) (peers : list VpcResource)
         (direct_connect_resources : list DirectConnectResource),
    let dcs := direct_connect_column ADD_ROUTE_TABLE_CONNECTIONS peering_x o
                                     direct_connect_resources in
    pairwise_disjoint dcs /\
    Forall (fun r => Forall (fun r' => ~ overlap r r') (outer_column peering_x o)) dcs /\
    (1 <= VPC_PEER_COLS ->
     vpn_gw_resources o <> [] ->
     (List.length peers <= List.length (peering_resources o))%nat ->
     Forall (fun p => check_empty p = true) peers ->
     exists bs,
       peer_vpc_grid cols line_height int_div_1_3 py_set VPC_PEER_COLS
                     (original_peer_vpc_spacing ADD_ROUTE_TABLE_CONNECTIONS peering_x)
                     peers = Ok bs /\
       Forall (fun r => rx r = original_peer_vpc_spacing ADD_ROUTE_TABLE_CONNECTIONS
                                                         peering_x /\
                        Forall (fun b => ry (vb_rect b) + rh (vb_rect b) < ry r) bs)
              dcs).
Proof.
  intros cols line_height int_div_1_3 py_set pc rtc peering_x o peers dcl dcs.
  subst dcs. unfold direct_connect_column.
  destruct (direct_connect_stack dcl (original_peer_vpc_spacing rtc peering_x)
              (outer_vpn_y peering_x o - RESOURCE_DISTRIBUTION)) as [Hpd Hall].
  split; [exact Hpd|]. split.
  - pose proof (outer_column_extent peering_x o) as Hext.
    eapply Forall_impl; [|exact Hall]. intros r [Hx _].
    eapply Forall_impl; [|exact Hext]. intros r' Hr' [Ho _]. cbv beta in Hr'.
    assert (peering_x + VPC_GUTTER_DIM <= original_peer_vpc_spacing rtc peering_x)
      by (unfold original_peer_vpc_spacing, VPC_GUTTER_DIM; destruct rtc; lia).
    unfold VPC_GUTTER_DIM in *. unfold_consts. lia.
  - intros Hpc Hvpn Hlen Hempty.
    destruct peers as [|p rest].
    { exists []. split; [reflexivity|].
      eapply Forall_impl; [|exact Hall]. intros r [Hx _]. split; [exact Hx|constructor]. }
    inversion Hempty as [|? ? Hp Hrest]; subst.
    rewrite (@peer_vpc_grid_unfold cols line_height int_div_1_3 py_set pc
               (original_peer_vpc_spacing rtc peering_x) p rest Hp).
    destruct (@place_peer_vpcs_grid cols line_height int_div_1_3 py_set pc
                (original_peer_vpc_spacing rtc peering_x) Hpc (p :: rest)
                (original_peer_vpc_spacing rtc peering_x)
                (VPC_GUTTER_DIM + PADDING + RESOURCE_DISTRIBUTION - 20) 0 Hempty)
      as [bs [Hbs [Hlenbs Hnth]]]; [lia|lia|].
    exists bs. split; [exact Hbs|].
    rewrite outer_vpn_y_value in Hall |- *.
    assert (Hv : (1 <= List.length (vpn_gw_resources o))%nat)
      by (destruct (vpn_gw_resources o); [congruence|cbn; lia]).
    eapply Forall_impl; [|exact Hall]. intros r [Hx Hy]. split; [exact Hx|].
    apply Forall_forall. intros b Hb.
    apply In_nth_error in Hb. destruct Hb as [i Hi].
    assert (Hi' : (i < List.length bs)%nat)
      by (apply nth_error_Some; congruence).
    rewrite (Hnth i b Hi). cbn [ry rh].
    assert (Hdiv : (0 + Z.of_nat i) / pc <= Z.of_nat i).
    { apply Z.div_le_upper_bound; [lia|]. nia. }
    unfold VPC_GUTTER_DIM in *. unfold_consts. lia.
Qed.

Lemma direct_connect_clear_witness :
  let peer := mkVpc "vpc-a" [] [] [] "Account: 1" "10.1.0.0/16" [] [] in
  let o := mkOuter ["pcx-1"%string] [] [] [mkVpnGw "vgw-1" "vgw" ""] [] in
  let dcs := direct_connect_column false 1600 o [mkDirectConnect "dx-1" "dx" ["vgw-1"%string]] in
  exists bs,
    peer_vpc_grid 3 20 (fun h => h) (nodup string_dec) 1 2300 [peer] = Ok bs /\
    Forall (fun r => Forall (fun b => ry (vb_rect b) + rh (vb_rect b) < ry r) bs) dcs.
Proof.
  intros peer o dcs.
  destruct (@direct_connect_clear 3 20 (fun h => h) (nodup string_dec) 1 false 1600
              o [peer] [mkDirectConnect "dx-1" "dx" ["vgw-1"%string]])
    as [_ [_ H]].
  destruct H as [bs [Hbs Hall]].
  - lia.
  - discriminate.
  - cbn. lia.
  - repeat constructor.
  - exists bs. split; [exact Hbs|].
    eapply Forall_impl; [|exact Hall]. intros r [_ Hr]. exact Hr.
Defined.
